(** * CinemaOS ComfyUI nodes: provider adapters, credit ledger, Vault client

    A shallow embedding of the five custom nodes under [comfyui_nodes/]
    ([fal_provider.py], [vertex_provider.py], [credit_tracker.py],
    [vault_save.py], [vault_context.py]) and the properties of their
    credit estimation, credit accumulation, persistence fallback and
    context rendering.

    Python [float] is IEEE 754 binary64, modelled by the Standard Library's
    [spec_float] at precision 53 and maximal exponent 1024; Python [int] is
    [Z]; a [str] is the [string] of its code points, for text whose code
    points are below 256; exceptions are an explicit [Raise] outcome.  The remote services (the Vault, Fal.ai, Vertex AI) answer
    through oracles passed to each node function. *)

From Stdlib Require Import ZArith Lia List String Ascii Bool.
From Stdlib Require Import SpecFloat DecimalString DecimalN.
Import ListNotations.

Local Open Scope Z_scope.

(** ** Outcomes of Python calls *)

(** The exception classes the nodes raise or catch.  [HTTPError] and
    [JSONDecodeError] are the ones of [requests.exceptions]; both derive
    from [requests.RequestException], as [ConnectionError], [Timeout] and
    [InvalidJSONError], which the model keeps together under
    [RequestException]. *)
Inductive exn : Type :=
| ValueError (msg : string)
| TypeError
| AttributeError
| KeyError
| IndexError
| ZeroDivisionError
| OverflowError
| ImportError (msg : string)
| NotImplementedError (msg : string)
| OSError
| RequestException
| HTTPError
| JSONDecodeError.

(** [except requests.RequestException] catches exactly these. *)
Definition is_request_exception (e : exn) : bool :=
  match e with
  | RequestException | HTTPError | JSONDecodeError => true
  | _ => false
  end.

Inductive result (A : Type) : Type :=
| Ok (a : A)
| Raise (e : exn).
Arguments Ok {A} a.
Arguments Raise {A} e.

Definition bind {A B : Type} (r : result A) (k : A -> result B) : result B :=
  match r with
  | Ok a => k a
  | Raise e => Raise e
  end.

Notation "x <- r ;; k" := (bind r (fun x => k))
  (at level 61, r at next level, right associativity).

(** ** Python floats *)

Module PyFloat.

Definition prec : Z := 53.
Definition emax : Z := 1024.

Definition float : Type := spec_float.

Definition fadd : float -> float -> float := SFadd prec emax.
Definition fmul : float -> float -> float := SFmul prec emax.
Definition fdiv : float -> float -> float := SFdiv prec emax.

(** Python's [<=], [<] and [>] on floats: false whenever a NaN is
    compared. *)
Definition fle : float -> float -> bool := SFleb.
Definition flt : float -> float -> bool := SFltb.
Definition fgt (x y : float) : bool := SFltb y x.

Definition pos_zero : float := S754_zero false.
Definition neg_zero : float := S754_zero true.

(** [bool(x)] for a float: every value but the two zeros is truthy. *)
Definition truthy (x : float) : bool :=
  match x with
  | S754_zero _ => false
  | _ => true
  end.

(** [math.isfinite(x)]: every value but the infinities and NaN. *)
Definition is_finite (x : float) : bool :=
  match x with
  | S754_zero _ | S754_finite _ _ _ => true
  | _ => false
  end.

(** An integer as an exact (not normalised) operand of a float
    operation. *)
Definition of_Z (z : Z) : float :=
  match z with
  | Z0 => S754_zero false
  | Zpos p => S754_finite false p 0
  | Zneg p => S754_finite true p 0
  end.

(** [a / b] on two Python ints: the correctly rounded quotient,
    [ZeroDivisionError] for a zero divisor and [OverflowError] when the
    quotient is too large for a float. *)
Definition int_truediv (a b : Z) : result float :=
  if b =? 0 then Raise ZeroDivisionError
  else
    match fdiv (of_Z a) (of_Z b) with
    | S754_infinity _ => Raise OverflowError
    | q => Ok q
    end.

(** The float nearest to [d * 10^e] for [0 <= d], with sign [s]: what a
    decimal literal or [float(str)] denotes. *)
Definition of_decimal (s : bool) (d e : Z) : float :=
  match d with
  | Zpos p =>
      if 0 <=? e
      then binary_normalize prec emax (cond_Zopp s (Zpos p * 10 ^ e)) 0 false
      else fdiv (S754_finite s p 0)
                (S754_finite false (Z.to_pos (10 ^ (- e))) 0)
  | _ => S754_zero s
  end.

(** Round-half-even of [p / 2^n] for [0 <= p]; [p] itself when
    [n <= 0]. *)
Definition rne_shift (p n : Z) : Z :=
  if n <=? 0 then p
  else
    let q := p / 2 ^ n in
    let r := p mod 2 ^ n in
    let h := 2 ^ (n - 1) in
    if r <? h then q
    else if h <? r then q + 1
    else if Z.even q then q else q + 1.

(** *** [float(s)] on a string *)

(** The white space [float] strips around a number: the ASCII one, and
    the two code points below 256 that are white space in Unicode, the
    next line U+0085 and the no-break space U+00A0, which [float] turns
    into spaces first. *)
Definition is_space (c : ascii) : bool :=
  let n := N.of_nat (nat_of_ascii c) in
  (((9 <=? n) && (n <=? 13)) || (n =? 32) || (n =? 133) || (n =? 160))%N.

Definition is_digit (c : ascii) : bool :=
  let n := N.of_nat (nat_of_ascii c) in
  ((48 <=? n) && (n <=? 57))%N.

Definition digit_val (c : ascii) : Z := Z.of_nat (nat_of_ascii c) - 48.

Definition lower (c : ascii) : ascii :=
  let n := nat_of_ascii c in
  if ((65 <=? n) && (n <=? 90))%nat then ascii_of_nat (n + 32) else c.

Fixpoint lower_str (s : string) : string :=
  match s with
  | EmptyString => EmptyString
  | String c r => String (lower c) (lower_str r)
  end.

Fixpoint lstrip (s : string) : string :=
  match s with
  | String c r => if is_space c then lstrip r else s
  | EmptyString => s
  end.

Fixpoint rstrip (s : string) : string :=
  match s with
  | EmptyString => EmptyString
  | String c r =>
      match rstrip r with
      | EmptyString => if is_space c then EmptyString else String c EmptyString
      | r' => String c r'
      end
  end.

(** Underscores are allowed between two digits only, and are dropped. *)
Fixpoint drop_underscores (prev : ascii) (s : string) : option string :=
  match s with
  | EmptyString => if Ascii.eqb prev "_" then None else Some EmptyString
  | String c r =>
      if Ascii.eqb c "_" then
        if is_digit prev then drop_underscores c r else None
      else if Ascii.eqb prev "_" && negb (is_digit c) then None
      else option_map (String c) (drop_underscores c r)
  end.

(** Reads a run of digits: the number read so far, the count of digits
    and the rest. *)
Fixpoint read_digits (acc n : Z) (s : string) : Z * Z * string :=
  match s with
  | String c r =>
      if is_digit c then read_digits (10 * acc + digit_val c) (n + 1) r
      else (acc, n, s)
  | EmptyString => (acc, n, s)
  end.

Definition read_sign (s : string) : bool * string :=
  match s with
  | String "-" r => (true, r)
  | String "+" r => (false, r)
  | _ => (false, s)
  end.

(** An exponent part is consumed only when it has a digit. *)
Definition read_exponent (s : string) : Z * string :=
  match s with
  | String c r =>
      if Ascii.eqb (lower c) "e" then
        let '(neg, r1) := read_sign r in
        let '(v, n, r2) := read_digits 0 0 r1 in
        if n =? 0 then (0, s) else (cond_Zopp neg v, r2)
      else (0, s)
  | EmptyString => (0, s)
  end.

Definition parse_number (sign : bool) (s : string) : option float :=
  let '(ip, ni, r1) := read_digits 0 0 s in
  let '(d, nf, r2) :=
    match r1 with
    | String "." r => read_digits ip 0 r
    | _ => (ip, 0, r1)
    end in
  if ni + nf =? 0 then None
  else
    let '(e, r3) := read_exponent r2 in
    match r3 with
    | EmptyString => Some (of_decimal sign d (e - nf))
    | _ => None
    end.

(** [float(s)]: [None] stands for the [ValueError] raised on text that is
    not a number.  The underscores are checked and dropped first, then the
    white space around the number is stripped. *)
Definition of_string (s : string) : option float :=
  match drop_underscores zero s with
  | None => None
  | Some t =>
      let '(sign, body) := read_sign (rstrip (lstrip t)) in
      let l := lower_str body in
      if (l =? "inf")%string || (l =? "infinity")%string
      then Some (S754_infinity sign)
      else if (l =? "nan")%string then Some S754_nan
      else parse_number sign body
  end.

(** *** [f"{x:.4f}"] *)

Definition string_of_nonneg (z : Z) : string :=
  NilZero.string_of_uint (N.to_uint (Z.to_N z)).

Definition drop_first (s : string) : string :=
  match s with
  | String _ r => r
  | EmptyString => EmptyString
  end.

(** The value scaled by [10^4] and rounded half-even to an integer. *)
Definition scaled_4 (m : positive) (e : Z) : Z :=
  if 0 <=? e then Zpos m * 2 ^ e * 10000
  else rne_shift (Zpos m * 10000) (- e).

Definition format_4f (x : float) : string :=
  match x with
  | S754_nan => "nan"
  | S754_infinity s => if s then "-inf" else "inf"
  | S754_zero s => if s then "-0.0000" else "0.0000"
  | S754_finite s m e =>
      let n := scaled_4 m e in
      ((if s then "-" else "")
       ++ string_of_nonneg (n / 10000) ++ "."
       ++ drop_first (string_of_nonneg (10000 + n mod 10000)))%string
  end.

End PyFloat.

Import PyFloat.

Local Open Scope string_scope.

(** ** Python values *)

(** What [response.json()] can yield, and what the node inputs carry. *)
#[warnings="-register-all"]
Inductive pyval : Type :=
| VNone
| VBool (b : bool)
| VInt (z : Z)
| VFloat (f : float)
| VStr (s : string)
| VList (l : list pyval)
| VDict (d : list (string * pyval)).

(** The values [requests] encodes as a JSON body: it encodes with
    [allow_nan=False], which refuses a value that holds an infinity or a
    NaN anywhere. *)
Fixpoint json_ready (v : pyval) : bool :=
  match v with
  | VFloat f => PyFloat.is_finite f
  | VList l => forallb json_ready l
  | VDict d => forallb (fun kv => json_ready (snd kv)) d
  | _ => true
  end.

(** A [dict] with [str] keys, as its items; a lookup takes the first item
    with the key. *)
Fixpoint assoc {V : Type} (k : string) (d : list (string * V)) : option V :=
  match d with
  | [] => None
  | (k', v) :: r => if (k' =? k)%string then Some v else assoc k r
  end.

(** [d.get(k, default)] on a dict literal. *)
Definition get_or {V : Type} (d : list (string * V)) (k : string) (default : V) : V :=
  match assoc k d with
  | Some v => v
  | None => default
  end.

(** [bool(v)]. *)
Definition py_truthy (v : pyval) : bool :=
  match v with
  | VNone => false
  | VBool b => b
  | VInt z => negb (z =? 0)%Z
  | VFloat f => PyFloat.truthy f
  | VStr s => negb (s =? "")%string
  | VList l => match l with [] => false | _ => true end
  | VDict d => match d with [] => false | _ => true end
  end.

(** [v.get(k, default)]: only a dict has the method. *)
Definition py_get (v : pyval) (k : string) (default : pyval) : result pyval :=
  match v with
  | VDict d => Ok (get_or d k default)
  | _ => Raise AttributeError
  end.

Fixpoint contains (needle s : string) : bool :=
  prefix needle s
  || match s with
     | String _ r => contains needle r
     | EmptyString => false
     end.

(** [k in v] for a text [k]. *)
Definition py_in (k : string) (v : pyval) : result bool :=
  match v with
  | VDict d => Ok (match assoc k d with Some _ => true | None => false end)
  | VList l =>
      Ok (existsb (fun x => match x with VStr s => (s =? k)%string | _ => false end) l)
  | VStr s => Ok (contains k s)
  | _ => Raise TypeError
  end.

(** [v[k]] for a text key [k]. *)
Definition py_item (v : pyval) (k : string) : result pyval :=
  match v with
  | VDict d => match assoc k d with Some x => Ok x | None => Raise KeyError end
  | _ => Raise TypeError
  end.

(** [v[0]]. *)
Definition py_first (v : pyval) : result pyval :=
  match v with
  | VList (x :: _) => Ok x
  | VList [] => Raise IndexError
  | VStr (String c _) => Ok (VStr (String c EmptyString))
  | VStr EmptyString => Raise IndexError
  | VDict _ => Raise KeyError
  | _ => Raise TypeError
  end.

(** [len(v)]. *)
Definition py_len (v : pyval) : result Z :=
  match v with
  | VList l => Ok (Z.of_nat (List.length l))
  | VStr s => Ok (Z.of_nat (String.length s))
  | VDict d => Ok (Z.of_nat (List.length d))
  | _ => Raise TypeError
  end.

Definition string_of_Z (z : Z) : string := NilZero.string_of_int (Z.to_int z).

(** [sep.join(parts)]: every part must be a [str]. *)
Fixpoint all_str (parts : list pyval) : result (list string) :=
  match parts with
  | [] => Ok []
  | VStr s :: r => l <- all_str r ;; Ok (s :: l)
  | _ :: _ => Raise TypeError
  end.

Definition py_join (sep : string) (parts : list pyval) : result pyval :=
  l <- all_str parts ;; Ok (VStr (String.concat sep l)).

(** [try: body except <classes>: handler]. *)
Definition try_except {A : Type} (body : result A) (caught : exn -> bool)
    (handler : result A) : result A :=
  match body with
  | Ok a => Ok a
  | Raise e => if caught e then handler else Raise e
  end.

(** ** Text helpers *)

(** [str.isspace] on a code point below 256, as [str.strip()] uses it. *)
Definition is_py_space (c : ascii) : bool :=
  let n := N.of_nat (nat_of_ascii c) in
  (((9 <=? n) && (n <=? 13)) || ((28 <=? n) && (n <=? 32))
   || (n =? 133) || (n =? 160))%N.

Fixpoint str_lstrip (s : string) : string :=
  match s with
  | String c r => if is_py_space c then str_lstrip r else s
  | EmptyString => s
  end.

Fixpoint str_rstrip (s : string) : string :=
  match s with
  | EmptyString => EmptyString
  | String c r =>
      match str_rstrip r with
      | EmptyString => if is_py_space c then EmptyString else String c EmptyString
      | r' => String c r'
      end
  end.

Definition str_strip (s : string) : string := str_rstrip (str_lstrip s).

(** [s.split(sep)] for a one-character separator, [cur] being the piece
    read so far. *)
Fixpoint split_on (sep : ascii) (cur s : string) : list string :=
  match s with
  | EmptyString => [cur]
  | String c r =>
      if Ascii.eqb c sep then cur :: split_on sep EmptyString r
      else split_on sep (cur ++ String c EmptyString) r
  end.

Definition str_split (sep : ascii) (s : string) : list string :=
  split_on sep EmptyString s.

Fixpoint ends_with_slash (s : string) : bool :=
  match s with
  | EmptyString => false
  | String c EmptyString => Ascii.eqb c "/"
  | String _ r => ends_with_slash r
  end.

(** [os.path.join] on POSIX paths: an absolute component restarts the
    path. *)
Definition path_join2 (a b : string) : string :=
  if prefix "/" b then b
  else if (a =? "")%string || ends_with_slash a then a ++ b
  else a ++ "/" ++ b.

Definition path_join (a : string) (ps : list string) : string :=
  fold_left path_join2 ps a.

(** [p[:p.rfind("/") + 1]]: the text up to the last slash, the slash
    included. *)
Fixpoint upto_last_slash (s : string) : string :=
  match s with
  | EmptyString => EmptyString
  | String c r =>
      match upto_last_slash r with
      | EmptyString => if Ascii.eqb c "/" then String c EmptyString else EmptyString
      | h => String c h
      end
  end.

Fixpoint all_slashes (s : string) : bool :=
  match s with
  | EmptyString => true
  | String c r => Ascii.eqb c "/" && all_slashes r
  end.

(** [s.rstrip("/")]. *)
Fixpoint rstrip_slashes (s : string) : string :=
  match s with
  | EmptyString => EmptyString
  | String c r =>
      match rstrip_slashes r with
      | EmptyString => if Ascii.eqb c "/" then EmptyString else String c EmptyString
      | r' => String c r'
      end
  end.

(** [os.path.dirname] on POSIX paths. *)
Definition dirname (path : string) : string :=
  let head := upto_last_slash path in
  if negb (head =? "") && negb (all_slashes head) then rstrip_slashes head
  else head.

(** The directories above [path], the nearest first; [fuel] bounds their
    number. *)
Fixpoint ancestors (fuel : nat) (path : string) : list string :=
  match fuel with
  | O => []
  | S f =>
      let d := dirname path in
      if (d =? "") || (d =? path) then [] else d :: ancestors f d
  end.

(** ** The network and the local disk *)

Record request : Type := {
  req_method : string;
  req_url : string;
  req_json : option pyval;
  req_headers : list (string * string);
  req_timeout : option Z
}.

(** A response: its status, its raw content and what [response.json()]
    decodes from it ([None] when the content is not JSON). *)
Record response : Type := {
  status_code : Z;
  content : string;
  json_body : option pyval
}.

(** The answer of the remote side to one request: a response, or no
    response at all (connection refused, time-out, invalid URL), which
    [requests] raises as a [RequestException]. *)
Inductive reply : Type :=
| Answer (r : response)
| NoAnswer.

Definition network : Type := request -> reply.

Definition send (net : network) (rq : request) : result response :=
  match net rq with
  | Answer r => Ok r
  | NoAnswer => Raise RequestException
  end.

Definition post_request (url : string) (payload : pyval)
    (headers : list (string * string)) (timeout : option Z) : request :=
  {| req_method := "POST"; req_url := url; req_json := Some payload;
     req_headers := headers; req_timeout := timeout |}.

Definition get_request (url : string) (timeout : option Z) : request :=
  {| req_method := "GET"; req_url := url; req_json := None;
     req_headers := []; req_timeout := timeout |}.

(** [requests.post(url, json=payload, headers=headers, timeout=timeout)].
    The payload is encoded before anything is sent: for a payload that
    holds an infinity or a NaN [requests] raises [InvalidJSONError], one
    of its [RequestException]s, and the remote side sees no request. *)
Definition requests_post (net : network) (url : string) (payload : pyval)
    (headers : list (string * string)) (timeout : option Z) : result response :=
  if json_ready payload then send net (post_request url payload headers timeout)
  else Raise RequestException.

(** [requests.get(url, timeout=timeout)]. *)
Definition requests_get (net : network) (url : string) (timeout : option Z)
    : result response :=
  send net (get_request url timeout).

(** [response.json()]. *)
Definition json (r : response) : result pyval :=
  match json_body r with
  | Some v => Ok v
  | None => Raise JSONDecodeError
  end.

(** [response.raise_for_status()]. *)
Definition raise_for_status (r : response) : result unit :=
  if ((400 <=? status_code r) && (status_code r <? 600))%Z then Raise HTTPError
  else Ok tt.

(** The local disk: the directories and the files it holds.  What the
    operating system does with a path is not decided by the text of the
    path, so the disk carries three oracles: the file or directory a path
    names, what making a directory raises and what opening a file for
    writing raises. *)
Record filesystem : Type := {
  (** the directories of the disk, under the names [fs_resolve] gives *)
  fs_dirs : list string;
  (** the files of the disk and their content, under the names
      [fs_resolve] gives *)
  fs_files : list (string * string);
  (** the file or directory a path names: two spellings of one path, or
      a link and its target, name the same one *)
  fs_resolve : string -> string;
  (** what [os.mkdir] raises for a path that is not a directory yet,
      [None] when it makes the directory *)
  fs_mkdir : string -> option exn;
  (** what opening a path for writing raises, [None] when the file is
      opened *)
  fs_open : string -> option exn
}.

Definition is_dir (fs : filesystem) (path : string) : bool :=
  existsb (String.eqb (fs_resolve fs path)) (fs_dirs fs).

Definition read_file (fs : filesystem) (path : string) : option string :=
  assoc (fs_resolve fs path) (fs_files fs).

(** [os.path.exists]. *)
Definition path_exists (fs : filesystem) (path : string) : bool :=
  is_dir fs path
  || match read_file fs path with
     | Some _ => true
     | None => false
     end.

(** [os.path.basename] on POSIX paths: the text after the last slash. *)
Definition basename (path : string) : string :=
  let n := String.length (upto_last_slash path) in
  substring n (String.length path - n) path.

(** The last component of a path as [os.makedirs] takes it: the base
    name, and the one of the directory for a path that ends in a
    slash. *)
Definition last_component (path : string) : string :=
  if (basename path =? "")%string then basename (dirname path)
  else basename path.

(** The last step of [os.makedirs(name, exist_ok=True)]: [os.mkdir],
    whose [OSError] is passed over when the directory exists. *)
Definition mkdir_exist_ok (name : string) (fs : filesystem)
    : filesystem * result unit :=
  if is_dir fs name then (fs, Ok tt)
  else
    match fs_mkdir fs name with
    | None =>
        ({| fs_dirs := fs_resolve fs name :: fs_dirs fs;
            fs_files := fs_files fs;
            fs_resolve := fs_resolve fs;
            fs_mkdir := fs_mkdir fs;
            fs_open := fs_open fs |}, Ok tt)
    | Some e => (fs, Raise e)
    end.

(** [os.makedirs(name, exist_ok=True)] on [name] and the directories
    above it, the nearest first.  The directory above is made first when
    it does not exist, with those above it; an exception on the way
    leaves the directories made so far.  A name that ends in [/.] under a
    directory just made is not made again. *)
Fixpoint makedirs_chain (names : list string) (fs : filesystem)
    : filesystem * result unit :=
  match names with
  | [] => (fs, Ok tt)
  | name :: above =>
      match above with
      | head :: _ =>
          if path_exists fs head then mkdir_exist_ok name fs
          else
            let '(fs1, made) := makedirs_chain above fs in
            match made with
            | Raise e => (fs1, Raise e)
            | Ok _ =>
                if (last_component name =? ".")%string then (fs1, Ok tt)
                else mkdir_exist_ok name fs1
            end
      | [] => mkdir_exist_ok name fs
      end
  end.

(** [os.makedirs(path, exist_ok=True)]: the disk it leaves and whether it
    raises. *)
Definition makedirs (path : string) (fs : filesystem) : filesystem * result unit :=
  let top := if (basename path =? "")%string then dirname path else path in
  makedirs_chain (path :: ancestors (String.length top) top) fs.

(** [pil_image.save(path)]: the file is opened for writing and holds the
    data afterwards. *)
Definition write_file (path data : string) (fs : filesystem) : result filesystem :=
  match fs_open fs path with
  | None =>
      Ok {| fs_dirs := fs_dirs fs;
            fs_files := (fs_resolve fs path, data) :: fs_files fs;
            fs_resolve := fs_resolve fs;
            fs_mkdir := fs_mkdir fs;
            fs_open := fs_open fs |}
  | Some e => Raise e
  end.

(** ** [credit_tracker.py] *)

Module CreditTrackerNode.

(** The class-level accumulator [_session_credits], at import time. *)
Definition _session_credits : float := pos_zero.

(** [float(credits_used)] for the [STRING] input of the node. *)
Definition py_float (s : string) : result float :=
  match of_string s with
  | Some f => Ok f
  | None => Raise (ValueError "could not convert string to float")
  end.

Definition parse_caught (e : exn) : bool :=
  match e with
  | ValueError _ | TypeError => true
  | _ => false
  end.

(** The parsed charge: [0.0] when [float] raises. *)
Definition parse_credits (credits_used : string) : result float :=
  try_except (py_float credits_used) parse_caught (Ok pos_zero).

Definition usage_payload (credits : float) (model_name project_id now : string)
    (unique_id : pyval) : pyval :=
  VDict [("credits", VFloat credits);
         ("model", VStr model_name);
         ("project_id", VStr project_id);
         ("timestamp", VStr now);
         ("node_id", unique_id)].

(** The one request of a call. *)
Definition usage_request (credits : float)
    (model_name vault_url project_id now : string) (unique_id : pyval) : request :=
  post_request (vault_url ++ "/api/credits/usage")
    (usage_payload credits model_name project_id now unique_id) [] (Some 5).

(** The report to the Vault and the status it yields. *)
Definition report (net : network) (credits : float)
    (model_name vault_url project_id now : string) (unique_id : pyval)
    : result string :=
  try_except
    (response <- requests_post net (vault_url ++ "/api/credits/usage")
                   (usage_payload credits model_name project_id now unique_id)
                   [] (Some 5) ;;
     if (status_code response =? 200)%Z then Ok "reported"
     else Ok "local_only")
    is_request_exception
    (Ok "offline").

(** [track_credits], on the session total [session] before the call;
    [now] is [datetime.utcnow().isoformat()].  Yields the session total
    after the call and what the call returns. *)
Definition track_credits (net : network) (now : string) (session : float)
    (credits_used model_name vault_url project_id : string) (unique_id : pyval)
    : float * result (string * string) :=
  match parse_credits credits_used with
  | Raise e => (session, Raise e)
  | Ok credits =>
      let session' := fadd session credits in
      (session',
       status <- report net credits model_name vault_url project_id now unique_id ;;
       Ok (format_4f session', status))
  end.

Definition reset_session_credits (session : float) : float := pos_zero.

Definition get_session_credits (session : float) : float := session.

(** A call on the node class, and the session total after a sequence of
    calls. *)
Inductive call : Type :=
| Track (net : network) (now credits_used model_name vault_url project_id : string)
        (unique_id : pyval)
| Reset.

Definition step (session : float) (c : call) : float :=
  match c with
  | Track net now credits_used model_name vault_url project_id unique_id =>
      fst (track_credits net now session credits_used model_name vault_url
             project_id unique_id)
  | Reset => reset_session_credits session
  end.

Definition run (calls : list call) : float :=
  fold_left step calls _session_credits.

(** The charge is text that [float] rejects or reads as a value [>= 0]. *)
Definition nonneg_charge (c : call) : Prop :=
  match c with
  | Track _ _ credits_used _ _ _ _ =>
      forall x, of_string credits_used = Some x -> fle pos_zero x = true
  | Reset => True
  end.

(** The three report statuses. *)
Definition is_status (s : string) : Prop :=
  s = "reported" \/ s = "local_only" \/ s = "offline".

End CreditTrackerNode.

(** ** [vault_context.py] *)

Module VaultContextNode.
Section Node.

(** [str(v)] for a float, a list or a dict: Python's [repr], which the
    nodes never inspect. *)
Variable py_repr : pyval -> string.

(** [f"{v}"]. *)
Definition py_str (v : pyval) : string :=
  match v with
  | VNone => "None"
  | VBool true => "True"
  | VBool false => "False"
  | VInt z => string_of_Z z
  | VStr s => s
  | _ => py_repr v
  end.

(** [parts.append(x)] under [if v:]. *)
Definition append_if (v : pyval) (x : pyval) (parts : list pyval) : list pyval :=
  if py_truthy v then (parts ++ [x])%list else parts.

Definition _build_prompt_context (token_type : string) (token_data : pyval)
    : result pyval :=
  name <- py_get token_data "name" (VStr "") ;;
  description <- py_get token_data "description" (VStr "") ;;
  if (token_type =? "character")%string then
    age <- py_get token_data "age" (VStr "") ;;
    appearance <- py_get token_data "appearance" (VStr "") ;;
    clothing <- py_get token_data "clothing" (VStr "") ;;
    let parts := [VStr (py_str name)] in
    let parts := append_if age (VStr (py_str age ++ " years old")) parts in
    let parts := append_if appearance appearance parts in
    let parts := append_if clothing (VStr ("wearing " ++ py_str clothing)) parts in
    let parts := append_if description description parts in
    py_join ", " parts
  else if (token_type =? "location")%string then
    setting <- py_get token_data "setting" (VStr "") ;;
    time_of_day <- py_get token_data "time_of_day" (VStr "") ;;
    weather <- py_get token_data "weather" (VStr "") ;;
    let parts := [name] in
    let parts := append_if setting setting parts in
    let parts := append_if time_of_day (VStr ("during " ++ py_str time_of_day)) parts in
    let parts := append_if weather (VStr (py_str weather ++ " weather")) parts in
    let parts := append_if description description parts in
    py_join ", " parts
  else if (token_type =? "prop")%string then
    material <- py_get token_data "material" (VStr "") ;;
    color <- py_get token_data "color" (VStr "") ;;
    let parts := [name] in
    let parts := append_if color color parts in
    let parts := append_if material (VStr ("made of " ++ py_str material)) parts in
    let parts := append_if description description parts in
    py_join ", " parts
  else if py_truthy description
  then Ok (VStr (py_str name ++ ", " ++ py_str description))
  else Ok name.

Definition empty_context : pyval * pyval * pyval := (VStr "", VStr "", VStr "").

(** The one request of a call. *)
Definition token_request (token_type token_name vault_url : string) : request :=
  get_request (vault_url ++ "/api/tokens/" ++ token_type ++ "/" ++ token_name)
    (Some 5).

Definition load_context (net : network) (token_type token_name vault_url : string)
    (include_visuals : bool) : result (pyval * pyval * pyval) :=
  if (token_name =? "")%string then Ok empty_context
  else
    try_except
      (response <- requests_get net
                     (vault_url ++ "/api/tokens/" ++ token_type ++ "/" ++ token_name)
                     (Some 5) ;;
       if negb (status_code response =? 200)%Z then Ok empty_context
       else
         token_data <- json response ;;
         prompt_context <- _build_prompt_context token_type token_data ;;
         style_prompt <- py_get token_data "style_prompt" (VStr "") ;;
         listed <- py_get token_data "visuals" VNone ;;
         reference_path <-
           (if include_visuals && py_truthy listed then
              visuals <- py_item token_data "visuals" ;;
              if py_truthy visuals then
                first <- py_first visuals ;;
                py_get first "path" (VStr "")
              else Ok (VStr "")
            else Ok (VStr "")) ;;
         Ok (prompt_context, style_prompt, reference_path))
      is_request_exception
      (Ok empty_context).

(** *** The rendering as the design states it

    A fixed, ordered list of fragments per token type, the name first,
    every later fragment kept when its attribute is truthy, the kept
    ones joined by a comma and a space. *)

Inductive fragment : Type :=
| Plain (attr : string)
| Prefixed (before attr : string)
| Suffixed (attr after : string).

Definition fragments_of (token_type : string) : list fragment :=
  if (token_type =? "character")%string then
    [Suffixed "age" " years old"; Plain "appearance";
     Prefixed "wearing " "clothing"; Plain "description"]
  else if (token_type =? "location")%string then
    [Plain "setting"; Prefixed "during " "time_of_day";
     Suffixed "weather" " weather"; Plain "description"]
  else if (token_type =? "prop")%string then
    [Plain "color"; Prefixed "made of " "material"; Plain "description"]
  else [Plain "description"].

Definition fragment_attr (f : fragment) : string :=
  match f with
  | Plain a => a
  | Prefixed _ a => a
  | Suffixed a _ => a
  end.

Definition fragment_text (f : fragment) (v : pyval) : string :=
  match f with
  | Plain _ => py_str v
  | Prefixed b _ => b ++ py_str v
  | Suffixed _ a => py_str v ++ a
  end.

(** The text of a fragment, when its attribute is truthy in [d]. *)
Definition render_fragment (d : list (string * pyval)) (f : fragment)
    : option string :=
  let v := get_or d (fragment_attr f) (VStr "") in
  if py_truthy v then Some (fragment_text f v) else None.

Fixpoint keep_some {A : Type} (l : list (option A)) : list A :=
  match l with
  | [] => []
  | Some a :: r => a :: keep_some r
  | None :: r => keep_some r
  end.

Definition render (token_type : string) (d : list (string * pyval)) : string :=
  String.concat ", "
    (py_str (get_or d "name" (VStr ""))
     :: keep_some (map (render_fragment d) (fragments_of token_type))).

(** An attribute that is absent or holds text. *)
Definition text_or_absent (d : list (string * pyval)) (k : string) : Prop :=
  match assoc k d with
  | None => True
  | Some (VStr _) => True
  | Some _ => False
  end.

Definition is_plain (f : fragment) : bool :=
  match f with
  | Plain _ => true
  | _ => false
  end.

(** The attributes the renderer of a token type appends as they are: the
    plain fragments, and the name for every type but [character], whose
    name goes through an f-string. *)
Definition plain_attributes (token_type : string) : list string :=
  ((if token_type =? "character" then [] else ["name"])
   ++ map fragment_attr (filter is_plain (fragments_of token_type)))%list.

(** The plainly appended attributes of the token hold text. *)
Definition text_attributes (token_type : string) (d : list (string * pyval))
    : Prop :=
  Forall (text_or_absent d) (plain_attributes token_type).

End Node.
End VaultContextNode.

(** ** The image boundary

    Tensors and PIL images belong to the host; the nodes only move them
    through these conversions. *)
Record codec (Tensor Pil : Type) : Type := {
  (** [Image.fromarray((image[0].cpu().numpy() * 255).astype(np.uint8))] *)
  to_pil : Tensor -> result Pil;
  (** [torch.from_numpy(np.array(img).astype(np.float32) / 255.0).unsqueeze(0)] *)
  of_pil : Pil -> result Tensor;
  (** the PNG file of an image *)
  png_bytes : Pil -> string;
  (** [Image.open(BytesIO(content))] *)
  open_image : string -> result Pil;
  (** [base64.b64encode(data).decode()] *)
  b64encode : string -> string
}.
Arguments to_pil {Tensor Pil} _ _.
Arguments of_pil {Tensor Pil} _ _.
Arguments png_bytes {Tensor Pil} _ _.
Arguments open_image {Tensor Pil} _ _.
Arguments b64encode {Tensor Pil} _ _.

(** ** [vault_save.py] *)

Module VaultSaveNode.
Section Node.

Context {Tensor Pil : Type} (cd : codec Tensor Pil).

Definition filename_of (token_type token_name asset_id : string) : string :=
  if negb (token_name =? "")
  then token_type ++ "_" ++ token_name ++ "_" ++ asset_id ++ ".png"
  else "output_" ++ asset_id ++ ".png".

(** [[t.strip() for t in tags.split(",") if t.strip()]] *)
Definition tag_list (tags : string) : list pyval :=
  map (fun t => VStr (str_strip t))
      (filter (fun t => negb (str_strip t =? "")) (str_split "," tags)).

Definition local_id (asset_id : string) : pyval := VStr ("local:" ++ asset_id).

Definition local_path_of (home filename : string) : string :=
  path_join home ["CinemaOS"; "outputs"; filename].

Definition upload_payload (filename img_b64 : string)
    (token_type token_name description tags : string) : pyval :=
  VDict [("filename", VStr filename);
         ("data", VStr img_b64);
         ("token_type", VStr token_type);
         ("token_name", VStr token_name);
         ("description", VStr description);
         ("tags", VList (tag_list tags))].

(** The one request of a call. *)
Definition upload_request (filename img_b64 : string)
    (token_type token_name vault_url description tags : string) : request :=
  post_request (vault_url ++ "/api/assets/upload")
    (upload_payload filename img_b64 token_type token_name description tags) []
    (Some 30).

(** The body of the [try]: the upload and the id it yields. *)
Definition upload (net : network) (filename img_b64 asset_id : string)
    (token_type token_name vault_url description tags : string) : result pyval :=
  let payload :=
    upload_payload filename img_b64 token_type token_name description tags in
  response <- requests_post net (vault_url ++ "/api/assets/upload") payload []
                (Some 30) ;;
  if (status_code response =? 200)%Z then
    res <- json response ;;
    py_get res "id" (VStr asset_id)
  else Ok (local_id asset_id).

(** [save_to_vault] on the disk [fs]; [uuid4] is [str(uuid.uuid4())] and
    [home] is [os.path.expanduser("~")].  Yields the disk after the call
    and what the call returns. *)
Definition save_to_vault (net : network) (uuid4 home : string) (fs : filesystem)
    (image : Tensor) (token_type token_name vault_url description tags : string)
    : filesystem * result (pyval * Tensor) :=
  match to_pil cd image with
  | Raise e => (fs, Raise e)
  | Ok pil_image =>
      let asset_id := substring 0 8 uuid4 in
      let filename := filename_of token_type token_name asset_id in
      let img_b64 := b64encode cd (png_bytes cd pil_image) in
      match upload net filename img_b64 asset_id token_type token_name
              vault_url description tags with
      | Ok saved_id => (fs, Ok (saved_id, image))
      | Raise e =>
          if is_request_exception e then
            let saved_id := local_id asset_id in
            let local_path := local_path_of home filename in
            match makedirs (dirname local_path) fs with
            | (fs1, Raise e1) => (fs1, Raise e1)
            | (fs1, Ok _) =>
                match write_file local_path (png_bytes cd pil_image) fs1 with
                | Raise e2 => (fs1, Raise e2)
                | Ok fs2 => (fs2, Ok (saved_id, image))
                end
            end
          else (fs, Raise e)
      end
  end.

End Node.
End VaultSaveNode.

(** ** [fal_provider.py] *)

Module FalProviderNode.

Record self : Type := { api_key : string; base_url : string }.

Definition __init__ (environ : list (string * string)) : self :=
  {| api_key := get_or environ "FAL_API_KEY" ""; base_url := "https://fal.run" |}.

Definition model_endpoints : list (string * string) :=
  [("flux-2-pro", "fal-ai/flux-2/pro");
   ("flux-1.1-pro", "fal-ai/flux-pro/v1.1");
   ("flux-schnell", "fal-ai/flux/schnell");
   ("kling-v2.5-turbo", "fal-ai/kling-video/v2.5/turbo/image-to-video");
   ("seedream-4.5", "fal-ai/seedream/v4.5")].

Definition endpoint_of (model : string) : string :=
  get_or model_endpoints model "fal-ai/flux/schnell".

Definition base_costs : list (string * float) :=
  [("flux-2-pro", of_decimal false 5 (-2));
   ("flux-1.1-pro", of_decimal false 4 (-2));
   ("flux-schnell", of_decimal false 3 (-3));
   ("kling-v2.5-turbo", of_decimal false 8 (-2));
   ("seedream-4.5", of_decimal false 2 (-2))].

Definition base_cost_of (model : string) : float :=
  get_or base_costs model (of_decimal false 1 (-2)).

Definition _estimate_credits (model : string) (width height : Z) : result float :=
  let base := base_cost_of model in
  let pixels := (width * height)%Z in
  scale <- int_truediv pixels (1024 * 1024) ;;
  Ok (fmul base scale).

Section Node.

Context {Tensor Pil : Type} (cd : codec Tensor Pil).

Definition payload_of (prompt : string) (width height : Z) (negative_prompt : string)
    (seed num_steps : Z) (guidance_scale : float) (image_url : option string)
    : pyval :=
  VDict ([("prompt", VStr prompt);
          ("image_size", VDict [("width", VInt width); ("height", VInt height)]);
          ("num_inference_steps", VInt num_steps);
          ("guidance_scale", VFloat guidance_scale)]
         ++ (if negb (negative_prompt =? "")
             then [("negative_prompt", VStr negative_prompt)] else [])
         ++ (if (0 <=? seed)%Z then [("seed", VInt seed)] else [])
         ++ match image_url with
            | Some u => [("image_url", VStr u)]
            | None => []
            end)%list.

(** The image of the response, fetched and decoded; [None] when the
    response names none. *)
Definition image_of_result (net : network) (res : pyval)
    : result (option Tensor) :=
  has <- py_in "images" res ;;
  if has then
    images <- py_item res "images" ;;
    n <- py_len images ;;
    if (0 <? n)%Z then
      first <- py_first images ;;
      img_url <- py_get first "url" (VStr "") ;;
      if py_truthy img_url then
        img_response <-
          match img_url with
          | VStr u => requests_get net u None
          | _ => Raise RequestException
          end ;;
        img <- open_image cd (content img_response) ;;
        img_tensor <- of_pil cd img ;;
        Ok (Some img_tensor)
      else Ok None
    else Ok None
  else Ok None.

(** The part of [generate] from the request on, for a resolved
    endpoint. *)
Definition request_image (net : network) (s : self) (endpoint : string)
    (prompt model : string) (width height : Z) (negative_prompt : string)
    (seed num_steps : Z) (guidance_scale : float) (input_image : option Tensor)
    : result (Tensor * string) :=
  let url := base_url s ++ "/" ++ endpoint in
  image_url <-
    match input_image with
    | Some t =>
        img <- to_pil cd t ;;
        Ok (Some ("data:image/png;base64," ++ b64encode cd (png_bytes cd img)))
    | None => Ok None
    end ;;
  let payload :=
    payload_of prompt width height negative_prompt seed num_steps guidance_scale
      image_url in
  let headers :=
    [("Authorization", "Key " ++ api_key s); ("Content-Type", "application/json")] in
  response <- requests_post net url payload headers None ;;
  _ <- raise_for_status response ;;
  res <- json response ;;
  found <- image_of_result net res ;;
  match found with
  | Some img_tensor =>
      credits <- _estimate_credits model width height ;;
      Ok (img_tensor, format_4f credits)
  | None => Raise (ValueError "No image returned from Fal.ai")
  end.

Definition generate (net : network) (s : self) (prompt model : string)
    (width height : Z) (negative_prompt : string) (seed num_steps : Z)
    (guidance_scale : float) (input_image : option Tensor)
    : result (Tensor * string) :=
  if (api_key s =? "") then
    Raise (ValueError "FAL_API_KEY environment variable not set")
  else
    request_image net s (endpoint_of model) prompt model width height
      negative_prompt seed num_steps guidance_scale input_image.

End Node.
End FalProviderNode.

(** ** [vertex_provider.py] *)

Module VertexProviderNode.

Record self : Type := { project_id : string; location : string }.

Definition __init__ (environ : list (string * string)) : self :=
  {| project_id := get_or environ "GOOGLE_CLOUD_PROJECT" "";
     location := get_or environ "GOOGLE_CLOUD_LOCATION" "us-central1" |}.

Definition costs : list (string * float) :=
  [("imagen-4", of_decimal false 4 (-2));
   ("imagen-4-fast", of_decimal false 2 (-2));
   ("veo-3.1", of_decimal false 50 (-2))].

Definition _estimate_credits (model : string) (width height : Z) : float :=
  get_or costs model (of_decimal false 2 (-2)).

Definition _get_aspect_ratio (width height : Z) : result string :=
  ratio <- int_truediv width height ;;
  if fgt ratio (of_decimal false 16 (-1)) then Ok "16:9"
  else if flt ratio (of_decimal false 6 (-1)) then Ok "9:16"
  else if fgt ratio (of_decimal false 12 (-1)) then Ok "4:3"
  else if flt ratio (of_decimal false 8 (-1)) then Ok "3:4"
  else Ok "1:1".

Section Node.

Context {Tensor Pil : Type} (cd : codec Tensor Pil).

(** One call on the Imagen model of the SDK: [edit_image] when a base
    image is given, [generate_images] otherwise. *)
Record imagen_call : Type := {
  ic_model : string;
  ic_prompt : string;
  ic_number_of_images : Z;
  ic_aspect_ratio : string;
  ic_negative_prompt : option string;
  ic_seed : option Z;
  ic_base_image : option Pil
}.

(** The SDK, each entry yielding its result or what it raises:
    [aiplatform.init(project=..., location=...)],
    [ImageGenerationModel.from_pretrained(model)] and the call on the
    loaded model, which yields the images of the response. *)
Record imagen_sdk : Type := {
  sdk_init : string -> string -> result unit;
  from_pretrained : string -> result unit;
  run_model : imagen_call -> result (list Pil)
}.

Definition _generate_imagen (sdk : imagen_sdk) (prompt model : string)
    (width height : Z) (negative_prompt : string) (seed num_images : Z)
    (input_image : option Tensor) : result (Tensor * string) :=
  _ <- from_pretrained sdk model ;;
  aspect <- _get_aspect_ratio width height ;;
  base_image <-
    match input_image with
    | Some t => img <- to_pil cd t ;; Ok (Some img)
    | None => Ok None
    end ;;
  images <- run_model sdk
              {| ic_model := model;
                 ic_prompt := prompt;
                 ic_number_of_images := num_images;
                 ic_aspect_ratio := aspect;
                 ic_negative_prompt :=
                   if negb (negative_prompt =? "") then Some negative_prompt
                   else None;
                 ic_seed := if (0 <=? seed)%Z then Some seed else None;
                 ic_base_image := base_image |} ;;
  match images with
  | img :: _ =>
      img_tensor <- of_pil cd img ;;
      let credits := _estimate_credits model width height in
      Ok (img_tensor, format_4f credits)
  | [] => Raise (ValueError "No image returned from Vertex AI")
  end.

Definition _generate_veo (prompt model : string) (width height seed : Z)
    (input_image : option Tensor) : result (Tensor * string) :=
  Raise (NotImplementedError "Veo video generation requires video output handling").

(** [has_google_cloud] is the module flag [HAS_GOOGLE_CLOUD]. *)
Definition generate (has_google_cloud : bool) (sdk : imagen_sdk) (s : self)
    (prompt model : string) (width height : Z) (negative_prompt : string)
    (seed num_images : Z) (input_image : option Tensor)
    : result (Tensor * string) :=
  if negb has_google_cloud then
    Raise (ImportError "google-cloud-aiplatform package not installed")
  else if (project_id s =? "") then
    Raise (ValueError "GOOGLE_CLOUD_PROJECT environment variable not set")
  else
    _ <- sdk_init sdk (project_id s) (location s) ;;
    if prefix "imagen" model then
      _generate_imagen sdk prompt model width height negative_prompt seed
        num_images input_image
    else if prefix "veo" model then
      _generate_veo prompt model width height seed input_image
    else Raise (ValueError ("Unknown model: " ++ model)).

End Node.
End VertexProviderNode.

(** ** Values for worked examples *)

(** A codec whose images are the text of their file. *)
Definition text_codec : codec string string :=
  {| to_pil := fun t => Ok t;
     of_pil := fun p => Ok p;
     png_bytes := fun p => p;
     open_image := fun c => Ok c;
     b64encode := fun b => b |}.

(** A Vertex SDK that returns one image for every call. *)
Definition vertex_service : VertexProviderNode.imagen_sdk (Pil := string) :=
  {| VertexProviderNode.sdk_init := fun _ _ => Ok tt;
     VertexProviderNode.from_pretrained := fun _ => Ok tt;
     VertexProviderNode.run_model := fun _ => Ok ["PNG"] |}.

(** A disk that holds nothing, takes every directory and every file, and
    on which every path names itself. *)
Definition empty_disk : filesystem :=
  {| fs_dirs := []; fs_files := [];
     fs_resolve := fun p => p;
     fs_mkdir := fun _ => None;
     fs_open := fun _ => None |}.

(** A Vault that answers every request with the given status and no
    body. *)
Definition answering (status : Z) : network :=
  fun _ => Answer {| status_code := status; content := ""; json_body := None |}.

(** A Fal.ai that answers a POST with one image URL and a GET with the
    image file. *)
Definition fal_service : network :=
  fun rq =>
    if req_method rq =? "POST" then
      Answer {| status_code := 200; content := "";
                json_body :=
                  Some (VDict [("images",
                                VList [VDict [("url", VStr "https://fal.media/a.png")]])])
             |}
    else Answer {| status_code := 200; content := "PNG"; json_body := None |}.

(** ** Reference definitions

    The estimate as the design states it, and the notions the proofs about
    rounding are phrased with. *)

(** A base cost scaled by the pixel count over the reference resolution. *)
Definition scaled_estimate (base : float) (width height : Z) : result float :=
  scale <- int_truediv (width * height) (1024 * 1024) ;;
  Ok (fmul base scale).

(** The disk [fs'] is the disk [fs] with, possibly, more directories: the
    files and what paths name are the same. *)
Definition more_dirs (fs fs' : filesystem) : Prop :=
  fs_files fs' = fs_files fs
  /\ fs_resolve fs' = fs_resolve fs
  /\ fs_mkdir fs' = fs_mkdir fs
  /\ fs_open fs' = fs_open fs
  /\ forall p, is_dir fs p = true -> is_dir fs' p = true.

(** The charge a text stands for: [0.0] when it is not a number. *)
Definition parsed_charge (credits_used : string) : float :=
  match of_string credits_used with
  | Some x => x
  | None => pos_zero
  end.

(** The record [shr] reaches after [k] shifts of an exact mantissa: the
    quotient, the last bit shifted out and whether a lower bit was set. *)
Definition shifted (p k : Z) : shr_record :=
  {| shr_m := (p / 2 ^ k)%Z;
     shr_r := Z.testbit p (k - 1);
     shr_s := negb (p mod 2 ^ (k - 1) =? 0)%Z |}.

(** The float of sign [s] for a rounded mantissa [m <= 2^prec] at the
    canonical exponent [c]. *)
Definition round_out (prec emax : Z) (s : bool) (m c : Z) : spec_float :=
  (if m =? 0 then S754_zero s
   else if m <? 2 ^ prec then
     if c <=? emax - prec then S754_finite s (Z.to_pos m) c else S754_infinity s
   else
     if c + 1 <=? emax - prec then S754_finite s (Z.to_pos (m / 2)) (c + 1)
     else S754_infinity s)%Z.

(** A float of sign [s] whose exponent, when finite, is at least the
    minimal one. *)
Definition signed_in_range (prec emax : Z) (s : bool) (x : spec_float) : Prop :=
  match x with
  | S754_zero s' => s' = s
  | S754_infinity s' => s' = s
  | S754_finite s' _ e => s' = s /\ (SpecFloat.emin prec emax <= e)%Z
  | S754_nan => False
  end.

(** The value order on two positive mantissa and exponent pairs. *)
Definition dyadic_le (m1 e1 m2 e2 : Z) : Prop :=
  (m1 * 2 ^ (e1 - Z.min e1 e2) <= m2 * 2 ^ (e2 - Z.min e1 e2))%Z.

(** The float of [p / 2^20] for [0 < p < 2^53]: [p] shifted to 53 digits. *)
Definition ratio_of (p : Z) : float :=
  S754_finite false (Z.to_pos (p * 2 ^ (53 - Zdigits2 p))) (Zdigits2 p - 73).

(** The shift that gives a pixel count 74 binary digits at least, so that
    its quotient by [2^20] has 54. *)
Definition ratio_shift (p : Z) : Z := Z.max 0 (74 - Zdigits2 p).

(** Finite values have an exponent of binary64. *)
Definition in_range (x : float) : Prop :=
  match x with
  | S754_finite _ _ e => (-1074 <= e)%Z
  | _ => True
  end.

(** ** Further values for worked examples *)

(** A 200 answer with the JSON body [v], and a remote side that gives it
    to every request. *)
Definition json_answer (v : pyval) : response :=
  {| status_code := 200; content := ""; json_body := Some v |}.

Definition answering_json (v : pyval) : network := fun _ => Answer (json_answer v).

(** The character token of Ana, with a style and two visuals. *)
Definition ana_token : list (string * pyval) :=
  [("name", VStr "Ana"); ("age", VInt 30); ("style_prompt", VStr "film noir");
   ("visuals",
    VList [VDict [("path", VStr "/vault/ana.png")];
           VDict [("path", VStr "/vault/ana2.png")]])].

(** A disk that holds nothing and refuses every directory and every
    file. *)
Definition full_disk : filesystem :=
  {| fs_dirs := []; fs_files := [];
     fs_resolve := fun p => p;
     fs_mkdir := fun _ => Some OSError;
     fs_open := fun _ => Some OSError |}.

(** A disk that holds the notes of Ana, takes every directory, and opens
    a file unless its name is longer than 255 characters. *)
Definition ana_disk : filesystem :=
  {| fs_dirs := ["/home/ana"];
     fs_files := [("/home/ana/notes.txt", "scene 1")];
     fs_resolve := fun p => p;
     fs_mkdir := fun _ => None;
     fs_open :=
       fun p => if (255 <? String.length (basename p))%nat then Some OSError
                else None |}.

(** A token name of 300 characters. *)
Definition long_name : string := String.concat "" (repeat "scene" 60).

(** A Fal.ai that answers a POST with status 201 and one image URL, and
    the GET of the image with status 404 and a body. *)
Definition fal_image : list (string * pyval) :=
  [("url", VStr "https://fal.media/a.png")].

Definition fal_created : response :=
  {| status_code := 201; content := "";
     json_body := Some (VDict [("images", VList [VDict fal_image])]) |}.

Definition fal_gone : response :=
  {| status_code := 404; content := "PNG"; json_body := None |}.

Definition fal_stale_service : network :=
  fun rq => if req_method rq =? "POST" then Answer fal_created else Answer fal_gone.

(** A Vertex SDK that returns four images for every call. *)
Definition vertex_batch : VertexProviderNode.imagen_sdk (Pil := string) :=
  {| VertexProviderNode.sdk_init := fun _ _ => Ok tt;
     VertexProviderNode.from_pretrained := fun _ => Ok tt;
     VertexProviderNode.run_model :=
       fun _ => Ok ["PNG 1"; "PNG 2"; "PNG 3"; "PNG 4"] |}.

(** ** Further reference definitions

    The notions the statements about the rest of the nodes are phrased
    with: the one request or SDK call of an adapter, shapes of the JSON
    bodies, and the text of a float printed with four decimals. *)

(** A call of [track_credits], as opposed to a reset. *)
Definition is_track (c : CreditTrackerNode.call) : bool :=
  match c with
  | CreditTrackerNode.Track _ _ _ _ _ _ _ => true
  | CreditTrackerNode.Reset => false
  end.

Definition is_dict (v : pyval) : bool :=
  match v with
  | VDict _ => true
  | _ => false
  end.

Definition is_text (v : pyval) : bool :=
  match v with
  | VStr _ => true
  | _ => false
  end.

(** The visuals of a token are absent, falsy, or a list whose first entry
    is a dict. *)
Definition listed_visuals (d : list (string * pyval)) : Prop :=
  match assoc "visuals" d with
  | None => True
  | Some (VList (VDict _ :: _)) => True
  | Some v => py_truthy v = false
  end.

(** The path of the first visual of a token, the empty text without
    one. *)
Definition first_visual_path (d : list (string * pyval)) : pyval :=
  match assoc "visuals" d with
  | Some (VList (VDict v :: _)) => get_or v "path" (VStr "")
  | _ => VStr ""
  end.

(** No character of the text is [c]. *)
Fixpoint free_of (c : ascii) (s : string) : bool :=
  match s with
  | EmptyString => true
  | String a r => negb (Ascii.eqb a c) && free_of c r
  end.

(** Every character of the text satisfies [p]. *)
Fixpoint every (p : ascii -> bool) (s : string) : bool :=
  match s with
  | EmptyString => true
  | String c r => p c && every p r
  end.

(** The directory the local copies of [save_to_vault] go to. *)
Definition outputs_dir (home : string) : string :=
  path_join home ["CinemaOS"; "outputs"].

(** The data URL of the input image of Fal's [generate], [None] without
    one. *)
Definition data_url {Tensor Pil : Type} (cd : codec Tensor Pil)
    (input_image : option Tensor) : result (option string) :=
  match input_image with
  | Some t =>
      img <- to_pil cd t ;;
      Ok (Some ("data:image/png;base64," ++ b64encode cd (png_bytes cd img)))
  | None => Ok None
  end.

(** The one POST of a call of Fal's [generate]. *)
Definition fal_request (s : FalProviderNode.self) (prompt model : string)
    (width height : Z) (negative_prompt : string) (seed num_steps : Z)
    (guidance_scale : float) (image_url : option string) : request :=
  post_request
    (FalProviderNode.base_url s ++ "/" ++ FalProviderNode.endpoint_of model)
    (FalProviderNode.payload_of prompt width height negative_prompt seed num_steps
       guidance_scale image_url)
    [("Authorization", "Key " ++ FalProviderNode.api_key s);
     ("Content-Type", "application/json")]
    None.

(** A Fal result that holds no image: no list, an empty one, or a first
    entry without a URL. *)
Definition no_image (d : list (string * pyval)) : Prop :=
  match assoc "images" d with
  | None => True
  | Some (VList []) => True
  | Some (VList (VDict i :: _)) => py_truthy (get_or i "url" (VStr "")) = false
  | Some _ => False
  end.

(** The aspect ratios the Imagen call is given. *)
Definition aspect_ratios : list string := ["16:9"; "9:16"; "4:3"; "3:4"; "1:1"].

(** The label of the fraction [width / height] compared exactly, as a
    fraction of integers, with 1.6, 0.6, 1.2 and 0.8 in the order of
    [_get_aspect_ratio]. *)
Definition exact_aspect_ratio (width height : Z) : string :=
  if (16 * height <? 10 * width)%Z then "16:9"
  else if (10 * width <? 6 * height)%Z then "9:16"
  else if (12 * height <? 10 * width)%Z then "4:3"
  else if (10 * width <? 8 * height)%Z then "3:4"
  else "1:1".

(** The position of the remainder [r] of a division by [h] among the
    quarters of [h]: 0 for no remainder, 1 below the half, 2 at the half
    and 3 above it. *)
Definition half_code (h r : Z) : Z :=
  if (r =? 0)%Z then 0%Z
  else match (2 * r ?= h)%Z with
       | Lt => 1%Z
       | Eq => 2%Z
       | Gt => 3%Z
       end.

(** The base image of the Imagen call, [None] without an input image. *)
Definition base_image_of {Tensor Pil : Type} (cd : codec Tensor Pil)
    (input_image : option Tensor) : result (option Pil) :=
  match input_image with
  | Some t => img <- to_pil cd t ;; Ok (Some img)
  | None => Ok None
  end.

(** The call of Vertex's [generate] on the loaded Imagen model. *)
Definition vertex_call {Pil : Type} (prompt model : string)
    (negative_prompt : string) (seed num_images : Z) (aspect : string)
    (base_image : option Pil) : VertexProviderNode.imagen_call :=
  {| VertexProviderNode.ic_model := model;
     VertexProviderNode.ic_prompt := prompt;
     VertexProviderNode.ic_number_of_images := num_images;
     VertexProviderNode.ic_aspect_ratio := aspect;
     VertexProviderNode.ic_negative_prompt :=
       if negb (negative_prompt =? "") then Some negative_prompt else None;
     VertexProviderNode.ic_seed := if (0 <=? seed)%Z then Some seed else None;
     VertexProviderNode.ic_base_image := base_image |}.

(** The number a run of digits denotes after [acc]. *)
Fixpoint digits_val (acc : Z) (s : string) : Z :=
  match s with
  | EmptyString => acc
  | String c r => digits_val (10 * acc + digit_val c) r
  end.

(** The number a decimal numeral denotes after [acc]. *)
Fixpoint uint_val (acc : Z) (d : Decimal.uint) : Z :=
  match d with
  | Decimal.Nil => acc
  | Decimal.D0 d => uint_val (10 * acc) d
  | Decimal.D1 d => uint_val (10 * acc + 1) d
  | Decimal.D2 d => uint_val (10 * acc + 2) d
  | Decimal.D3 d => uint_val (10 * acc + 3) d
  | Decimal.D4 d => uint_val (10 * acc + 4) d
  | Decimal.D5 d => uint_val (10 * acc + 5) d
  | Decimal.D6 d => uint_val (10 * acc + 6) d
  | Decimal.D7 d => uint_val (10 * acc + 7) d
  | Decimal.D8 d => uint_val (10 * acc + 8) d
  | Decimal.D9 d => uint_val (10 * acc + 9) d
  end.

(** The four decimals [f"{x:.4f}"] prints for the fraction [r / 10^4]. *)
Definition decimals_4 (r : Z) : string :=
  drop_first (string_of_nonneg (10000 + r)).

(** The four decimals of [r] are four digits, and read as [r]. *)
Definition decimals_ok (r : Z) : bool :=
  every is_digit (decimals_4 r)
  && (Z.of_nat (String.length (decimals_4 r)) =? 4)%Z
  && (digits_val 0 (decimals_4 r) =? r)%Z.

(** What [float] reads from the text [f"{x:.4f}"]: [x] rounded to four
    decimals, and [x] itself when it is a zero, an infinity or a NaN. *)
Definition reparsed (x : float) : float :=
  match x with
  | S754_finite s m e => of_decimal s (scaled_4 m e) (-4)
  | _ => x
  end.

(** * Facts about rounding *)

Module FloatFacts.

Local Open Scope Z_scope.

(** ** Binary digits *)

Lemma pow2_pos (k : Z) : 0 <= k -> 0 < 2 ^ k.
Proof. intros; apply Z.pow_pos_nonneg; lia. Qed.

Lemma pow2_split (a b : Z) : 0 <= a -> 0 <= b -> 2 ^ (a + b) = 2 ^ a * 2 ^ b.
Proof. intros; apply Z.pow_add_r; assumption. Qed.

Lemma pow2_pred (k : Z) : 0 < k -> 2 ^ k = 2 ^ (k - 1) * 2.
Proof.
  intros Hk. replace k with (Z.succ (k - 1)) at 1 by lia.
  rewrite Z.pow_succ_r by lia. apply Z.mul_comm.
Qed.

Lemma digits2_pos_bounds (m : positive) :
  2 ^ (Zpos (digits2_pos m) - 1) <= Zpos m < 2 ^ Zpos (digits2_pos m).
Proof.
  induction m as [m IH | m IH | ]; cbn [digits2_pos].
  - rewrite Pos2Z.inj_succ. change (Zpos m~1) with (2 * Zpos m + 1).
    replace (Z.succ (Zpos (digits2_pos m)) - 1) with (Z.succ (Zpos (digits2_pos m) - 1)) by lia.
    rewrite !Z.pow_succ_r by lia.
    destruct IH as [IH1 IH2]; revert IH1 IH2.
    generalize (2 ^ (Zpos (digits2_pos m) - 1)) (2 ^ Zpos (digits2_pos m)). lia.
  - rewrite Pos2Z.inj_succ. change (Zpos m~0) with (2 * Zpos m).
    replace (Z.succ (Zpos (digits2_pos m)) - 1) with (Z.succ (Zpos (digits2_pos m) - 1)) by lia.
    rewrite !Z.pow_succ_r by lia.
    destruct IH as [IH1 IH2]; revert IH1 IH2.
    generalize (2 ^ (Zpos (digits2_pos m) - 1)) (2 ^ Zpos (digits2_pos m)). lia.
  - split; [discriminate | reflexivity].
Qed.

Lemma Zdigits2_bounds (z : Z) :
  0 < z -> 2 ^ (Zdigits2 z - 1) <= z < 2 ^ Zdigits2 z.
Proof.
  destruct z as [ | p | p]; try lia. intros _. apply digits2_pos_bounds.
Qed.

Lemma Zdigits2_pos (z : Z) : 0 < z -> 0 < Zdigits2 z.
Proof. destruct z; cbn; lia. Qed.

Lemma Zdigits2_unique (z k : Z) :
  2 ^ (k - 1) <= z < 2 ^ k -> 0 < z -> Zdigits2 z = k.
Proof.
  intros [Hlo Hhi] Hz.
  pose proof (Zdigits2_bounds z Hz) as [Dlo Dhi].
  pose proof (Zdigits2_pos z Hz) as Dpos.
  assert (0 < k).
  { destruct (Z.lt_ge_cases 0 k) as [ | Hk]; [assumption | ].
    destruct (Z.eq_dec k 0) as [-> | ]; [cbn in Hhi; lia | ].
    rewrite (Z.pow_neg_r 2 k) in Hhi by lia. lia. }
  assert (Zdigits2 z - 1 < k).
  { apply (Z.pow_lt_mono_r_iff 2); lia. }
  assert (k - 1 < Zdigits2 z).
  { apply (Z.pow_lt_mono_r_iff 2); lia. }
  lia.
Qed.

Lemma Zdigits2_shift (z k : Z) :
  0 < z -> 0 <= k -> Zdigits2 (z * 2 ^ k) = Zdigits2 z + k.
Proof.
  intros Hz Hk.
  pose proof (Zdigits2_bounds z Hz) as [Dlo Dhi].
  pose proof (Zdigits2_pos z Hz) as Dpos.
  pose proof (pow2_pos k Hk) as Pk.
  apply Zdigits2_unique; [ | nia].
  replace (Zdigits2 z + k - 1) with ((Zdigits2 z - 1) + k) by lia.
  rewrite !pow2_split by lia. nia.
Qed.

(** The magnitude [digits + exponent] grows with the value. *)
Lemma mag_mono (p1 f1 p2 f2 f0 : Z) :
  0 < p1 -> 0 < p2 -> f0 <= f1 -> f0 <= f2 ->
  p1 * 2 ^ (f1 - f0) <= p2 * 2 ^ (f2 - f0) ->
  Zdigits2 p1 + f1 <= Zdigits2 p2 + f2.
Proof.
  intros H1 H2 L1 L2 Hle.
  pose proof (Zdigits2_bounds p1 H1) as [D1 _].
  pose proof (Zdigits2_bounds p2 H2) as [_ D2].
  pose proof (Zdigits2_pos p1 H1). pose proof (Zdigits2_pos p2 H2).
  assert (2 ^ (Zdigits2 p1 - 1 + (f1 - f0)) < 2 ^ (Zdigits2 p2 + (f2 - f0))) as Hp.
  { rewrite !pow2_split by lia.
    pose proof (pow2_pos (f1 - f0)). pose proof (pow2_pos (f2 - f0)). nia. }
  apply Z.pow_lt_mono_r_iff in Hp; lia.
Qed.

(** ** Shifting a mantissa right *)

Lemma iter_pos_nat {A : Type} (f : A -> A) (p : positive) (x : A) :
  iter_pos f p x = Nat.iter (Pos.to_nat p) f x.
Proof.
  revert x; induction p as [p IH | p IH | ]; intros x; cbn [iter_pos].
  - rewrite !IH, Pos2Nat.inj_xI.
    replace (S (2 * Pos.to_nat p)) with (Pos.to_nat p + S (Pos.to_nat p))%nat by lia.
    rewrite Nat.iter_add, Nat.iter_succ_r. reflexivity.
  - rewrite !IH, Pos2Nat.inj_xO.
    replace (2 * Pos.to_nat p)%nat with (Pos.to_nat p + Pos.to_nat p)%nat by lia.
    rewrite Nat.iter_add. reflexivity.
  - reflexivity.
Qed.

Lemma shr_1_nonneg (m : Z) (r s : bool) :
  0 <= m ->
  shr_1 {| shr_m := m; shr_r := r; shr_s := s |}
  = {| shr_m := Z.div2 m; shr_r := Z.odd m; shr_s := r || s |}.
Proof.
  intros Hm. destruct m as [ | [q | q | ] | q]; try reflexivity. lia.
Qed.

Lemma shr_1_first (p : Z) :
  0 <= p -> shr_1 {| shr_m := p; shr_r := false; shr_s := false |} = shifted p 1.
Proof.
  intros Hp. rewrite shr_1_nonneg by assumption. unfold shifted.
  rewrite Z.div2_div, Z.bit0_odd. f_equal.
  change (2 ^ (1 - 1)) with 1. rewrite Z.mod_1_r. reflexivity.
Qed.

Lemma shr_1_shifted (p k : Z) :
  0 <= p -> 0 < k -> shr_1 (shifted p k) = shifted p (k + 1).
Proof.
  intros Hp Hk. unfold shifted.
  pose proof (pow2_pos k ltac:(lia)) as Pk.
  pose proof (pow2_pos (k - 1) ltac:(lia)) as Pk1.
  rewrite shr_1_nonneg by (apply Z.div_pos; lia).
  replace (k + 1 - 1) with k by lia.
  f_equal.
  - rewrite Z.div2_div, Z.div_div by lia.
    rewrite (Z.pow_add_r 2 k 1) by lia. reflexivity.
  - rewrite Z.testbit_odd, Z.shiftr_div_pow2 by lia. reflexivity.
  - rewrite Z.testbit_odd, Z.shiftr_div_pow2 by lia.
    rewrite (pow2_pred k) by lia.
    rewrite Z.rem_mul_r, Zmod_odd by lia.
    pose proof (Z.mod_pos_bound p (2 ^ (k - 1)) ltac:(lia)).
    destruct (Z.odd (p / 2 ^ (k - 1)));
      destruct (Z.eqb_spec (p mod 2 ^ (k - 1)) 0) as [E0 | E0];
      match goal with |- context [?x =? 0] => destruct (Z.eqb_spec x 0) end;
      try reflexivity; nia.
Qed.

Lemma shr_iter (p : Z) (k : nat) :
  0 <= p ->
  Nat.iter (S k) shr_1 {| shr_m := p; shr_r := false; shr_s := false |}
  = shifted p (Z.of_nat (S k)).
Proof.
  intros Hp. induction k as [ | k IH].
  - cbn [Nat.iter nat_rect]. apply shr_1_first; assumption.
  - change (Nat.iter (S (S k)) shr_1 ?x) with (shr_1 (Nat.iter (S k) shr_1 x)).
    rewrite IH, shr_1_shifted by lia. f_equal. lia.
Qed.

Lemma shr_exact (p e n : Z) :
  0 <= p -> 0 < n ->
  shr {| shr_m := p; shr_r := false; shr_s := false |} e n = (shifted p n, e + n).
Proof.
  intros Hp Hn. destruct n as [ | q | q]; try lia.
  unfold shr. rewrite iter_pos_nat.
  destruct (Pos2Nat.is_succ q) as [k Hk]. rewrite Hk, shr_iter by assumption.
  rewrite <- Hk, positive_nat_Z. reflexivity.
Qed.

(** Rounding the shifted mantissa to nearest even. *)
Lemma round_shifted (p n : Z) :
  0 <= p -> 0 < n ->
  round_nearest_even (shr_m (shifted p n)) (loc_of_shr_record (shifted p n))
  = rne_shift p n.
Proof.
  intros Hp Hn. unfold rne_shift, shifted. cbn [shr_m].
  destruct (Z.leb_spec n 0) as [ | _]; [lia | ].
  pose proof (pow2_pos (n - 1) ltac:(lia)) as Ph.
  assert (2 ^ n = 2 ^ (n - 1) * 2) as E2.
  { apply pow2_pred; lia. }
  assert (p mod 2 ^ n
          = p mod 2 ^ (n - 1) + 2 ^ (n - 1) * ((p / 2 ^ (n - 1)) mod 2)) as Er.
  { rewrite E2 at 1. apply Z.rem_mul_r; lia. }
  rewrite Zmod_odd in Er.
  rewrite Z.testbit_odd, Z.shiftr_div_pow2 by lia.
  pose proof (Z.mod_pos_bound p (2 ^ (n - 1)) ltac:(lia)).
  destruct (Z.odd (p / 2 ^ (n - 1)));
    destruct (Z.eqb_spec (p mod 2 ^ (n - 1)) 0) as [E0 | E0];
    cbn [negb loc_of_shr_record round_nearest_even];
    destruct (Z.ltb_spec (p mod 2 ^ n) (2 ^ (n - 1)));
    destruct (Z.ltb_spec (2 ^ (n - 1)) (p mod 2 ^ n)); try reflexivity; nia.
Qed.

(** ** Rounding an exact mantissa and exponent *)

Section Rounding.

Variables prec emax : Z.
Hypothesis Hprec : 0 < prec.

Local Notation "'emin'" := (SpecFloat.emin prec emax).
Local Notation "'fexp'" := (SpecFloat.fexp prec emax).

Lemma fexp_ge_emin (e : Z) : emin <= fexp e.
Proof. unfold SpecFloat.fexp. lia. Qed.

Lemma fexp_mono (a b : Z) : a <= b -> fexp a <= fexp b.
Proof. unfold SpecFloat.fexp. lia. Qed.

Lemma rne_shift_bounds (p n : Z) :
  0 <= p -> 0 <= n -> p / 2 ^ n <= rne_shift p n <= p / 2 ^ n + 1.
Proof.
  intros Hp Hn. unfold rne_shift.
  destruct (Z.leb_spec n 0).
  - replace n with 0 by lia. rewrite Z.div_1_r. lia.
  - destruct (_ <? _); [lia | ]. destruct (_ <? _); [lia | ].
    destruct (Z.even _); lia.
Qed.

Lemma rne_shift_upper (p n : Z) :
  0 < p -> 0 <= n -> Zdigits2 p - prec <= n -> rne_shift p n <= 2 ^ prec.
Proof.
  intros Hp Hn Hd.
  pose proof (rne_shift_bounds p n ltac:(lia) Hn) as [_ Hu].
  pose proof (Zdigits2_bounds p Hp) as [_ Dhi].
  pose proof (Zdigits2_pos p Hp).
  assert (p / 2 ^ n < 2 ^ prec); [ | lia].
  apply Z.div_lt_upper_bound; [apply pow2_pos; lia | ].
  rewrite <- pow2_split by lia.
  apply Z.lt_le_trans with (1 := Dhi). apply Z.pow_le_mono_r; lia.
Qed.

Lemma shr_fexp_exact (p f : Z) :
  0 < p -> 0 <= fexp (Zdigits2 p + f) - f ->
  exists mrs,
    shr_fexp prec emax p f loc_Exact = (mrs, fexp (Zdigits2 p + f))
    /\ round_nearest_even (shr_m mrs) (loc_of_shr_record mrs)
       = rne_shift p (fexp (Zdigits2 p + f) - f).
Proof.
  intros Hp Hn. unfold shr_fexp. cbn [shr_record_of_loc].
  set (c := fexp (Zdigits2 p + f)) in *.
  destruct (Z.eq_dec (c - f) 0) as [E | E].
  - rewrite E. cbn [shr]. eexists; split.
    + f_equal. lia.
    + reflexivity.
  - rewrite shr_exact by lia. eexists; split.
    + f_equal. lia.
    + apply round_shifted; lia.
Qed.

Lemma shr_fexp_rounded (s : bool) (m c : Z) :
  0 <= m <= 2 ^ prec -> emin <= c ->
  (let '(mrs, e) := shr_fexp prec emax m c loc_Exact in
   match shr_m mrs with
   | Z0 => S754_zero s
   | Zpos q => if e <=? emax - prec then S754_finite s q e else S754_infinity s
   | Zneg _ => S754_nan
   end) = round_out prec emax s m c.
Proof.
  intros [Hm0 Hm1] Hc. unfold shr_fexp, round_out. cbn [shr_record_of_loc].
  pose proof (pow2_pos prec ltac:(lia)) as Pp.
  destruct (Z.eqb_spec m 0) as [-> | Hnz].
  - cbn [Zdigits2 Z.add].
    assert (fexp c - c <= 0) as Hle by (unfold SpecFloat.fexp; lia).
    destruct (fexp c - c) as [ | q | q]; try lia; reflexivity.
  - assert (0 < m) as Hpos by lia.
    pose proof (Zdigits2_bounds m Hpos) as [Dlo Dhi].
    pose proof (Zdigits2_pos m Hpos) as Dpos.
    destruct (Z.ltb_spec m (2 ^ prec)) as [Hlt | Hge].
    + assert (Zdigits2 m <= prec) as Hd.
      { assert (Zdigits2 m - 1 < prec); [ | lia].
        apply (Z.pow_lt_mono_r_iff 2); lia. }
      assert (fexp (Zdigits2 m + c) - c <= 0) as Hle
          by (unfold SpecFloat.fexp; lia).
      destruct (fexp (Zdigits2 m + c) - c) as [ | q | q]; try lia;
        cbn [shr shr_m]; destruct m; try lia; reflexivity.
    + assert (m = 2 ^ prec) as -> by lia.
      assert (Zdigits2 (2 ^ prec) = prec + 1) as Hd.
      { apply Zdigits2_unique; [ | lia].
        replace (prec + 1 - 1) with prec by lia.
        rewrite (pow2_pred (prec + 1)) by lia.
        replace (prec + 1 - 1) with prec by lia. lia. }
      rewrite Hd.
      replace (fexp (prec + 1 + c) - c) with 1 by (unfold SpecFloat.fexp; lia).
      rewrite shr_exact by lia. unfold shifted. cbn [shr_m].
      change (2 ^ 1) with 2.
      assert (0 < 2 ^ prec / 2) as Hq.
      { rewrite (pow2_pred prec), Z.div_mul by lia. apply pow2_pos; lia. }
      destruct (2 ^ prec / 2) as [ | q | q]; try lia. reflexivity.
Qed.

(** What [binary_round_aux] yields on an exact input that has no fewer
    digits than the format keeps. *)
Lemma binary_round_aux_exact (s : bool) (p f : Z) :
  0 < p -> 0 <= fexp (Zdigits2 p + f) - f ->
  binary_round_aux prec emax s p f loc_Exact
  = round_out prec emax s (rne_shift p (fexp (Zdigits2 p + f) - f))
      (fexp (Zdigits2 p + f)).
Proof.
  intros Hp Hn. unfold binary_round_aux.
  destruct (shr_fexp_exact p f Hp Hn) as (mrs & -> & ->).
  apply shr_fexp_rounded.
  - pose proof (rne_shift_bounds p _ ltac:(lia) Hn) as [Hl _].
    split.
    + apply Z.le_trans with (2 := Hl). apply Z.div_pos; [lia | ].
      apply pow2_pos; lia.
    + apply rne_shift_upper; try assumption. unfold SpecFloat.fexp. lia.
  - apply fexp_ge_emin.
Qed.

(** *** Monotonicity *)

Lemma rne_shift_scale (p n k : Z) :
  0 <= p -> 0 <= n -> 0 <= k -> rne_shift (p * 2 ^ k) (n + k) = rne_shift p n.
Proof.
  intros Hp Hn Hk. unfold rne_shift.
  pose proof (pow2_pos k Hk) as Pk.
  destruct (Z.leb_spec n 0) as [Hn0 | Hn0].
  - replace n with 0 by lia. cbn [Z.add].
    destruct (Z.leb_spec k 0) as [Hk0 | Hk0].
    + replace k with 0 by lia. change (2 ^ 0) with 1. lia.
    + pose proof (pow2_pos (k - 1) ltac:(lia)).
      rewrite Z.div_mul, Z.mod_mul by lia.
      destruct (Z.ltb_spec 0 (2 ^ (k - 1))); [reflexivity | lia].
  - destruct (Z.leb_spec (n + k) 0); [lia | ].
    pose proof (pow2_pos n ltac:(lia)) as Pn.
    pose proof (pow2_pos (n - 1) ltac:(lia)) as Pn1.
    rewrite (pow2_split n k) by lia.
    rewrite Z.div_mul_cancel_r, Z.mul_mod_distr_r by lia.
    replace (n + k - 1) with (n - 1 + k) by lia.
    rewrite (pow2_split (n - 1) k) by lia.
    destruct (Z.ltb_spec (p mod 2 ^ n) (2 ^ (n - 1)));
      destruct (Z.ltb_spec (p mod 2 ^ n * 2 ^ k) (2 ^ (n - 1) * 2 ^ k));
      try nia; try reflexivity.
    destruct (Z.ltb_spec (2 ^ (n - 1)) (p mod 2 ^ n));
      destruct (Z.ltb_spec (2 ^ (n - 1) * 2 ^ k) (p mod 2 ^ n * 2 ^ k));
      try nia; reflexivity.
Qed.

Lemma rne_shift_mono (p1 p2 n : Z) :
  0 <= p1 <= p2 -> rne_shift p1 n <= rne_shift p2 n.
Proof.
  intros [H1 H2]. unfold rne_shift.
  destruct (Z.leb_spec n 0) as [Hn | Hn]; [assumption | ].
  pose proof (pow2_pos n ltac:(lia)) as Pn.
  pose proof (Z.div_le_mono p1 p2 (2 ^ n) Pn H2) as Hq.
  pose proof (Z.div_mod p1 (2 ^ n) ltac:(lia)) as E1.
  pose proof (Z.div_mod p2 (2 ^ n) ltac:(lia)) as E2.
  pose proof (Z.mod_pos_bound p1 (2 ^ n) Pn) as B1.
  pose proof (Z.mod_pos_bound p2 (2 ^ n) Pn) as B2.
  pose proof (pow2_pred n Hn) as Eh.
  destruct (Z.eq_dec (p1 / 2 ^ n) (p2 / 2 ^ n)) as [Eq | Ne].
  - rewrite Eq in *.
    assert (p1 mod 2 ^ n <= p2 mod 2 ^ n) by lia.
    repeat match goal with
           | |- context [?a <? ?b] => destruct (Z.ltb_spec a b)
           end; try lia; destruct (Z.even _); lia.
  - assert (p1 / 2 ^ n + 1 <= p2 / 2 ^ n) by lia.
    repeat match goal with
           | |- context [?a <? ?b] => destruct (Z.ltb_spec a b)
           end; try lia; repeat destruct (Z.even _); lia.
Qed.

Lemma SFleb_finite (a e1 b e2 : Z) :
  0 < a -> 0 < b -> e1 < e2 \/ (e1 = e2 /\ a <= b) ->
  SFleb (S754_finite false (Z.to_pos a) e1) (S754_finite false (Z.to_pos b) e2)
  = true.
Proof.
  intros Ha Hb H. unfold SFleb, SFcompare.
  destruct (Z.compare_spec e1 e2) as [E | L | G]; try reflexivity; try lia.
  change (Pos.compare_cont Eq ?x ?y) with (Pos.compare x y).
  rewrite <- Z2Pos.inj_compare by assumption.
  destruct (Z.compare_spec a b); try reflexivity; lia.
Qed.

Lemma round_out_le (m1 c1 m2 c2 : Z) :
  0 <= m1 <= 2 ^ prec -> 0 <= m2 <= 2 ^ prec ->
  (c1 = c2 /\ m1 <= m2) \/ (c1 < c2 /\ 2 ^ (prec - 1) <= m2) ->
  SFleb (round_out prec emax false m1 c1) (round_out prec emax false m2 c2) = true.
Proof.
  intros B1 B2 H.
  pose proof (pow2_pos (prec - 1) ltac:(lia)) as Ph.
  pose proof (pow2_pred prec Hprec) as Ep.
  assert (2 ^ prec / 2 = 2 ^ (prec - 1)) as Ehalf
      by (rewrite Ep; apply Z.div_mul; lia).
  unfold round_out.
  destruct (Z.eqb_spec m1 0); destruct (Z.eqb_spec m2 0);
    destruct (Z.ltb_spec m1 (2 ^ prec)); destruct (Z.ltb_spec m2 (2 ^ prec));
    destruct (Z.leb_spec c1 (emax - prec));
    destruct (Z.leb_spec c2 (emax - prec));
    destruct (Z.leb_spec (c1 + 1) (emax - prec));
    destruct (Z.leb_spec (c2 + 1) (emax - prec));
    try lia; try reflexivity;
    try (replace m1 with (2 ^ prec) by lia);
    try (replace m2 with (2 ^ prec) by lia);
    rewrite ?Ehalf; apply SFleb_finite; lia.
Qed.

(** Rounding is monotone on exact positive inputs, compared by value. *)
Lemma round_exact_mono (p1 f1 p2 f2 : Z) :
  0 < p1 -> 0 < p2 ->
  0 <= fexp (Zdigits2 p1 + f1) - f1 ->
  0 <= fexp (Zdigits2 p2 + f2) - f2 ->
  p1 * 2 ^ (f1 - Z.min f1 f2) <= p2 * 2 ^ (f2 - Z.min f1 f2) ->
  SFleb (binary_round_aux prec emax false p1 f1 loc_Exact)
        (binary_round_aux prec emax false p2 f2 loc_Exact) = true.
Proof.
  intros H1 H2 N1 N2 Hle.
  rewrite !binary_round_aux_exact by assumption.
  set (f0 := Z.min f1 f2) in *.
  set (c1 := fexp (Zdigits2 p1 + f1)) in *.
  set (c2 := fexp (Zdigits2 p2 + f2)) in *.
  assert (Zdigits2 p1 + f1 <= Zdigits2 p2 + f2) as Hmag
      by (apply (mag_mono p1 f1 p2 f2 f0); lia).
  assert (c1 <= c2) as Hc by (apply fexp_mono; assumption).
  assert (0 <= rne_shift p1 (c1 - f1) <= 2 ^ prec) as B1.
  { pose proof (rne_shift_bounds p1 (c1 - f1) ltac:(lia) N1) as [Hl _].
    split.
    - apply Z.le_trans with (2 := Hl). apply Z.div_pos; [lia | ].
      apply pow2_pos; lia.
    - apply rne_shift_upper; try assumption.
      subst c1; unfold SpecFloat.fexp; lia. }
  assert (0 <= rne_shift p2 (c2 - f2) <= 2 ^ prec) as B2.
  { pose proof (rne_shift_bounds p2 (c2 - f2) ltac:(lia) N2) as [Hl _].
    split.
    - apply Z.le_trans with (2 := Hl). apply Z.div_pos; [lia | ].
      apply pow2_pos; lia.
    - apply rne_shift_upper; try assumption.
      subst c2; unfold SpecFloat.fexp; lia. }
  apply round_out_le; try assumption.
  destruct (Z.eq_dec c1 c2) as [Ec | Nc].
  - left; split; [assumption | ].
    rewrite <- (rne_shift_scale p1 (c1 - f1) (f1 - f0)) by lia.
    rewrite <- (rne_shift_scale p2 (c2 - f2) (f2 - f0)) by lia.
    replace (c2 - f2 + (f2 - f0)) with (c1 - f1 + (f1 - f0)) by lia.
    apply rne_shift_mono. split; [ | assumption].
    pose proof (pow2_pos (f1 - f0) ltac:(lia)). nia.
  - right; split; [lia | ].
    assert (c2 = Zdigits2 p2 + f2 - prec) as E2.
    { pose proof (fexp_ge_emin (Zdigits2 p1 + f1)).
      subst c2; unfold SpecFloat.fexp in *. lia. }
    pose proof (rne_shift_bounds p2 (c2 - f2) ltac:(lia) N2) as [Hl _].
    apply Z.le_trans with (2 := Hl).
    apply Z.div_le_lower_bound; [apply pow2_pos; lia | ].
    pose proof (Zdigits2_bounds p2 H2) as [Dlo _].
    rewrite <- pow2_split by lia.
    replace (c2 - f2 + (prec - 1)) with (Zdigits2 p2 - 1) by lia.
    assumption.
Qed.

End Rounding.

(** ** Binary64 *)

Lemma prec_pos : 0 < prec.
Proof. reflexivity. Qed.

Lemma fexp_64 (e : Z) : SpecFloat.fexp prec emax e = Z.max (e - 53) (-1074).
Proof. reflexivity. Qed.

Lemma div_eucl_div_mod (a b : Z) : Z.div_eucl a b = (a / b, a mod b).
Proof. unfold Z.div, Z.modulo. destruct (Z.div_eucl a b); reflexivity. Qed.

(** Multiplying by a positive float is monotone on positive normal
    floats. *)
Lemma fmul_mono (mb : positive) (eb : Z) (m1 : positive) (e1 : Z)
    (m2 : positive) (e2 : Z) :
  prec <= Zdigits2 (Zpos m1) -> prec <= Zdigits2 (Zpos m2) ->
  dyadic_le (Zpos m1) e1 (Zpos m2) e2 ->
  fle (fmul (S754_finite false mb eb) (S754_finite false m1 e1))
      (fmul (S754_finite false mb eb) (S754_finite false m2 e2)) = true.
Proof.
  intros D1 D2 Hle. unfold fle, fmul, SFmul, dyadic_le in *. cbn [xorb].
  assert (forall m : positive, prec <= Zdigits2 (Zpos m) ->
            prec <= Zdigits2 (Zpos (mb * m))) as Hd.
  { intros m Hm. apply Z.le_trans with (1 := Hm).
    pose proof (mag_mono (Zpos m) 0 (Zpos (mb * m)) 0 0) as H.
    rewrite !Z.add_0_r in H. apply H; try lia.
    change (2 ^ (0 - 0)) with 1. nia. }
  apply round_exact_mono; try reflexivity.
  - pose proof (Hd m1 D1). rewrite fexp_64. unfold prec in *. lia.
  - pose proof (Hd m2 D2). rewrite fexp_64. unfold prec in *. lia.
  - replace (eb + e1 - Z.min (eb + e1) (eb + e2)) with (e1 - Z.min e1 e2) by lia.
    replace (eb + e2 - Z.min (eb + e1) (eb + e2)) with (e2 - Z.min e1 e2) by lia.
    rewrite !Pos2Z.inj_mul. rewrite <- !Z.mul_assoc.
    apply Z.mul_le_mono_nonneg_l; [lia | assumption].
Qed.

Lemma SFdiv_core_pow2_20 (p : Z) :
  0 < p < 2 ^ 53 ->
  SFdiv_core_binary prec emax p 0 1048576 0
  = (p * 2 ^ (54 - Zdigits2 p), Zdigits2 p - 74, loc_Exact).
Proof.
  intros [Hp0 Hp1].
  pose proof (Zdigits2_bounds p Hp0) as [Dlo Dhi].
  pose proof (Zdigits2_pos p Hp0) as Dpos.
  assert (Zdigits2 p <= 53) as D53.
  { assert (Zdigits2 p - 1 < 53); [ | lia].
    apply (Z.pow_lt_mono_r_iff 2); lia. }
  unfold SFdiv_core_binary.
  change (Zdigits2 1048576) with 21.
  rewrite fexp_64.
  replace (Z.min (Z.max (Zdigits2 p + 0 - (21 + 0) - 53) (-1074)) (0 - 0))
    with (Zdigits2 p - 74) by lia.
  replace (0 - 0 - (Zdigits2 p - 74)) with (74 - Zdigits2 p) by lia.
  assert (match 74 - Zdigits2 p with
          | 0 => p
          | Zpos _ => Z.shiftl p (74 - Zdigits2 p)
          | Zneg _ => 0
          end = p * 2 ^ (54 - Zdigits2 p) * 1048576) as ->.
  { rewrite <- Z.shiftl_mul_pow2 by lia.
    change 1048576 with (2 ^ 20).
    rewrite <- Z.shiftl_mul_pow2, Z.shiftl_shiftl by lia.
    replace (54 - Zdigits2 p + 20) with (74 - Zdigits2 p) by lia.
    destruct (74 - Zdigits2 p) eqn:E; lia. }
  rewrite div_eucl_div_mod, Z.div_mul, Z.mod_mul by lia.
  reflexivity.
Qed.

Lemma int_truediv_pixels (p : Z) :
  0 < p < 2 ^ 53 -> int_truediv p (1024 * 1024) = Ok (ratio_of p).
Proof.
  intros Hp.
  pose proof (Zdigits2_bounds p ltac:(lia)) as [Dlo Dhi].
  pose proof (Zdigits2_pos p ltac:(lia)) as Dpos.
  assert (Zdigits2 p <= 53) as D53.
  { assert (Zdigits2 p - 1 < 53); [ | lia].
    apply (Z.pow_lt_mono_r_iff 2); lia. }
  pose proof (pow2_pos (53 - Zdigits2 p) ltac:(lia)) as P53.
  assert (p * 2 ^ (54 - Zdigits2 p) = p * 2 ^ (53 - Zdigits2 p) * 2) as E54.
  { rewrite (pow2_pred (54 - Zdigits2 p)) by lia.
    replace (54 - Zdigits2 p - 1) with (53 - Zdigits2 p) by lia. lia. }
  unfold int_truediv. change (1024 * 1024 =? 0) with false. cbv iota.
  destruct p as [ | q | q]; try lia.
  unfold fdiv, of_Z. change (1024 * 1024) with 1048576. unfold SFdiv.
  rewrite SFdiv_core_pow2_20 by assumption. cbn [xorb].
  rewrite binary_round_aux_exact; try reflexivity.
  - rewrite Zdigits2_shift, fexp_64 by lia.
    replace (Z.max (Zdigits2 (Zpos q) + (54 - Zdigits2 (Zpos q))
                    + (Zdigits2 (Zpos q) - 74) - 53) (-1074))
      with (Zdigits2 (Zpos q) - 73) by lia.
    replace (Zdigits2 (Zpos q) - 73 - (Zdigits2 (Zpos q) - 74)) with 1 by lia.
    assert (rne_shift (Zpos q * 2 ^ (54 - Zdigits2 (Zpos q))) 1
            = Zpos q * 2 ^ (53 - Zdigits2 (Zpos q))) as ->.
    { unfold rne_shift. cbn [Z.leb Z.compare]. change (2 ^ 1) with 2.
      change (2 ^ (1 - 1)) with 1.
      rewrite E54, Z.div_mul, Z.mod_mul by lia. reflexivity. }
    unfold round_out, ratio_of.
    assert (Zpos q * 2 ^ (53 - Zdigits2 (Zpos q)) < 2 ^ prec) as Hlt.
    { change prec with 53.
      replace 53 with (Zdigits2 (Zpos q) + (53 - Zdigits2 (Zpos q))) at 2 by lia.
      rewrite pow2_split by lia. nia. }
    destruct (Z.eqb_spec (Zpos q * 2 ^ (53 - Zdigits2 (Zpos q))) 0); [nia | ].
    destruct (Z.ltb_spec (Zpos q * 2 ^ (53 - Zdigits2 (Zpos q))) (2 ^ prec));
      [ | lia].
    destruct (Z.leb_spec (Zdigits2 (Zpos q) - 73) (emax - prec)); [ | unfold emax, prec in *; lia].
    destruct (Z.to_pos _); reflexivity.
  - nia.
  - rewrite Zdigits2_shift, fexp_64 by lia. lia.
Qed.

(** ** Sign and exponent range of a rounded result *)

Section Shape.

Variables prec emax : Z.
Hypothesis Hprec : 0 < prec.

Local Notation "'emin'" := (SpecFloat.emin prec emax).
Local Notation "'fexp'" := (SpecFloat.fexp prec emax).

Lemma shr_1_keeps_nonneg (mrs : shr_record) :
  0 <= shr_m mrs -> 0 <= shr_m (shr_1 mrs).
Proof.
  destruct mrs as [m r s]. cbn [shr_m]. intros Hm.
  destruct m as [ | [q | q | ] | q]; cbn; lia.
Qed.

Lemma shr_keeps_nonneg (mrs : shr_record) (e n : Z) :
  0 <= shr_m mrs -> 0 <= shr_m (fst (shr mrs e n)).
Proof.
  intros Hm. destruct n as [ | q | q]; cbn [shr fst]; try assumption.
  rewrite iter_pos_nat. induction (Pos.to_nat q) as [ | k IH]; [assumption | ].
  cbn [Nat.iter nat_rect]. apply shr_1_keeps_nonneg, IH.
Qed.

Lemma shr_fexp_shape (m e : Z) (l : location) :
  0 <= m ->
  0 <= shr_m (fst (shr_fexp prec emax m e l))
  /\ (shr_m (fst (shr_fexp prec emax m e l)) <> 0 ->
      emin <= snd (shr_fexp prec emax m e l)).
Proof.
  intros Hm. unfold shr_fexp. split.
  - apply shr_keeps_nonneg. destruct l as [ | [ | | ]]; assumption.
  - intros Hnz.
    assert (emin <= fexp (Zdigits2 m + e)) as Hf by (unfold SpecFloat.fexp; lia).
    destruct (fexp (Zdigits2 m + e) - e) as [ | q | q] eqn:E; cbn [shr snd]; lia.
Qed.

Lemma round_nearest_even_nonneg (m : Z) (l : location) :
  0 <= m -> 0 <= round_nearest_even m l.
Proof.
  intros Hm. destruct l as [ | [ | | ]]; cbn [round_nearest_even];
    try destruct (Z.even m); lia.
Qed.

Lemma binary_round_aux_shape (s : bool) (m e : Z) (l : location) :
  0 <= m -> signed_in_range prec emax s (binary_round_aux prec emax s m e l).
Proof.
  intros Hm. unfold binary_round_aux.
  destruct (shr_fexp prec emax m e l) as [mrs' e'] eqn:E1.
  pose proof (shr_fexp_shape m e l Hm) as [H1 _]. rewrite E1 in H1. cbn [fst] in H1.
  pose proof (round_nearest_even_nonneg (shr_m mrs') (loc_of_shr_record mrs') H1)
    as Hr.
  pose proof (shr_fexp_shape _ e' loc_Exact Hr) as [H2 H3].
  destruct (shr_fexp prec emax _ e' loc_Exact) as [mrs'' e''].
  cbn [fst snd] in H2, H3.
  destruct (shr_m mrs'') as [ | q | q]; cbn [signed_in_range]; try lia.
  - reflexivity.
  - destruct (e'' <=? emax - prec); cbn [signed_in_range]; [ | reflexivity].
    split; [reflexivity | apply H3; discriminate].
Qed.

Lemma shl_align_spec (m : positive) (e e' : Z) :
  shl_align m e e'
  = if e' <? e then (Z.to_pos (Zpos m * 2 ^ (e - e')), e') else (m, e).
Proof.
  unfold shl_align.
  destruct (Z.ltb_spec e' e) as [Hlt | Hge].
  - destruct (e' - e) as [ | q | q] eqn:E; try lia.
    f_equal. replace (e - e') with (Zpos q) by lia.
    apply Pos2Z.inj.
    rewrite Z2Pos.id by (pose proof (pow2_pos (Zpos q)); nia).
    apply (Pos.iter_ind _ xO m (fun p a => Zpos a = Zpos m * 2 ^ Zpos p)).
    + change (2 ^ 1) with 2. lia.
    + intros p a IH. rewrite Pos2Z.inj_succ, Z.pow_succ_r by lia.
      change (Zpos a~0) with (2 * Zpos a). lia.
  - destruct (e' - e) as [ | q | q] eqn:E; try lia; reflexivity.
Qed.

Lemma binary_round_shape (s : bool) (m : positive) (e : Z) :
  signed_in_range prec emax s (binary_round prec emax s m e).
Proof.
  unfold binary_round.
  destruct (shl_align m e _) as [mz ez]. apply binary_round_aux_shape. lia.
Qed.

(** A positive mantissa at an exponent of the format never rounds to
    zero. *)
Lemma binary_round_nonzero (s s' : bool) (m : positive) (e : Z) :
  emin <= e -> binary_round prec emax s m e <> S754_zero s'.
Proof.
  intros He. unfold binary_round. rewrite shl_align_spec.
  set (c := fexp (Zpos (digits2_pos m) + e)).
  pose proof (pow2_pos prec ltac:(lia)) as Pp.
  assert (forall x k, 0 < x -> round_out prec emax s x k <> S754_zero s') as Hout.
  { intros x k Hx. unfold round_out.
    destruct (Z.eqb_spec x 0); [lia | ].
    destruct (x <? 2 ^ prec); destruct (_ <=? _); discriminate. }
  change (Zpos (digits2_pos m)) with (Zdigits2 (Zpos m)) in *.
  destruct (Z.ltb_spec c e) as [Hlt | Hge].
  - pose proof (pow2_pos (e - c) ltac:(lia)) as Pk.
    rewrite Z2Pos.id by nia.
    rewrite binary_round_aux_exact; try assumption; try nia.
    + rewrite Zdigits2_shift by lia.
      replace (Zdigits2 (Zpos m) + (e - c) + c) with (Zdigits2 (Zpos m) + e) by lia.
      fold c. replace (c - c) with 0 by lia.
      apply Hout. unfold rne_shift. cbn [Z.leb Z.compare]. nia.
    + rewrite Zdigits2_shift by lia.
      replace (Zdigits2 (Zpos m) + (e - c) + c) with (Zdigits2 (Zpos m) + e) by lia.
      fold c. lia.
  - rewrite binary_round_aux_exact; try assumption; try lia; fold c; try lia.
    apply Hout.
    pose proof (rne_shift_bounds (Zpos m) (c - e) ltac:(lia) ltac:(lia)) as [Hl _].
    apply Z.lt_le_trans with (2 := Hl).
    destruct (Z.eq_dec c e) as [-> | Hne].
    + replace (e - e) with 0 by lia. rewrite Z.div_1_r. lia.
    + assert (c = Zdigits2 (Zpos m) + e - prec) as Ec
          by (subst c; unfold SpecFloat.fexp in *; lia).
      pose proof (Zdigits2_bounds (Zpos m) ltac:(lia)) as [Dlo _].
      pose proof (pow2_pos (prec - 1) ltac:(lia)) as Ph.
      apply Z.lt_le_trans with (1 := Ph).
      apply Z.div_le_lower_bound; [apply pow2_pos; lia | ].
      rewrite <- pow2_split by lia.
      replace (c - e + (prec - 1)) with (Zdigits2 (Zpos m) - 1) by lia.
      assumption.
Qed.

End Shape.

(** ** Sums of binary64 floats *)

Lemma signed_in_range_64 (s : bool) (x : float) :
  signed_in_range prec emax s x -> in_range x.
Proof.
  destruct x; cbn; try trivial. intros [_ H]. exact H.
Qed.

Lemma signed_nonneg (x : float) :
  signed_in_range prec emax false x -> fle pos_zero x = true.
Proof.
  destruct x as [s | s | | s m e]; cbn; try tauto.
  - intros ->. reflexivity.
  - intros [-> _]. reflexivity.
Qed.

Lemma binary_normalize_shape (m e : Z) :
  match m with
  | Z0 => binary_normalize prec emax m e false = pos_zero
  | Zpos _ => signed_in_range prec emax false (binary_normalize prec emax m e false)
  | Zneg _ => signed_in_range prec emax true (binary_normalize prec emax m e false)
  end.
Proof.
  destruct m; cbn [binary_normalize]; try reflexivity; apply binary_round_shape.
Qed.

Lemma binary_normalize_in_range (m e : Z) :
  in_range (binary_normalize prec emax m e false).
Proof.
  pose proof (binary_normalize_shape m e) as H.
  destruct m; [rewrite H; exact I | | ]; eapply signed_in_range_64; exact H.
Qed.

Lemma fadd_in_range (x y : float) :
  in_range x -> in_range y -> in_range (fadd x y).
Proof.
  intros Hx Hy. unfold fadd, SFadd.
  destruct x as [sx | sx | | sx mx ex]; destruct y as [sy | sy | | sy my ey];
    try exact I; try assumption;
    try (destruct sx; destruct sy; exact I).
  apply binary_normalize_in_range.
Qed.

Lemma fadd_not_neg_zero (x y : float) :
  in_range x -> in_range y -> x <> neg_zero -> fadd x y <> neg_zero.
Proof.
  intros Hx Hy Hnz. unfold fadd, SFadd, neg_zero in *.
  destruct x as [sx | sx | | sx mx ex]; destruct y as [sy | sy | | sy my ey];
    try discriminate;
    try (destruct sx; destruct sy; try discriminate; congruence).
  cbn [in_range] in Hx, Hy.
  destruct (Z.add _ _) as [ | q | q]; cbn [binary_normalize].
  - discriminate.
  - apply binary_round_nonzero; [reflexivity | ]. change (SpecFloat.emin prec emax) with (-1074). lia.
  - apply binary_round_nonzero; [reflexivity | ]. change (SpecFloat.emin prec emax) with (-1074). lia.
Qed.

Lemma fadd_zero_r (x : float) : x <> neg_zero -> fadd x pos_zero = x.
Proof.
  intros Hx. destruct x as [[ | ] | | | ]; try reflexivity.
  exfalso; apply Hx; reflexivity.
Qed.

Lemma fadd_nonneg (x y : float) :
  fle pos_zero x = true -> fle pos_zero y = true -> fle pos_zero (fadd x y) = true.
Proof.
  intros Hx Hy. unfold fadd, SFadd.
  destruct x as [sx | [ | ] | | [ | ] mx ex]; try discriminate;
    destruct y as [sy | [ | ] | | [ | ] my ey]; try discriminate;
    try reflexivity; try (destruct sx; destruct sy; reflexivity).
  cbn [cond_Zopp].
  pose proof (binary_normalize_shape
                (Zpos (fst (shl_align mx ex (Z.min ex ey)))
                 + Zpos (fst (shl_align my ey (Z.min ex ey)))) (Z.min ex ey)) as H.
  cbn [Z.add] in H |- *. apply signed_nonneg, H.
Qed.

(** ** What [float(s)] can yield *)

Lemma fdiv_finite_in_range (s : bool) (m1 m2 : positive) :
  in_range (fdiv (S754_finite s m1 0) (S754_finite false m2 0)).
Proof.
  unfold fdiv, SFdiv.
  destruct (SFdiv_core_binary prec emax (Zpos m1) 0 (Zpos m2) 0) as [[mz ez] lz] eqn:E.
  eapply signed_in_range_64. apply binary_round_aux_shape.
  unfold SFdiv_core_binary in E. rewrite div_eucl_div_mod in E.
  injection E as <- _ _.
  apply Z.div_pos; [ | lia].
  match goal with
  | |- 0 <= match ?x with Z0 => _ | Zpos _ => _ | Zneg _ => _ end =>
      destruct x as [ | q | q]
  end; try lia.
  rewrite Z.shiftl_mul_pow2 by lia. pose proof (pow2_pos (Zpos q)). nia.
Qed.

Lemma of_decimal_in_range (s : bool) (d e : Z) : in_range (of_decimal s d e).
Proof.
  unfold of_decimal. destruct d as [ | p | p]; try exact I.
  destruct (0 <=? e).
  - apply binary_normalize_in_range.
  - apply fdiv_finite_in_range.
Qed.

Lemma parse_number_in_range (sign : bool) (s : string) (x : float) :
  parse_number sign s = Some x -> in_range x.
Proof.
  unfold parse_number.
  destruct (read_digits 0 0 s) as [[ip ni] r1].
  destruct (match r1 with
            | String "." r => read_digits ip 0 r
            | _ => (ip, 0, r1)
            end) as [[d nf] r2].
  destruct (ni + nf =? 0); [discriminate | ].
  destruct (read_exponent r2) as [e r3].
  destruct r3; [ | discriminate].
  intros [= <-]. apply of_decimal_in_range.
Qed.

Lemma of_string_in_range (s : string) (x : float) :
  of_string s = Some x -> in_range x.
Proof.
  unfold of_string.
  destruct (drop_underscores _ _) as [t | ]; [ | discriminate].
  destruct (read_sign _) as [sign body].
  destruct (_ || _); [intros [= <-]; exact I | ].
  destruct (_ =? _)%string; [intros [= <-]; exact I | ].
  apply parse_number_in_range.
Qed.

(** ** Rounding a quotient by a power of two *)

Section Quotient.

Variables prec emax : Z.
Hypothesis Hprec : 0 < prec.

Local Notation "'emin'" := (SpecFloat.emin prec emax).
Local Notation "'fexp'" := (SpecFloat.fexp prec emax).

(** The location of a remainder of a division by [2^k] is the record
    that [k] shifts of the dividend leave. *)
Lemma new_location_shifted (p k : Z) :
  0 <= p -> 0 < k ->
  shr_record_of_loc (p / 2 ^ k) (new_location (2 ^ k) (p mod 2 ^ k))
  = shifted p k.
Proof.
  intros Hp Hk.
  pose proof (pow2_pos (k - 1) ltac:(lia)) as Ph.
  pose proof (pow2_pred k Hk) as Ek.
  assert (Z.even (2 ^ k) = true) as Hev.
  { rewrite Ek, Z.even_mul. apply orb_true_r. }
  unfold new_location. rewrite Hev. unfold new_location_even, shifted.
  assert (p mod 2 ^ k
          = p mod 2 ^ (k - 1)
            + 2 ^ (k - 1) * (if Z.odd (p / 2 ^ (k - 1)) then 1 else 0)) as Er.
  { rewrite Ek at 1. rewrite Z.rem_mul_r, Zmod_odd by lia. reflexivity. }
  rewrite Z.testbit_odd, Z.shiftr_div_pow2 by lia.
  pose proof (Z.mod_pos_bound p (2 ^ (k - 1)) ltac:(lia)) as Hb.
  rewrite Er.
  destruct (Z.odd (p / 2 ^ (k - 1)));
    destruct (Z.eqb_spec (p mod 2 ^ (k - 1)) 0) as [E0 | E0];
    match goal with |- context [?x =? 0] => destruct (Z.eqb_spec x 0) end;
    try lia; cbn [negb shr_record_of_loc]; try reflexivity;
    match goal with |- context [?x ?= ?y] => destruct (Z.compare_spec x y) end;
    try lia; reflexivity.
Qed.

Lemma iter_shifted (p k : Z) (j : nat) :
  0 <= p -> 0 < k ->
  Nat.iter j shr_1 (shifted p k) = shifted p (k + Z.of_nat j).
Proof.
  intros Hp Hk. induction j as [ | j IH].
  - cbn [Nat.iter nat_rect Z.of_nat]. rewrite Z.add_0_r. reflexivity.
  - change (Nat.iter (S j) shr_1 ?x) with (shr_1 (Nat.iter j shr_1 x)).
    rewrite IH, shr_1_shifted by lia. f_equal. lia.
Qed.

Lemma shr_shifted (p k e n : Z) :
  0 <= p -> 0 < k -> 0 <= n ->
  shr (shifted p k) e n = (shifted p (k + n), e + n).
Proof.
  intros Hp Hk Hn. destruct n as [ | q | q]; try lia.
  - cbn [shr]. rewrite !Z.add_0_r. reflexivity.
  - unfold shr. rewrite iter_pos_nat, iter_shifted, positive_nat_Z by lia.
    reflexivity.
Qed.

Lemma Zdigits2_div_pow2 (p k : Z) :
  0 <= k -> 0 < p / 2 ^ k -> Zdigits2 p = Zdigits2 (p / 2 ^ k) + k.
Proof.
  intros Hk Hq.
  pose proof (pow2_pos k Hk) as Pk.
  pose proof (Zdigits2_bounds _ Hq) as [Dlo Dhi].
  pose proof (Zdigits2_pos _ Hq) as Dpos.
  pose proof (Z.div_mod p (2 ^ k) ltac:(lia)) as Ed.
  pose proof (Z.mod_pos_bound p (2 ^ k) Pk) as Hb.
  apply Zdigits2_unique; [ | nia].
  replace (Zdigits2 (p / 2 ^ k) + k - 1) with (Zdigits2 (p / 2 ^ k) - 1 + k) by lia.
  rewrite !pow2_split by lia. nia.
Qed.

(** Rounding the quotient of [p] by [2^k] with the location of its
    remainder is rounding [p] itself, [k] binary places lower. *)
Lemma binary_round_aux_quotient (s : bool) (p k e : Z) :
  0 < k -> 0 < p / 2 ^ k ->
  0 <= fexp (Zdigits2 (p / 2 ^ k) + e) - e ->
  binary_round_aux prec emax s (p / 2 ^ k) e (new_location (2 ^ k) (p mod 2 ^ k))
  = binary_round_aux prec emax s p (e - k) loc_Exact.
Proof.
  intros Hk Hq Hn.
  pose proof (pow2_pos k ltac:(lia)) as Pk.
  assert (0 < p) as Hp.
  { destruct (Z.lt_ge_cases 0 p) as [ | Hle]; [assumption | ].
    assert (p / 2 ^ k <= 0); [ | lia].
    apply Z.div_le_upper_bound; lia. }
  pose proof (Zdigits2_div_pow2 p k ltac:(lia) Hq) as Ed.
  assert (Zdigits2 p + (e - k) = Zdigits2 (p / 2 ^ k) + e) as Emag by lia.
  rewrite (binary_round_aux_exact prec emax Hprec s p (e - k)) by (rewrite ?Emag; lia).
  rewrite Emag.
  set (c := fexp (Zdigits2 (p / 2 ^ k) + e)) in *.
  unfold binary_round_aux at 1. unfold shr_fexp at 1. fold c.
  rewrite new_location_shifted, shr_shifted by lia.
  rewrite round_shifted by lia.
  replace (e + (c - e)) with c by lia.
  replace (k + (c - e)) with (c - (e - k)) by lia.
  apply shr_fexp_rounded; [assumption | | apply fexp_ge_emin].
  pose proof (rne_shift_bounds p (c - (e - k)) ltac:(lia) ltac:(lia)) as [Hl _].
  split.
  - apply Z.le_trans with (2 := Hl). apply Z.div_pos; [lia | ].
    apply pow2_pos; lia.
  - apply rne_shift_upper; try assumption; try lia.
    subst c. unfold SpecFloat.fexp. lia.
Qed.

Lemma binary_round_aux_opp (s : bool) (m e : Z) (l : location) :
  binary_round_aux prec emax (negb s) m e l
  = SFopp (binary_round_aux prec emax s m e l).
Proof.
  unfold binary_round_aux.
  destruct (shr_fexp prec emax m e l) as [mrs' e'].
  destruct (shr_fexp prec emax _ e' loc_Exact) as [mrs'' e''].
  destruct (shr_m mrs''); try reflexivity.
  destruct (e'' <=? emax - prec); reflexivity.
Qed.

(** A mantissa of the full width at its canonical exponent rounds to a
    normal float or overflows. *)
Lemma round_out_normal (m c : Z) :
  2 ^ (prec - 1) <= m <= 2 ^ prec ->
  round_out prec emax false m c = S754_infinity false
  \/ exists q e, round_out prec emax false m c = S754_finite false q e
                 /\ Zdigits2 (Zpos q) = prec.
Proof.
  intros [Hlo Hhi].
  pose proof (pow2_pos (prec - 1) ltac:(lia)) as Ph.
  pose proof (pow2_pred prec Hprec) as Ep.
  unfold round_out.
  destruct (Z.eqb_spec m 0); [lia | ].
  destruct (Z.ltb_spec m (2 ^ prec)).
  - destruct (c <=? emax - prec); [right | left; reflexivity].
    eexists; eexists; split; [reflexivity | ].
    rewrite Z2Pos.id by lia. apply Zdigits2_unique; lia.
  - destruct (c + 1 <=? emax - prec); [right | left; reflexivity].
    eexists; eexists; split; [reflexivity | ].
    replace m with (2 ^ prec) by lia. rewrite Ep, Z.div_mul by lia.
    rewrite Z2Pos.id by lia. apply Zdigits2_unique; lia.
Qed.

Lemma SFleb_normal_dyadic (m1 : positive) (e1 : Z) (m2 : positive) (e2 : Z) :
  Zdigits2 (Zpos m1) = prec -> Zdigits2 (Zpos m2) = prec ->
  SFleb (S754_finite false m1 e1) (S754_finite false m2 e2) = true ->
  dyadic_le (Zpos m1) e1 (Zpos m2) e2.
Proof.
  intros D1 D2. unfold SFleb, SFcompare, dyadic_le.
  pose proof (Zdigits2_bounds (Zpos m1) ltac:(lia)) as [L1 U1].
  pose proof (Zdigits2_bounds (Zpos m2) ltac:(lia)) as [L2 U2].
  rewrite D1 in *. rewrite D2 in *.
  pose proof (pow2_pred prec Hprec) as Ep.
  destruct (Z.compare_spec e1 e2) as [E | L | G]; try discriminate.
  - change (Pos.compare_cont Eq m1 m2) with (Pos.compare m1 m2).
    subst e2. rewrite Z.min_id, Z.sub_diag. change (2 ^ 0) with 1.
    destruct (Pos.compare_spec m1 m2); try discriminate; intros _; lia.
  - intros _. replace (Z.min e1 e2) with e1 by lia.
    rewrite Z.sub_diag. change (2 ^ 0) with 1.
    pose proof (pow2_pred (e2 - e1) ltac:(lia)) as Ee.
    pose proof (pow2_pos (e2 - e1 - 1) ltac:(lia)). nia.
Qed.

End Quotient.

(** ** The pixel ratio for every pixel count *)

Lemma SFdiv_core_pixels (p : Z) :
  0 < p ->
  SFdiv_core_binary prec emax p 0 1048576 0
  = (p * 2 ^ ratio_shift p / 2 ^ 20, - ratio_shift p,
     new_location (2 ^ 20) ((p * 2 ^ ratio_shift p) mod 2 ^ 20)).
Proof.
  intros Hp. pose proof (Zdigits2_pos p Hp) as Dpos.
  unfold SFdiv_core_binary, ratio_shift.
  change (Zdigits2 1048576) with 21. rewrite fexp_64.
  replace (Z.min (Z.max (Zdigits2 p + 0 - (21 + 0) - 53) (-1074)) (0 - 0))
    with (- Z.max 0 (74 - Zdigits2 p)) by lia.
  replace (0 - 0 - - Z.max 0 (74 - Zdigits2 p)) with (Z.max 0 (74 - Zdigits2 p))
    by lia.
  assert (match Z.max 0 (74 - Zdigits2 p) with
          | 0 => p
          | Zpos _ => Z.shiftl p (Z.max 0 (74 - Zdigits2 p))
          | Zneg _ => 0
          end = p * 2 ^ Z.max 0 (74 - Zdigits2 p)) as ->.
  { rewrite <- Z.shiftl_mul_pow2 by lia.
    destruct (Z.max 0 (74 - Zdigits2 p)) eqn:E; try lia. reflexivity. }
  rewrite div_eucl_div_mod. reflexivity.
Qed.

Lemma ratio_shift_digits (p : Z) :
  0 < p ->
  0 <= ratio_shift p
  /\ Zdigits2 (p * 2 ^ ratio_shift p) = Zdigits2 p + ratio_shift p
  /\ 74 <= Zdigits2 p + ratio_shift p
  /\ 2 ^ 73 <= p * 2 ^ ratio_shift p.
Proof.
  intros Hp. pose proof (Zdigits2_pos p Hp) as Dpos.
  assert (0 <= ratio_shift p) as Hs by (unfold ratio_shift; lia).
  pose proof (Zdigits2_shift p (ratio_shift p) Hp Hs) as Ed.
  assert (74 <= Zdigits2 p + ratio_shift p) as H74 by (unfold ratio_shift; lia).
  repeat split; try assumption.
  pose proof (pow2_pos (ratio_shift p) Hs).
  pose proof (Zdigits2_bounds (p * 2 ^ ratio_shift p) ltac:(nia)) as [Dlo _].
  apply Z.le_trans with (2 := Dlo). apply Z.pow_le_mono_r; lia.
Qed.

(** The quotient of a positive pixel count by [1024 * 1024] is the
    rounding of the exact ratio. *)
Lemma fdiv_pixels_round (p : positive) :
  fdiv (S754_finite false p 0) (S754_finite false 1048576 0)
  = binary_round_aux prec emax false (Zpos p * 2 ^ ratio_shift (Zpos p))
      (- ratio_shift (Zpos p) - 20) loc_Exact.
Proof.
  destruct (ratio_shift_digits (Zpos p) ltac:(lia)) as (Hs & Ed & H74 & H73).
  unfold fdiv, SFdiv. rewrite SFdiv_core_pixels by lia. cbn [xorb].
  assert (2 ^ 53 <= Zpos p * 2 ^ ratio_shift (Zpos p) / 2 ^ 20) as Hq.
  { apply Z.div_le_lower_bound; [reflexivity | ].
    change (2 ^ 20 * 2 ^ 53) with (2 ^ 73). assumption. }
  apply (binary_round_aux_quotient prec emax prec_pos); try lia.
  pose proof (Zdigits2_div_pow2 (Zpos p * 2 ^ ratio_shift (Zpos p)) 20
                ltac:(lia) ltac:(lia)) as Edq.
  rewrite fexp_64. lia.
Qed.

Lemma pixels_round_digits (p : positive) :
  0 <= SpecFloat.fexp prec emax
         (Zdigits2 (Zpos p * 2 ^ ratio_shift (Zpos p))
          + (- ratio_shift (Zpos p) - 20))
       - (- ratio_shift (Zpos p) - 20).
Proof.
  destruct (ratio_shift_digits (Zpos p) ltac:(lia)) as (Hs & Ed & H74 & H73).
  rewrite fexp_64, Ed. lia.
Qed.

Lemma fdiv_pixels_shape (p : positive) :
  fdiv (S754_finite false p 0) (S754_finite false 1048576 0) = S754_infinity false
  \/ exists m e,
       fdiv (S754_finite false p 0) (S754_finite false 1048576 0)
       = S754_finite false m e
       /\ Zdigits2 (Zpos m) = prec.
Proof.
  destruct (ratio_shift_digits (Zpos p) ltac:(lia)) as (Hs & Ed & H74 & H73).
  pose proof (pow2_pos (ratio_shift (Zpos p)) Hs) as Ps.
  pose proof (Zdigits2_pos (Zpos p) ltac:(lia)) as Dpos.
  rewrite fdiv_pixels_round.
  rewrite (binary_round_aux_exact prec emax prec_pos)
    by (try apply pixels_round_digits; nia).
  apply (round_out_normal prec emax prec_pos).
  set (P := Zpos p * 2 ^ ratio_shift (Zpos p)) in *.
  assert (SpecFloat.fexp prec emax (Zdigits2 P + (- ratio_shift (Zpos p) - 20))
          - (- ratio_shift (Zpos p) - 20) = Zdigits2 P - 53) as ->
      by (rewrite fexp_64; lia).
  pose proof (rne_shift_bounds P (Zdigits2 P - 53) ltac:(lia) ltac:(lia)) as [Hl _].
  split.
  - apply Z.le_trans with (2 := Hl).
    apply Z.div_le_lower_bound; [apply pow2_pos; lia | ].
    pose proof (Zdigits2_bounds P ltac:(lia)) as [Dlo _].
    rewrite <- pow2_split by (unfold prec; lia).
    replace (Zdigits2 P - 53 + (prec - 1)) with (Zdigits2 P - 1)
      by (unfold prec; lia).
    assumption.
  - apply (rne_shift_upper prec prec_pos); unfold prec; lia.
Qed.

Lemma fdiv_pixels_mono (p1 p2 : positive) :
  (p1 <= p2)%positive ->
  SFleb (fdiv (S754_finite false p1 0) (S754_finite false 1048576 0))
        (fdiv (S754_finite false p2 0) (S754_finite false 1048576 0)) = true.
Proof.
  intros Hle.
  destruct (ratio_shift_digits (Zpos p1) ltac:(lia)) as (Hs1 & _).
  destruct (ratio_shift_digits (Zpos p2) ltac:(lia)) as (Hs2 & _).
  pose proof (pow2_pos (ratio_shift (Zpos p1)) Hs1).
  pose proof (pow2_pos (ratio_shift (Zpos p2)) Hs2).
  rewrite !fdiv_pixels_round.
  apply (round_exact_mono prec emax prec_pos);
    try apply pixels_round_digits; try nia.
  set (s1 := ratio_shift (Zpos p1)) in *. set (s2 := ratio_shift (Zpos p2)) in *.
  replace (- s1 - 20 - Z.min (- s1 - 20) (- s2 - 20)) with (Z.max s1 s2 - s1) by lia.
  replace (- s2 - 20 - Z.min (- s1 - 20) (- s2 - 20)) with (Z.max s1 s2 - s2) by lia.
  rewrite <- !Z.mul_assoc, <- !pow2_split by lia.
  replace (s1 + (Z.max s1 s2 - s1)) with (Z.max s1 s2) by lia.
  replace (s2 + (Z.max s1 s2 - s2)) with (Z.max s1 s2) by lia.
  apply Z.mul_le_mono_nonneg_r; [ | lia].
  apply Z.lt_le_incl, pow2_pos. lia.
Qed.

(** ** Signs *)

Lemma SFleb_opp (x y : float) : SFleb x y = true -> SFleb (SFopp y) (SFopp x) = true.
Proof.
  unfold SFleb, SFcompare.
  destruct x as [sx | sx | | sx mx ex]; destruct y as [sy | sy | | sy my ey];
    cbn [SFopp]; try discriminate; try reflexivity;
    try (destruct sx; destruct sy; cbn [negb]; try discriminate; reflexivity);
    try (destruct sx; cbn [negb]; try discriminate; reflexivity);
    try (destruct sy; cbn [negb]; try discriminate; reflexivity).
  change (Pos.compare_cont Eq ?a ?b) with (Pos.compare a b).
  rewrite (Z.compare_antisym ex ey), (Pos.compare_antisym mx my).
  destruct sx; destruct sy; cbn [negb]; try discriminate; try reflexivity;
    destruct (ex ?= ey); cbn [CompOpp]; try discriminate; try reflexivity;
    destruct (mx ?= my)%positive; cbn [CompOpp]; try discriminate; reflexivity.
Qed.

Lemma SFleb_signs (x y : float) :
  signed_in_range prec emax true x -> signed_in_range prec emax false y ->
  SFleb x y = true.
Proof.
  destruct x as [sx | sx | | sx mx ex]; destruct y as [sy | sy | | sy my ey];
    cbn [signed_in_range]; try contradiction; intros Hx Hy;
    repeat match goal with H : _ /\ _ |- _ => destruct H as [? _] end;
    subst; reflexivity.
Qed.

Lemma fdiv_neg (p d : positive) :
  fdiv (S754_finite true p 0) (S754_finite false d 0)
  = SFopp (fdiv (S754_finite false p 0) (S754_finite false d 0)).
Proof.
  unfold fdiv, SFdiv.
  destruct (SFdiv_core_binary prec emax (Zpos p) 0 (Zpos d) 0) as [[mz ez] lz].
  apply (binary_round_aux_opp prec emax false).
Qed.

Lemma fmul_neg (mb : positive) (eb : Z) (m : positive) (e : Z) :
  fmul (S754_finite false mb eb) (S754_finite true m e)
  = SFopp (fmul (S754_finite false mb eb) (S754_finite false m e)).
Proof. apply (binary_round_aux_opp prec emax false). Qed.

End FloatFacts.

(** * The credit ledger *)

Section Ledger.

Import CreditTrackerNode.
Import FloatFacts.

Lemma parse_credits_charge (credits_used : string) :
  parse_credits credits_used = Ok (parsed_charge credits_used).
Proof.
  unfold parse_credits, py_float, parsed_charge.
  destruct (of_string credits_used); reflexivity.
Qed.

Lemma usage_payload_ready (credits : float)
    (model_name project_id now : string) (unique_id : pyval) :
  json_ready (usage_payload credits model_name project_id now unique_id)
  = is_finite credits && json_ready unique_id.
Proof.
  unfold usage_payload. cbn [json_ready forallb snd].
  rewrite !Bool.andb_true_r. reflexivity.
Qed.

Lemma report_status (net : network) (credits : float)
    (model_name vault_url project_id now : string) (unique_id : pyval) :
  report net credits model_name vault_url project_id now unique_id
  = Ok (if is_finite credits && json_ready unique_id then
          match net (usage_request credits model_name vault_url project_id now
                       unique_id) with
          | Answer r =>
              if (status_code r =? 200)%Z then "reported" else "local_only"
          | NoAnswer => "offline"
          end
        else "offline").
Proof.
  unfold report, requests_post. rewrite usage_payload_ready.
  destruct (is_finite credits && json_ready unique_id); [ | reflexivity].
  unfold send, usage_request.
  destruct (net _) as [r | ]; cbn.
  - destruct (status_code r =? 200)%Z; reflexivity.
  - reflexivity.
Qed.

Lemma track_credits_total (net : network) (now : string) (session : float)
    (credits_used model_name vault_url project_id : string) (unique_id : pyval) :
  fst (track_credits net now session credits_used model_name vault_url
         project_id unique_id)
  = fadd session (parsed_charge credits_used).
Proof.
  unfold track_credits. rewrite parse_credits_charge. reflexivity.
Qed.

Lemma parsed_charge_in_range (s : string) : in_range (parsed_charge s).
Proof.
  unfold parsed_charge. destruct (of_string s) as [x | ] eqn:E.
  - apply (of_string_in_range s x E).
  - exact I.
Qed.

Lemma step_sound (t : float) (c : call) :
  in_range t -> t <> neg_zero ->
  in_range (step t c) /\ step t c <> neg_zero.
Proof.
  intros Hr Hz. destruct c as [net now s m u p i | ]; cbn [step].
  - rewrite track_credits_total. split.
    + apply fadd_in_range; [assumption | apply parsed_charge_in_range].
    + apply fadd_not_neg_zero;
        [assumption | apply parsed_charge_in_range | assumption].
  - split; [exact I | discriminate].
Qed.

Lemma steps_sound (calls : list call) (t : float) :
  in_range t -> t <> neg_zero ->
  in_range (fold_left step calls t) /\ fold_left step calls t <> neg_zero.
Proof.
  revert t. induction calls as [ | c calls IH]; intros t Hr Hz; cbn [fold_left].
  - split; assumption.
  - destruct (step_sound t c Hr Hz) as [Hr' Hz']. apply IH; assumption.
Qed.

(** No sequence of calls leaves the negative zero as the session
    total. *)
Lemma run_not_neg_zero (calls : list call) : run calls <> neg_zero.
Proof.
  apply (steps_sound calls _session_credits); [exact I | discriminate].
Qed.

Lemma step_nonneg (t : float) (c : call) :
  nonneg_charge c -> fle pos_zero t = true -> fle pos_zero (step t c) = true.
Proof.
  intros Hc Ht. destruct c as [net now s m u p i | ]; cbn [step].
  - rewrite track_credits_total. apply fadd_nonneg; [assumption | ].
    unfold parsed_charge. cbn [nonneg_charge] in Hc.
    destruct (of_string s) as [x | ]; [apply Hc | ]; reflexivity.
  - reflexivity.
Qed.

Lemma steps_nonneg (calls : list call) (t : float) :
  Forall nonneg_charge calls -> fle pos_zero t = true ->
  fle pos_zero (fold_left step calls t) = true.
Proof.
  intros Hall. revert t.
  induction Hall as [ | c calls Hc _ IH]; intros t Ht; cbn [fold_left].
  - assumption.
  - apply IH, step_nonneg; assumption.
Qed.

End Ledger.

(** C1.  For every session total [t] a sequence of calls leaves and every
    text [credits_used], parsing never raises: it yields the value the text
    reads as, or [0.0] when [float] rejects the text.  After
    [track_credits] the session total is the float sum [t + c] when the
    text reads as the float [c] (in particular for every [c >= 0]), and is
    [t] again when the text is not a number. *)
Theorem track_credits_adds_parsed_charge
    (calls : list CreditTrackerNode.call) (net : network) (now : string)
    (credits_used model_name vault_url project_id : string) (unique_id : pyval) :
  CreditTrackerNode.parse_credits credits_used = Ok (parsed_charge credits_used)
  /\ fst (CreditTrackerNode.track_credits net now (CreditTrackerNode.run calls)
            credits_used model_name vault_url project_id unique_id)
     = match of_string credits_used with
       | Some c => fadd (CreditTrackerNode.run calls) c
       | None => CreditTrackerNode.run calls
       end.
Proof.
  split; [apply parse_credits_charge | ].
  rewrite track_credits_total. unfold parsed_charge.
  destruct (of_string credits_used); [reflexivity | ].
  apply FloatFacts.fadd_zero_r, run_not_neg_zero.
Qed.

(** C4, as stated, fails: for the charge [inf] the status is [offline]
    although the endpoint answers every request with status 200 and the
    network raises nothing.  [requests] refuses to encode the infinity
    and raises before it sends. *)
Lemma track_credits_offline_without_network_error :
  CreditTrackerNode.track_credits (answering 200) "2026-01-01T00:00:00"
    pos_zero "inf" "flux-schnell" "http://localhost:8080" "" VNone
  = (S754_infinity false, Ok ("inf", "offline")).
Proof. vm_compute. reflexivity. Qed.

(** C4, amended.  Every call of [track_credits] returns, with a status
    that is one of [reported], [local_only] and [offline].  The request
    is sent exactly when the parsed charge is finite and the node id holds
    no infinity and no NaN.  The status is [reported] exactly when the
    request is sent and the endpoint answers with status 200,
    [local_only] exactly when it is sent and answered with another
    status, [offline] exactly when it is not sent or the network raises;
    in every case the session total has grown by the parsed charge, and
    the first output is that total. *)
Theorem track_credits_status
    (net : network) (now : string) (session : float)
    (credits_used model_name vault_url project_id : string) (unique_id : pyval) :
  let credits := parsed_charge credits_used in
  let rq := CreditTrackerNode.usage_request credits model_name vault_url
              project_id now unique_id in
  let sent := is_finite credits && json_ready unique_id in
  exists status : string,
    CreditTrackerNode.track_credits net now session credits_used model_name
      vault_url project_id unique_id
    = (fadd session credits, Ok (format_4f (fadd session credits), status))
    /\ CreditTrackerNode.is_status status
    /\ (status = "reported"
        <-> sent = true /\ exists r, net rq = Answer r /\ status_code r = 200%Z)
    /\ (status = "local_only"
        <-> sent = true /\ exists r, net rq = Answer r /\ status_code r <> 200%Z)
    /\ (status = "offline" <-> sent = false \/ net rq = NoAnswer)
    /\ sent
       = json_ready (CreditTrackerNode.usage_payload credits model_name
                       project_id now unique_id).
Proof.
  intros credits rq sent.
  unfold CreditTrackerNode.track_credits.
  rewrite parse_credits_charge, report_status, usage_payload_ready.
  fold credits. fold rq. fold sent.
  unfold CreditTrackerNode.is_status.
  destruct sent.
  - destruct (net rq) as [r | ].
    + destruct (Z.eqb_spec (status_code r) 200) as [E | E]; eexists;
        (split; [reflexivity | ]).
      * repeat split; auto; try discriminate.
        -- exists r. auto.
        -- intros (_ & r' & [= <-] & H). contradiction.
        -- intros [H | H]; discriminate.
      * repeat split; auto; try discriminate.
        -- intros (_ & r' & [= <-] & H). contradiction.
        -- exists r. auto.
        -- intros [H | H]; discriminate.
    + eexists; split; [reflexivity | ].
      repeat split; auto; try discriminate.
      * intros (_ & r' & H & _). discriminate.
      * intros (_ & r' & H & _). discriminate.
  - eexists; split; [reflexivity | ].
    repeat split; auto; try discriminate.
    + intros (H & _). discriminate.
    + intros (H & _). discriminate.
Qed.


(** C5, as stated, fails: a charge that reads as a negative number takes
    the session total below zero. *)
Lemma session_total_negative_after_negative_charge :
  fle pos_zero
    (CreditTrackerNode.run
       [CreditTrackerNode.Track (fun _ => NoAnswer) "" "-5" "flux-schnell"
          "http://localhost:8080" "" VNone])
  = false.
Proof. vm_compute. reflexivity. Qed.

(** C5, amended.  Starting from [0.0], after every sequence of
    [reset_session_credits] calls and [track_credits] calls whose text is
    not a number or reads as a value [>= 0], the session total is [>= 0];
    a text that is not a number leaves the total as it was. *)
Theorem session_total_nonneg (calls : list CreditTrackerNode.call) :
  Forall CreditTrackerNode.nonneg_charge calls ->
  fle pos_zero (CreditTrackerNode.run calls) = true
  /\ forall net now credits_used model_name vault_url project_id unique_id,
       of_string credits_used = None ->
       CreditTrackerNode.step (CreditTrackerNode.run calls)
         (CreditTrackerNode.Track net now credits_used model_name vault_url
            project_id unique_id)
       = CreditTrackerNode.run calls.
Proof.
  intros Hall. split.
  - apply steps_nonneg; [assumption | reflexivity].
  - intros net now s m u p i Hs. cbn [CreditTrackerNode.step].
    rewrite track_credits_total. unfold parsed_charge. rewrite Hs.
    apply FloatFacts.fadd_zero_r, run_not_neg_zero.
Qed.

Lemma session_total_nonneg_witness :
  Forall CreditTrackerNode.nonneg_charge
    [CreditTrackerNode.Track (fun _ => NoAnswer) "" "0.0400" "flux-1.1-pro"
       "http://localhost:8080" "" VNone;
     CreditTrackerNode.Reset;
     CreditTrackerNode.Track (fun _ => NoAnswer) "" "n/a" "flux-1.1-pro"
       "http://localhost:8080" "" VNone]
  /\ fle pos_zero
       (CreditTrackerNode.run
          [CreditTrackerNode.Track (fun _ => NoAnswer) "" "0.0400" "flux-1.1-pro"
             "http://localhost:8080" "" VNone;
           CreditTrackerNode.Reset;
           CreditTrackerNode.Track (fun _ => NoAnswer) "" "n/a" "flux-1.1-pro"
             "http://localhost:8080" "" VNone])
     = true.
Proof.
  assert (Forall CreditTrackerNode.nonneg_charge
    [CreditTrackerNode.Track (fun _ => NoAnswer) "" "0.0400" "flux-1.1-pro"
       "http://localhost:8080" "" VNone;
     CreditTrackerNode.Reset;
     CreditTrackerNode.Track (fun _ => NoAnswer) "" "n/a" "flux-1.1-pro"
       "http://localhost:8080" "" VNone]) as H.
  { repeat constructor; cbn; intros x Hx; vm_compute in Hx;
      first [discriminate Hx | injection Hx as <-; reflexivity]. }
  split; [exact H | ].
  exact (proj1 (session_total_nonneg _ H)).
Defined.

(** * Credit estimates *)

Section Estimates.

Import FloatFacts.

Lemma fal_base_cost_cases (model : string) :
  In (FalProviderNode.base_cost_of model)
     [S754_finite false 7205759403792794 (-57);
      S754_finite false 5764607523034235 (-57);
      S754_finite false 6917529027641082 (-61);
      S754_finite false 5764607523034235 (-56);
      S754_finite false 5764607523034235 (-58);
      S754_finite false 5764607523034235 (-59)].
Proof.
  unfold FalProviderNode.base_cost_of, get_or, FalProviderNode.base_costs, assoc.
  repeat match goal with
         | |- context [if ?b then _ else _] => destruct b
         end;
    vm_compute; tauto.
Qed.

Lemma fal_base_cost_finite (model : string) :
  exists mb eb, FalProviderNode.base_cost_of model = S754_finite false mb eb.
Proof.
  pose proof (fal_base_cost_cases model) as H. cbn [In] in H.
  repeat destruct H as [H | H]; try contradiction; rewrite <- H; eauto.
Qed.

Lemma vertex_cost_cases (model : string) (width height : Z) :
  In (VertexProviderNode._estimate_credits model width height)
     [S754_finite false 5764607523034235 (-57);
      S754_finite false 5764607523034235 (-58);
      S754_finite false 4503599627370496 (-53)].
Proof.
  unfold VertexProviderNode._estimate_credits, get_or, VertexProviderNode.costs,
    assoc.
  repeat match goal with
         | |- context [if ?b then _ else _] => destruct b
         end;
    vm_compute; tauto.
Qed.

Lemma fal_estimate_exact (model : string) (width height : Z) :
  (0 < width * height < 2 ^ 53)%Z ->
  FalProviderNode._estimate_credits model width height
  = Ok (fmul (FalProviderNode.base_cost_of model) (ratio_of (width * height))).
Proof.
  intros Hp. unfold FalProviderNode._estimate_credits.
  rewrite int_truediv_pixels by assumption. reflexivity.
Qed.

Lemma fmul_pos_nonneg (mb : positive) (eb : Z) (m : positive) (e : Z) :
  fle pos_zero (fmul (S754_finite false mb eb) (S754_finite false m e)) = true.
Proof.
  unfold fmul, SFmul. cbn [xorb]. apply signed_nonneg.
  apply binary_round_aux_shape. lia.
Qed.

Local Open Scope Z_scope.

Lemma int_truediv_pos (q : positive) (x : float) :
  int_truediv (Zpos q) (1024 * 1024) = Ok x ->
  exists m e,
    x = S754_finite false m e /\ Zdigits2 (Zpos m) = prec
    /\ fdiv (S754_finite false q 0) (S754_finite false 1048576 0) = x.
Proof.
  unfold int_truediv. change (1024 * 1024 =? 0) with false. cbv iota.
  change (1024 * 1024) with 1048576. cbn [of_Z].
  destruct (fdiv_pixels_shape q) as [-> | (m & e & -> & Hd)]; cbv iota;
    [discriminate | ].
  intros [= <-]. exists m, e. auto.
Qed.

Lemma int_truediv_neg (q : positive) (x : float) :
  int_truediv (Zneg q) (1024 * 1024) = Ok x ->
  exists m e,
    x = S754_finite true m e /\ Zdigits2 (Zpos m) = prec
    /\ fdiv (S754_finite false q 0) (S754_finite false 1048576 0)
       = S754_finite false m e.
Proof.
  unfold int_truediv. change (1024 * 1024 =? 0) with false. cbv iota.
  change (1024 * 1024) with 1048576. cbn [of_Z]. rewrite fdiv_neg.
  destruct (fdiv_pixels_shape q) as [-> | (m & e & -> & Hd)];
    cbn [SFopp negb]; cbv iota; [discriminate | ].
  intros [= <-]. exists m, e. auto.
Qed.

Lemma fmul_ratio_mono (mb : positive) (eb : Z) (q1 q2 m1 m2 : positive) (e1 e2 : Z) :
  (q1 <= q2)%positive ->
  fdiv (S754_finite false q1 0) (S754_finite false 1048576 0)
  = S754_finite false m1 e1 ->
  fdiv (S754_finite false q2 0) (S754_finite false 1048576 0)
  = S754_finite false m2 e2 ->
  Zdigits2 (Zpos m1) = prec -> Zdigits2 (Zpos m2) = prec ->
  fle (fmul (S754_finite false mb eb) (S754_finite false m1 e1))
      (fmul (S754_finite false mb eb) (S754_finite false m2 e2)) = true.
Proof.
  intros Hle E1 E2 D1 D2.
  pose proof (fdiv_pixels_mono q1 q2 Hle) as Hm. rewrite E1, E2 in Hm.
  apply fmul_mono; try lia.
  apply (SFleb_normal_dyadic prec prec_pos); assumption.
Qed.

Lemma fmul_signed (mb : positive) (eb : Z) (s : bool) (m : positive) (e : Z) :
  signed_in_range prec emax s
    (fmul (S754_finite false mb eb) (S754_finite s m e)).
Proof. apply binary_round_aux_shape. lia. Qed.

(** The Fal estimate grows with the pixel count, for all integers. *)
Lemma fal_estimate_mono_all (model : string) (w1 h1 w2 h2 : Z) (v1 v2 : float) :
  w1 * h1 <= w2 * h2 ->
  FalProviderNode._estimate_credits model w1 h1 = Ok v1 ->
  FalProviderNode._estimate_credits model w2 h2 = Ok v2 ->
  fle v1 v2 = true.
Proof.
  unfold FalProviderNode._estimate_credits.
  destruct (fal_base_cost_finite model) as (mb & eb & ->).
  generalize (w1 * h1) (w2 * h2). intros p1 p2 Hle.
  destruct (int_truediv p1 (1024 * 1024)) as [x1 | ] eqn:E1; [ | discriminate].
  destruct (int_truediv p2 (1024 * 1024)) as [x2 | ] eqn:E2; [ | discriminate].
  cbn [bind]. intros [= <-] [= <-].
  destruct p1 as [ | q1 | q1]; destruct p2 as [ | q2 | q2]; try lia.
  - injection E1 as <-. injection E2 as <-. reflexivity.
  - injection E1 as <-.
    destruct (int_truediv_pos q2 x2 E2) as (m2 & e2 & -> & _).
    apply (fmul_pos_nonneg mb eb m2 e2).
  - destruct (int_truediv_pos q1 x1 E1) as (m1 & e1 & -> & D1 & F1).
    destruct (int_truediv_pos q2 x2 E2) as (m2 & e2 & -> & D2 & F2).
    apply (fmul_ratio_mono mb eb q1 q2); assumption || lia.
  - injection E2 as <-.
    destruct (int_truediv_neg q1 x1 E1) as (m1 & e1 & -> & _).
    apply SFleb_signs; [apply (fmul_signed mb eb true) | reflexivity].
  - destruct (int_truediv_neg q1 x1 E1) as (m1 & e1 & -> & _).
    destruct (int_truediv_pos q2 x2 E2) as (m2 & e2 & -> & _).
    apply SFleb_signs; [apply (fmul_signed mb eb true) | apply fmul_signed].
  - destruct (int_truediv_neg q1 x1 E1) as (m1 & e1 & -> & D1 & F1).
    destruct (int_truediv_neg q2 x2 E2) as (m2 & e2 & -> & D2 & F2).
    pose proof (fmul_neg mb eb m1 e1) as N1. pose proof (fmul_neg mb eb m2 e2) as N2.
    unfold fle, fmul, SFmul in *. cbn [xorb] in *. rewrite N1, N2.
    apply SFleb_opp.
    apply (fmul_ratio_mono mb eb q2 q1); assumption || lia.
Qed.

(** Below [2^53] pixels in absolute value the Fal estimate is returned. *)
Lemma fal_estimate_returns (model : string) (width height : Z) :
  - 2 ^ 53 < width * height < 2 ^ 53 ->
  exists v, FalProviderNode._estimate_credits model width height = Ok v.
Proof.
  intros Hp. unfold FalProviderNode._estimate_credits.
  destruct (width * height) as [ | q | q] eqn:E.
  - eexists. reflexivity.
  - rewrite int_truediv_pixels by lia. eexists. reflexivity.
  - unfold int_truediv. change (1024 * 1024 =? 0) with false. cbv iota.
    change (1024 * 1024) with 1048576. cbn [of_Z]. rewrite fdiv_neg.
    pose proof (int_truediv_pixels (Zpos q) ltac:(lia)) as Hq.
    unfold int_truediv in Hq. change (1024 * 1024 =? 0) with false in Hq.
    cbv iota in Hq. change (1024 * 1024) with 1048576 in Hq. cbn [of_Z] in Hq.
    destruct (fdiv (S754_finite false q 0) (S754_finite false 1048576 0));
      try discriminate; eexists; reflexivity.
Qed.

End Estimates.

(** C6, as stated, fails for the Vertex adapter: at 2048 x 2048 the
    estimate for [imagen-4] is the base cost itself, not four times it. *)
Lemma vertex_estimate_not_scaled :
  Ok (VertexProviderNode._estimate_credits "imagen-4" 2048 2048)
  <> scaled_estimate (get_or VertexProviderNode.costs "imagen-4"
                        (of_decimal false 2 (-2))) 2048 2048.
Proof. vm_compute. discriminate. Qed.

(** C6, amended.  The Fal estimate of every model at all widths and
    heights is the model's base cost times [(width * height) /
    (1024 * 1024)], which at 1024 x 1024 is the base cost; the Vertex
    estimate is the model's flat cost whatever the width and the height. *)
Theorem estimate_credits_by_adapter (model : string) (width height : Z) :
  FalProviderNode._estimate_credits model width height
  = scaled_estimate (FalProviderNode.base_cost_of model) width height
  /\ FalProviderNode._estimate_credits model 1024 1024
     = Ok (FalProviderNode.base_cost_of model)
  /\ VertexProviderNode._estimate_credits model width height
     = get_or VertexProviderNode.costs model (of_decimal false 2 (-2)).
Proof.
  split; [reflexivity | ]. split; [ | reflexivity].
  pose proof (fal_base_cost_cases model) as H. cbn [In] in H.
  unfold FalProviderNode._estimate_credits.
  repeat destruct H as [H | H]; try contradiction; rewrite <- H;
    vm_compute; reflexivity.
Qed.

(** C7.  For every model and all widths and heights with
    [w1 * h1 <= w2 * h2], whenever the two Fal estimates are returned the
    first is at most the second, and they are returned for every pixel
    count below [2^53] in absolute value (the node accepts widths and
    heights from 256 to 4096; the true division raises [OverflowError]
    only beyond the range of a float); the two Vertex estimates are equal.
    A model outside the cost table is estimated from the default base
    cost, [0.01] for Fal and [0.02] for Vertex, without raising. *)
Theorem estimate_credits_monotone (model : string) (w1 h1 w2 h2 : Z) :
  (w1 * h1 <= w2 * h2)%Z ->
  (forall v1 v2,
     FalProviderNode._estimate_credits model w1 h1 = Ok v1 ->
     FalProviderNode._estimate_credits model w2 h2 = Ok v2 ->
     fle v1 v2 = true)
  /\ ((- 2 ^ 53 < w1 * h1)%Z -> (w2 * h2 < 2 ^ 53)%Z ->
      exists v1 v2,
        FalProviderNode._estimate_credits model w1 h1 = Ok v1
        /\ FalProviderNode._estimate_credits model w2 h2 = Ok v2
        /\ fle v1 v2 = true)
  /\ fle (VertexProviderNode._estimate_credits model w1 h1)
         (VertexProviderNode._estimate_credits model w2 h2) = true
  /\ (assoc model FalProviderNode.base_costs = None ->
      FalProviderNode._estimate_credits model w1 h1
      = scaled_estimate (of_decimal false 1 (-2)) w1 h1)
  /\ (assoc model VertexProviderNode.costs = None ->
      VertexProviderNode._estimate_credits model w1 h1 = of_decimal false 2 (-2)).
Proof.
  intros Hle. split; [ | split; [ | split; [ | split]]].
  - intros v1 v2. apply fal_estimate_mono_all. assumption.
  - intros Hlo Hhi.
    destruct (fal_estimate_returns model w1 h1 ltac:(lia)) as (v1 & E1).
    destruct (fal_estimate_returns model w2 h2 ltac:(lia)) as (v2 & E2).
    exists v1, v2. repeat split; try assumption.
    apply (fal_estimate_mono_all model w1 h1 w2 h2); assumption.
  - pose proof (vertex_cost_cases model w1 h1) as H. cbn [In] in H.
    unfold VertexProviderNode._estimate_credits in *.
    repeat destruct H as [H | H]; try contradiction; rewrite <- H; reflexivity.
  - intros Hn. unfold FalProviderNode._estimate_credits,
      FalProviderNode.base_cost_of, get_or. rewrite Hn. reflexivity.
  - intros Hn. unfold VertexProviderNode._estimate_credits, get_or.
    rewrite Hn. reflexivity.
Qed.

Lemma estimate_credits_monotone_witness :
  (1024 * 1024 <= 2048 * 1536)%Z
  /\ (exists v1 v2,
        FalProviderNode._estimate_credits "custom-model" 1024 1024 = Ok v1
        /\ FalProviderNode._estimate_credits "custom-model" 2048 1536 = Ok v2
        /\ fle v1 v2 = true).
Proof.
  split; [lia | ].
  apply (proj1 (proj2 (estimate_credits_monotone "custom-model" 1024 1024 2048 1536
                         ltac:(lia)))); reflexivity.
Defined.

(** * Context retrieval and rendering *)

Section Context.

Import VaultContextNode.

Variable py_repr : pyval -> string.

Lemma text_get (d : list (string * pyval)) (k : string) :
  text_or_absent d k -> exists s, get_or d k (VStr "") = VStr s.
Proof.
  unfold text_or_absent, get_or.
  destruct (assoc k d) as [[ | | | | s | | ] | ]; try contradiction; eauto.
Qed.

Lemma keep_some_in {A B : Type} (g : A -> option B) (l : list A) (t : B) :
  In t (keep_some (map g l)) -> exists f, In f l /\ g f = Some t.
Proof.
  induction l as [ | a l IH]; cbn [map keep_some]; [contradiction | ].
  destruct (g a) as [b | ] eqn:E.
  - intros [<- | H].
    + exists a. split; [left; reflexivity | assumption].
    + destruct (IH H) as (f & Hf & Hg). exists f. split; [right | ]; assumption.
  - intros H. destruct (IH H) as (f & Hf & Hg).
    exists f. split; [right | ]; assumption.
Qed.

Lemma render_fragment_some (d : list (string * pyval)) (f : fragment) (t : string) :
  render_fragment py_repr d f = Some t ->
  exists v, assoc (fragment_attr f) d = Some v
            /\ py_truthy v = true /\ t = fragment_text py_repr f v.
Proof.
  unfold render_fragment, get_or.
  destruct (assoc (fragment_attr f) d) as [v | ].
  - destruct (py_truthy v) eqn:E; [ | discriminate].
    intros [= <-]. exists v. auto.
  - cbn. discriminate.
Qed.

(** The code builds what the table of fragments describes. *)
Lemma build_prompt_context_render (token_type : string)
    (d : list (string * pyval)) :
  text_attributes token_type d ->
  _build_prompt_context py_repr token_type (VDict d)
  = Ok (VStr (render py_repr token_type d)).
Proof.
  unfold text_attributes, plain_attributes.
  unfold _build_prompt_context, render, fragments_of, py_get, bind.
  destruct (token_type =? "character");
    [ | destruct (token_type =? "location");
        [ | destruct (token_type =? "prop")]];
    cbn [map filter is_plain fragment_attr app]; intros Htext;
    repeat match goal with
           | H : Forall _ (?k :: _) |- _ =>
               let s := fresh "s" in
               let E := fresh "E" in
               let Hk := fresh "Hk" in
               apply Forall_cons_iff in H; destruct H as [Hk H];
               destruct (text_get d k Hk) as (s & E)
           end;
    cbn [map keep_some render_fragment fragment_attr fragment_text];
    unfold render_fragment, append_if;
    cbn [fragment_attr fragment_text];
    repeat match goal with
           | E : get_or d _ _ = VStr _ |- _ => rewrite E; clear E
           end;
    repeat match goal with
           | |- context [py_truthy ?v] => destruct (py_truthy v)
           end;
    reflexivity.
Qed.

Lemma load_context_no_answer (net : network)
    (token_type token_name vault_url : string) (include_visuals : bool) :
  token_name <> "" ->
  net (token_request token_type token_name vault_url) = NoAnswer ->
  load_context py_repr net token_type token_name vault_url include_visuals
  = Ok empty_context.
Proof.
  intros Hname Hnet. unfold load_context.
  destruct (String.eqb_spec token_name ""); [contradiction | ].
  unfold requests_get, send. fold (token_request token_type token_name vault_url).
  rewrite Hnet. reflexivity.
Qed.

Lemma load_context_not_found (net : network)
    (token_type token_name vault_url : string) (include_visuals : bool)
    (r : response) :
  token_name <> "" ->
  net (token_request token_type token_name vault_url) = Answer r ->
  status_code r <> 200%Z ->
  load_context py_repr net token_type token_name vault_url include_visuals
  = Ok empty_context.
Proof.
  intros Hname Hnet Hst. unfold load_context.
  destruct (String.eqb_spec token_name ""); [contradiction | ].
  unfold requests_get, send. fold (token_request token_type token_name vault_url).
  rewrite Hnet. cbn [bind].
  destruct (Z.eqb_spec (status_code r) 200); [contradiction | ]. reflexivity.
Qed.

End Context.

(** C3.  For every token name that is not empty, [load_context] returns
    the same empty result when the Vault answers with a status other than
    200 and when the request raises: neither case raises, and the caller
    cannot tell them apart. *)
Theorem load_context_empty_when_unavailable
    (py_repr : pyval -> string) (net : network)
    (token_type token_name vault_url : string) (include_visuals : bool) :
  token_name <> "" ->
  (net (VaultContextNode.token_request token_type token_name vault_url) = NoAnswer
   \/ exists r,
        net (VaultContextNode.token_request token_type token_name vault_url)
        = Answer r /\ status_code r <> 200%Z) ->
  VaultContextNode.load_context py_repr net token_type token_name vault_url
    include_visuals
  = Ok (VStr "", VStr "", VStr "").
Proof.
  intros Hname [Hnet | (r & Hnet & Hst)].
  - apply load_context_no_answer; assumption.
  - apply (load_context_not_found py_repr net _ _ _ _ r); assumption.
Qed.

Lemma load_context_empty_when_unavailable_witness :
  "Ana" <> ""
  /\ VaultContextNode.load_context (fun _ => "") (fun _ => NoAnswer)
       "character" "Ana" "http://localhost:8080" true
     = Ok (VStr "", VStr "", VStr "")
  /\ VaultContextNode.load_context (fun _ => "")
       (fun _ => Answer {| status_code := 404; content := ""; json_body := None |})
       "character" "Ana" "http://localhost:8080" true
     = Ok (VStr "", VStr "", VStr "").
Proof.
  split; [discriminate | ]. split.
  - apply load_context_empty_when_unavailable; [discriminate | ].
    left. reflexivity.
  - apply load_context_empty_when_unavailable; [discriminate | ].
    right. eexists. split; [reflexivity | ]. cbn. discriminate.
Defined.

(** C8.  The character token of Ana renders as
    ["Ana, 30 years old, tall, wearing red coat"].  For every token type
    and every token whose plainly appended attributes hold text (for a
    character: the appearance and the description), the context is the
    rendering of the type's list of fragments: the name, then, in the
    order of the list, the text of every fragment whose attribute is
    truthy in the token and of no other, joined by a comma and a space. *)
Theorem prompt_context_rendering (py_repr : pyval -> string) :
  VaultContextNode._build_prompt_context py_repr "character"
    (VDict [("name", VStr "Ana"); ("age", VInt 30); ("appearance", VStr "tall");
            ("clothing", VStr "red coat")])
  = Ok (VStr "Ana, 30 years old, tall, wearing red coat")
  /\ forall (token_type : string) (d : list (string * pyval)),
       VaultContextNode.text_attributes token_type d ->
       VaultContextNode._build_prompt_context py_repr token_type (VDict d)
       = Ok (VStr (VaultContextNode.render py_repr token_type d))
       /\ VaultContextNode.render py_repr token_type d
          = String.concat ", "
              (VaultContextNode.py_str py_repr (get_or d "name" (VStr ""))
               :: VaultContextNode.keep_some
                    (map (VaultContextNode.render_fragment py_repr d)
                         (VaultContextNode.fragments_of token_type)))
       /\ (forall f,
             VaultContextNode.render_fragment py_repr d f
             = let v := get_or d (VaultContextNode.fragment_attr f) (VStr "") in
               if py_truthy v
               then Some (VaultContextNode.fragment_text py_repr f v)
               else None)
       /\ forall t,
            In t (VaultContextNode.keep_some
                    (map (VaultContextNode.render_fragment py_repr d)
                         (VaultContextNode.fragments_of token_type))) ->
            exists f v,
              In f (VaultContextNode.fragments_of token_type)
              /\ assoc (VaultContextNode.fragment_attr f) d = Some v
              /\ py_truthy v = true
              /\ t = VaultContextNode.fragment_text py_repr f v.
Proof.
  split; [reflexivity | ].
  intros token_type d Hd.
  split; [apply build_prompt_context_render; assumption | ].
  split; [reflexivity | ]. split; [reflexivity | ].
  intros t Ht.
  destruct (keep_some_in _ _ _ Ht) as (f & Hf & Hr).
  destruct (render_fragment_some py_repr d f t Hr) as (v & Hv & Htr & Ht').
  exists f, v. auto.
Qed.

Lemma prompt_context_rendering_witness :
  VaultContextNode.text_attributes "location"
    [("name", VStr "Harbour"); ("setting", VStr "old docks");
     ("time_of_day", VStr "dusk"); ("weather", VStr "")]
  /\ VaultContextNode._build_prompt_context (fun _ => "") "location"
       (VDict [("name", VStr "Harbour"); ("setting", VStr "old docks");
               ("time_of_day", VStr "dusk"); ("weather", VStr "")])
     = Ok (VStr "Harbour, old docks, during dusk").
Proof.
  assert (VaultContextNode.text_attributes "location"
            [("name", VStr "Harbour"); ("setting", VStr "old docks");
             ("time_of_day", VStr "dusk"); ("weather", VStr "")]) as H.
  { repeat constructor. }
  split; [exact H | ].
  apply (proj1 (proj2 (prompt_context_rendering (fun _ => "")) "location" _ H)).
Defined.

(** * Saving to the Vault *)

Section Disk.

Lemma more_dirs_refl (fs : filesystem) : more_dirs fs fs.
Proof. unfold more_dirs. auto. Qed.

Lemma more_dirs_trans (fs1 fs2 fs3 : filesystem) :
  more_dirs fs1 fs2 -> more_dirs fs2 fs3 -> more_dirs fs1 fs3.
Proof.
  unfold more_dirs. intros (F1 & R1 & M1 & O1 & D1) (F2 & R2 & M2 & O2 & D2).
  repeat split; try congruence. auto.
Qed.

Lemma more_dirs_read (fs fs' : filesystem) (p : string) :
  more_dirs fs fs' -> read_file fs' p = read_file fs p.
Proof.
  intros (F & R & _). unfold read_file. rewrite F, R. reflexivity.
Qed.

Lemma mkdir_exist_ok_more (name : string) (fs : filesystem) :
  more_dirs fs (fst (mkdir_exist_ok name fs)).
Proof.
  unfold mkdir_exist_ok.
  destruct (is_dir fs name); [apply more_dirs_refl | ].
  destruct (fs_mkdir fs name); [apply more_dirs_refl | ].
  cbn [fst]. unfold more_dirs. cbn. repeat split.
  intros p Hp. unfold is_dir in *. cbn [fs_dirs fs_resolve existsb].
  rewrite Hp. apply orb_true_r.
Qed.

Lemma mkdir_exist_ok_made (name : string) (fs : filesystem) :
  snd (mkdir_exist_ok name fs) = Ok tt ->
  is_dir (fst (mkdir_exist_ok name fs)) name = true.
Proof.
  unfold mkdir_exist_ok.
  destruct (is_dir fs name) eqn:E; [intros _; exact E | ].
  destruct (fs_mkdir fs name); [discriminate | ].
  intros _. unfold is_dir. cbn [fst fs_dirs fs_resolve existsb].
  rewrite String.eqb_refl. reflexivity.
Qed.

Lemma makedirs_chain_more (names : list string) (fs : filesystem) :
  more_dirs fs (fst (makedirs_chain names fs)).
Proof.
  induction names as [ | name above IH]; cbn [makedirs_chain].
  - apply more_dirs_refl.
  - destruct above as [ | head above']; [apply mkdir_exist_ok_more | ].
    destruct (path_exists fs head); [apply mkdir_exist_ok_more | ].
    destruct (makedirs_chain (head :: above') fs) as [fs1 made].
    cbn [fst] in IH.
    destruct made as [u | e]; [ | exact IH].
    destruct (last_component name =? ".")%string; cbn [fst]; [exact IH | ].
    apply (more_dirs_trans _ _ _ IH), mkdir_exist_ok_more.
Qed.

Lemma makedirs_more (path : string) (fs : filesystem) :
  more_dirs fs (fst (makedirs path fs)).
Proof. apply makedirs_chain_more. Qed.

(** After [os.makedirs] has returned, the directory exists. *)
Lemma makedirs_made (path : string) (fs : filesystem) :
  snd (makedirs path fs) = Ok tt -> (last_component path =? ".")%string = false ->
  is_dir (fst (makedirs path fs)) path = true.
Proof.
  unfold makedirs. cbv zeta. cbn [makedirs_chain]. intros Hok Hb.
  destruct (ancestors _ _) as [ | head above];
    [apply mkdir_exist_ok_made, Hok | ].
  destruct (path_exists fs head); [apply mkdir_exist_ok_made, Hok | ].
  destruct (makedirs_chain (head :: above) fs) as [fs1 made].
  destruct made as [u | e]; [ | discriminate Hok].
  rewrite Hb in *. apply mkdir_exist_ok_made, Hok.
Qed.

Lemma read_file_written (path data p : string) (fs1 fs2 : filesystem) :
  write_file path data fs1 = Ok fs2 ->
  fs_resolve fs1 p <> fs_resolve fs1 path ->
  read_file fs2 p = read_file fs1 p.
Proof.
  unfold write_file. destruct (fs_open fs1 path); [discriminate | ].
  intros [= <-] Hp. unfold read_file. cbn [fs_files fs_resolve assoc].
  destruct (String.eqb_spec (fs_resolve fs1 path) (fs_resolve fs1 p));
    [congruence | reflexivity].
Qed.

Lemma read_file_own (path data : string) (fs1 fs2 : filesystem) :
  write_file path data fs1 = Ok fs2 -> read_file fs2 path = Some data.
Proof.
  unfold write_file. destruct (fs_open fs1 path); [discriminate | ].
  intros [= <-]. unfold read_file. cbn [fs_files fs_resolve assoc].
  rewrite String.eqb_refl. reflexivity.
Qed.

Lemma written_keeps (path data : string) (fs1 fs2 : filesystem) :
  write_file path data fs1 = Ok fs2 ->
  fs_dirs fs2 = fs_dirs fs1 /\ fs_resolve fs2 = fs_resolve fs1
  /\ fs_mkdir fs2 = fs_mkdir fs1 /\ fs_open fs2 = fs_open fs1.
Proof.
  unfold write_file. destruct (fs_open fs1 path); [discriminate | ].
  intros [= <-]. auto.
Qed.

End Disk.

Section Save.

Import VaultSaveNode.

Context {Tensor Pil : Type} (cd : codec Tensor Pil).

Variables (net : network) (uuid4 home : string) (fs : filesystem) (image : Tensor).
Variables (token_type token_name vault_url description tags : string).
Variable pil_image : Pil.
Hypothesis Hpil : to_pil cd image = Ok pil_image.

Let asset_id : string := substring 0 8 uuid4.
Let filename : string := filename_of token_type token_name asset_id.
Let rq : request :=
  upload_request filename (b64encode cd (png_bytes cd pil_image)) token_type
    token_name vault_url description tags.

(** The upload holds text only: [requests] never refuses to encode it. *)
Lemma upload_payload_ready (name img_b64 : string) :
  json_ready (upload_payload name img_b64 token_type token_name description tags)
  = true.
Proof.
  unfold upload_payload. cbn [json_ready forallb snd andb].
  rewrite Bool.andb_true_r. apply forallb_forall. intros v Hv.
  unfold tag_list in Hv. apply in_map_iff in Hv. destruct Hv as (t & <- & _).
  reflexivity.
Qed.

(** The upload, as the answer of the remote side decides it. *)
Lemma upload_sent :
  upload net filename (b64encode cd (png_bytes cd pil_image)) asset_id
    token_type token_name vault_url description tags
  = (response <- send net rq ;;
     if (status_code response =? 200)%Z then
       res <- json response ;; py_get res "id" (VStr asset_id)
     else Ok (local_id asset_id)).
Proof.
  unfold upload, requests_post. rewrite upload_payload_ready. reflexivity.
Qed.

(** The store accepts the write and names the asset. *)
Lemma save_accepted (r : response) (d : list (string * pyval)) :
  net rq = Answer r -> status_code r = 200%Z -> json_body r = Some (VDict d) ->
  save_to_vault cd net uuid4 home fs image token_type token_name vault_url
    description tags
  = (fs, Ok (get_or d "id" (VStr asset_id), image)).
Proof.
  intros Hnet Hst Hbody. unfold save_to_vault. rewrite Hpil.
  fold asset_id. fold filename. rewrite upload_sent. unfold send.
  rewrite Hnet. cbn [bind].
  rewrite Hst. cbn [Z.eqb Pos.eqb]. unfold json. rewrite Hbody. reflexivity.
Qed.

(** The store answers with another status: the id is local, the disk is
    left as it was. *)
Lemma save_rejected (r : response) :
  net rq = Answer r -> status_code r <> 200%Z ->
  save_to_vault cd net uuid4 home fs image token_type token_name vault_url
    description tags
  = (fs, Ok (local_id asset_id, image)).
Proof.
  intros Hnet Hst. unfold save_to_vault. rewrite Hpil.
  fold asset_id. fold filename. rewrite upload_sent. unfold send.
  rewrite Hnet. cbn [bind].
  destruct (Z.eqb_spec (status_code r) 200); [contradiction | ]. reflexivity.
Qed.

(** The upload raises one of the exceptions of [requests]: the call is
    what making the directory and writing the file give. *)
Lemma save_fallback (e : exn) :
  upload net filename (b64encode cd (png_bytes cd pil_image)) asset_id
    token_type token_name vault_url description tags = Raise e ->
  is_request_exception e = true ->
  save_to_vault cd net uuid4 home fs image token_type token_name vault_url
    description tags
  = match makedirs (dirname (local_path_of home filename)) fs with
    | (fs1, Raise e1) => (fs1, Raise e1)
    | (fs1, Ok _) =>
        match write_file (local_path_of home filename) (png_bytes cd pil_image)
                fs1 with
        | Raise e2 => (fs1, Raise e2)
        | Ok fs2 => (fs2, Ok (local_id asset_id, image))
        end
    end.
Proof.
  intros Hu He. unfold save_to_vault. rewrite Hpil.
  fold asset_id. fold filename. rewrite Hu, He. reflexivity.
Qed.

(** The directory is made and the file is opened: the id is local and
    the file is on the disk, under its directory. *)
Lemma save_fallback_written (e : exn) :
  upload net filename (b64encode cd (png_bytes cd pil_image)) asset_id
    token_type token_name vault_url description tags = Raise e ->
  is_request_exception e = true ->
  snd (makedirs (dirname (local_path_of home filename)) fs) = Ok tt ->
  fs_open fs (local_path_of home filename) = None ->
  exists fs',
    save_to_vault cd net uuid4 home fs image token_type token_name vault_url
      description tags
    = (fs', Ok (local_id asset_id, image))
    /\ read_file fs' (local_path_of home filename) = Some (png_bytes cd pil_image)
    /\ (forall p,
          fs_resolve fs p <> fs_resolve fs (local_path_of home filename) ->
          read_file fs' p = read_file fs p)
    /\ ((last_component (dirname (local_path_of home filename)) =? ".") = false ->
        is_dir fs' (dirname (local_path_of home filename)) = true).
Proof.
  intros Hu He Hm Ho. rewrite (save_fallback e Hu He).
  pose proof (makedirs_more (dirname (local_path_of home filename)) fs) as Hmore.
  pose proof (makedirs_made (dirname (local_path_of home filename)) fs Hm) as Hmade.
  destruct (makedirs (dirname (local_path_of home filename)) fs) as [fs1 made].
  cbn [fst snd] in *. subst made.
  destruct Hmore as (F1 & R1 & M1 & O1 & D1).
  destruct (write_file (local_path_of home filename) (png_bytes cd pil_image) fs1)
    as [fs2 | e2] eqn:E2.
  - exists fs2. split; [reflexivity | ]. split; [ | split].
    + apply (read_file_own _ _ _ _ E2).
    + intros p Hp. rewrite (read_file_written _ _ p _ _ E2).
      * unfold read_file. rewrite F1, R1. reflexivity.
      * rewrite R1. exact Hp.
    + intros Hb. destruct (written_keeps _ _ _ _ E2) as (D2 & R2 & _).
      unfold is_dir. rewrite D2, R2. apply Hmade, Hb.
  - unfold write_file in E2. rewrite O1, Ho in E2. discriminate.
Qed.

(** The request raises: the id is local and the file is on the disk. *)
Lemma save_no_answer :
  net rq = NoAnswer ->
  snd (makedirs (dirname (local_path_of home filename)) fs) = Ok tt ->
  fs_open fs (local_path_of home filename) = None ->
  exists fs',
    save_to_vault cd net uuid4 home fs image token_type token_name vault_url
      description tags
    = (fs', Ok (local_id asset_id, image))
    /\ read_file fs' (local_path_of home filename) = Some (png_bytes cd pil_image).
Proof.
  intros Hnet Hm Ho.
  assert (upload net filename (b64encode cd (png_bytes cd pil_image)) asset_id
            token_type token_name vault_url description tags
          = Raise RequestException) as Hu.
  { rewrite upload_sent. unfold send. rewrite Hnet. reflexivity. }
  destruct (save_fallback_written RequestException Hu eq_refl Hm Ho)
    as (fs' & E & Hr & _).
  exists fs'. split; assumption.
Qed.

Lemma save_returns_input (fs' : filesystem) (saved_id : pyval) (img : Tensor) :
  save_to_vault cd net uuid4 home fs image token_type token_name vault_url
    description tags
  = (fs', Ok (saved_id, img)) ->
  img = image.
Proof.
  unfold save_to_vault. rewrite Hpil.
  destruct (upload _ _ _ _ _ _ _ _ _) as [v | e].
  - intros [= _ _ <-]. reflexivity.
  - destruct (is_request_exception e); [ | discriminate].
    destruct (makedirs _ _) as [fs1 [u | e1]]; [ | discriminate].
    destruct (write_file _ _ _) as [fs2 | e2]; [ | discriminate].
    intros [= _ _ <-]. reflexivity.
Qed.

End Save.

(** C2, at a failing input.  The Vault answers the upload with status 500:
    [save_to_vault] returns the id ["local:3f2b8c1e"], and the disk holds
    no file afterwards, neither at the local path nor elsewhere. *)
Theorem save_to_vault_rejected_upload_not_written :
  let out :=
    VaultSaveNode.save_to_vault text_codec (answering 500)
      "3f2b8c1e-7d4a-4c1b-9e2f-5a6b7c8d9e0f" "/home/ana" empty_disk "PNG"
      "shot" "" "http://localhost:8080" "" "" in
  snd out = Ok (VStr "local:3f2b8c1e", "PNG")
  /\ fst out = empty_disk
  /\ read_file (fst out) "/home/ana/CinemaOS/outputs/output_3f2b8c1e.png" = None.
Proof. vm_compute. repeat split. Qed.

(** The sibling path of C2: when the request raises instead, the same
    call leaves the file on the disk. *)
Lemma save_to_vault_offline_written :
  let out :=
    VaultSaveNode.save_to_vault text_codec (fun _ => NoAnswer)
      "3f2b8c1e-7d4a-4c1b-9e2f-5a6b7c8d9e0f" "/home/ana" empty_disk "PNG"
      "shot" "" "http://localhost:8080" "" "" in
  snd out = Ok (VStr "local:3f2b8c1e", "PNG")
  /\ read_file (fst out) "/home/ana/CinemaOS/outputs/output_3f2b8c1e.png"
     = Some "PNG"
  /\ is_dir (fst out) "/home/ana/CinemaOS/outputs" = true.
Proof. vm_compute. repeat split. Qed.

(** C10.  Whenever [save_to_vault] returns, its second output is the input
    image; and it does return, with that image, when the store accepts
    the write, when the store answers with another status, and when the
    request raises, the directory of the local path is made and the file
    is opened. *)
Theorem save_to_vault_passes_image
    {Tensor Pil : Type} (cd : codec Tensor Pil)
    (net : network) (uuid4 home : string) (fs : filesystem) (image : Tensor)
    (token_type token_name vault_url description tags : string) :
  (forall fs' saved_id img,
     VaultSaveNode.save_to_vault cd net uuid4 home fs image token_type token_name
       vault_url description tags
     = (fs', Ok (saved_id, img)) ->
     img = image)
  /\ forall pil_image,
       to_pil cd image = Ok pil_image ->
       let filename :=
         VaultSaveNode.filename_of token_type token_name (substring 0 8 uuid4) in
       let rq :=
         VaultSaveNode.upload_request filename
           (b64encode cd (png_bytes cd pil_image)) token_type token_name vault_url
           description tags in
       let local_path := VaultSaveNode.local_path_of home filename in
       ((exists r d,
           net rq = Answer r /\ status_code r = 200%Z
           /\ json_body r = Some (VDict d))
        \/ (exists r, net rq = Answer r /\ status_code r <> 200%Z)
        \/ (net rq = NoAnswer
            /\ snd (makedirs (dirname local_path) fs) = Ok tt
            /\ fs_open fs local_path = None)) ->
       exists fs' saved_id,
         VaultSaveNode.save_to_vault cd net uuid4 home fs image token_type
           token_name vault_url description tags
         = (fs', Ok (saved_id, image)).
Proof.
  split.
  - intros fs' saved_id img H.
    destruct (to_pil cd image) as [pil_image | e] eqn:Hpil.
    + apply (save_returns_input cd net uuid4 home fs image token_type token_name
               vault_url description tags pil_image Hpil fs' saved_id img H).
    + unfold VaultSaveNode.save_to_vault in H. rewrite Hpil in H. discriminate.
  - intros pil_image Hpil filename rq local_path
           [(r & d & Hnet & Hst & Hb) | [(r & Hnet & Hst) | (Hnet & Hm & Ho)]].
    + eexists; eexists. eapply save_accepted; eassumption.
    + eexists; eexists. eapply save_rejected; eassumption.
    + destruct (save_no_answer cd net uuid4 home fs image token_type token_name
                  vault_url description tags pil_image Hpil Hnet Hm Ho)
        as (fs' & E & _).
      eexists; eexists. exact E.
Qed.

Lemma save_to_vault_passes_image_witness :
  to_pil text_codec "PNG" = Ok "PNG"
  /\ (exists fs' saved_id,
        VaultSaveNode.save_to_vault text_codec (answering 503)
          "3f2b8c1e-7d4a-4c1b-9e2f-5a6b7c8d9e0f" "/home/ana" empty_disk "PNG"
          "character" "Ana" "http://localhost:8080" "portrait" "hero, night"
        = (fs', Ok (saved_id, "PNG")))
  /\ (exists fs' saved_id,
        VaultSaveNode.save_to_vault text_codec (fun _ => NoAnswer)
          "3f2b8c1e-7d4a-4c1b-9e2f-5a6b7c8d9e0f" "/home/ana" ana_disk "PNG"
          "character" "Ana" "http://localhost:8080" "portrait" "hero, night"
        = (fs', Ok (saved_id, "PNG"))).
Proof.
  split; [reflexivity | ]. split.
  - apply (proj2 (save_to_vault_passes_image text_codec (answering 503)
                    "3f2b8c1e-7d4a-4c1b-9e2f-5a6b7c8d9e0f" "/home/ana" empty_disk
                    "PNG" "character" "Ana" "http://localhost:8080" "portrait"
                    "hero, night") "PNG" eq_refl).
    right; left. eexists. split; [reflexivity | ]. cbn. discriminate.
  - apply (proj2 (save_to_vault_passes_image text_codec (fun _ => NoAnswer)
                    "3f2b8c1e-7d4a-4c1b-9e2f-5a6b7c8d9e0f" "/home/ana" ana_disk
                    "PNG" "character" "Ana" "http://localhost:8080" "portrait"
                    "hero, night") "PNG" eq_refl).
    right; right. split; [reflexivity | ]. split; vm_compute; reflexivity.
Defined.

(** * Model resolution in the adapters *)

Section Adapters.

Context {Tensor Pil : Type} (cd : codec Tensor Pil).




End Adapters.




(** * Rounding without overflow, and valid results *)

Section Overflow.

Import FloatFacts.
Local Open Scope Z_scope.

Lemma shr_1_half (mrs : shr_record) :
  0 <= shr_m mrs -> shr_m (shr_1 mrs) = shr_m mrs / 2.
Proof.
  destruct mrs as [m r s]. cbn [shr_m]. intros Hm.
  destruct m as [ | [p | p | ] | p]; cbn [shr_1 shr_m]; [reflexivity | | | | lia].
  - change (Zpos p~1) with (2 * Zpos p + 1).
    rewrite (Z.mul_comm 2), Z.div_add_l by lia. reflexivity.
  - change (Zpos p~0) with (2 * Zpos p).
    rewrite (Z.mul_comm 2), Z.div_mul by lia. reflexivity.
  - reflexivity.
Qed.

Lemma shr_iter_half (j : nat) (mrs : shr_record) :
  0 <= shr_m mrs ->
  shr_m (Nat.iter j shr_1 mrs) = shr_m mrs / 2 ^ Z.of_nat j.
Proof.
  intros Hm. induction j as [ | j IH].
  - cbn. rewrite Z.div_1_r. reflexivity.
  - change (Nat.iter (S j) shr_1 mrs) with (shr_1 (Nat.iter j shr_1 mrs)).
    rewrite shr_1_half, IH.
    + rewrite Nat2Z.inj_succ, Z.pow_succ_r by lia.
      rewrite Z.div_div by (pose proof (pow2_pos (Z.of_nat j)); lia).
      f_equal. lia.
    + rewrite IH. apply Z.div_pos; [assumption | apply pow2_pos; lia].
Qed.

(** What [shr_fexp] leaves: the mantissa divided by a power of two, at the
    larger of the exponent and the canonical one. *)
Lemma shr_fexp_half (m e : Z) (l : location) :
  0 <= m ->
  exists k,
    0 <= k
    /\ shr_m (fst (shr_fexp prec emax m e l)) = m / 2 ^ k
    /\ snd (shr_fexp prec emax m e l) = e + k
    /\ e + k = Z.max e (Z.max (Zdigits2 m + e - 53) (-1074)).
Proof.
  intros Hm. unfold shr_fexp, shr. rewrite fexp_64.
  assert (shr_m (shr_record_of_loc m l) = m) as Hrec
    by (destruct l as [ | [ | | ]]; reflexivity).
  destruct (Z.max (Zdigits2 m + e - 53) (-1074) - e) as [ | p | p] eqn:E.
  - exists 0. cbn [fst snd]. rewrite Hrec, Z.div_1_r. lia.
  - exists (Zpos p). cbn [fst snd]. rewrite iter_pos_nat, shr_iter_half, Hrec.
    + rewrite positive_nat_Z. lia.
    + rewrite Hrec. exact Hm.
  - exists 0. cbn [fst snd]. rewrite Hrec, Z.div_1_r. lia.
Qed.

Lemma Zdigits2_le (a b : Z) : 0 <= a <= b -> Zdigits2 a <= Zdigits2 b.
Proof.
  intros [Ha Hab]. destruct (Z.eq_dec a 0) as [-> | Hne].
  - destruct b; cbn; lia.
  - pose proof (Zdigits2_bounds a ltac:(lia)) as [A1 _].
    pose proof (Zdigits2_bounds b ltac:(lia)) as [_ B2].
    assert (Zdigits2 a - 1 < Zdigits2 b); [ | lia].
    apply (Z.pow_lt_mono_r_iff 2); try lia.
    pose proof (Zdigits2_pos b ltac:(lia)). lia.
Qed.

Lemma Zdigits2_succ (m : Z) : 0 <= m -> Zdigits2 (m + 1) <= Zdigits2 m + 1.
Proof.
  intros Hm. destruct (Z.eq_dec m 0) as [-> | Hne]; [cbn; lia | ].
  rewrite <- (Zdigits2_shift m 1) by lia.
  apply Zdigits2_le. change (2 ^ 1) with 2. lia.
Qed.

Lemma round_nearest_even_step (m : Z) (l : location) :
  m <= round_nearest_even m l <= m + 1.
Proof.
  unfold round_nearest_even. destruct l as [ | [ | | ]]; try lia.
  destruct (Z.even m); lia.
Qed.

(** A value below [2^1023] at an exponent of binary64 does not round to
    an infinity. *)
Lemma binary_round_aux_finite (s s' : bool) (m e : Z) (l : location) :
  0 <= m -> e <= 971 -> Zdigits2 m + e <= 1023 ->
  binary_round_aux prec emax s m e l <> S754_infinity s'.
Proof.
  intros Hm He Hd. unfold binary_round_aux.
  destruct (shr_fexp_half m e l Hm) as (k1 & K1 & M1 & E1 & X1).
  destruct (shr_fexp prec emax m e l) as [mrs' e']. cbn [fst snd] in M1, E1.
  pose proof (round_nearest_even_step (shr_m mrs') (loc_of_shr_record mrs'))
    as [R1 R2].
  set (m1 := round_nearest_even (shr_m mrs') (loc_of_shr_record mrs')) in *.
  assert (0 <= shr_m mrs') as Hm'
    by (rewrite M1; apply Z.div_pos; [assumption | apply pow2_pos; lia]).
  assert (Zdigits2 m1 + e' <= 1024) as Hd1.
  { pose proof (Zdigits2_le m1 (shr_m mrs' + 1) ltac:(lia)) as D1.
    pose proof (Zdigits2_succ (shr_m mrs') Hm') as D2.
    destruct (Z.eq_dec (shr_m mrs') 0) as [Z0 | NZ].
    - rewrite Z0 in D1. change (Zdigits2 (0 + 1)) with 1 in D1. lia.
    - pose proof (Zdigits2_div_pow2 m k1 K1 ltac:(lia)) as D3.
      rewrite <- M1 in D3. lia. }
  destruct (shr_fexp_half m1 e' loc_Exact ltac:(lia)) as (k2 & K2 & M2 & E2 & X2).
  destruct (shr_fexp prec emax m1 e' loc_Exact) as [mrs'' e''].
  cbn [fst snd] in M2, E2.
  destruct (shr_m mrs''); try discriminate.
  destruct (Z.leb_spec e'' (emax - prec)) as [ | Hgt]; [discriminate | ].
  unfold emax, prec in Hgt. lia.
Qed.

Lemma SFdiv_core_bounds (mw mh : positive) (mz ez : Z) (lz : location) :
  SFdiv_core_binary prec emax (Zpos mw) 0 (Zpos mh) 0 = (mz, ez, lz) ->
  0 <= mz /\ ez <= 0 /\ Zdigits2 mz + ez <= Zdigits2 (Zpos mw).
Proof.
  unfold SFdiv_core_binary. cbv zeta. rewrite div_eucl_div_mod, fexp_64.
  set (e' := Z.min _ (0 - 0)).
  assert (e' <= 0) as He by (unfold e'; lia).
  clearbody e'.
  assert (match 0 - 0 - e' with
          | 0 => Zpos mw
          | Zpos _ => Z.shiftl (Zpos mw) (0 - 0 - e')
          | Zneg _ => 0
          end = Zpos mw * 2 ^ (- e')) as ->.
  { destruct (0 - 0 - e') eqn:E; try lia.
    - replace (- e') with 0 by lia. lia.
    - rewrite Z.shiftl_mul_pow2 by lia. f_equal. f_equal. lia. }
  intros E.
  pose proof (f_equal (fun t => fst (fst t)) E) as E1.
  pose proof (f_equal (fun t => snd (fst t)) E) as E2.
  cbn [fst snd] in E1, E2. subst mz ez. clear E.
  pose proof (pow2_pos (- e') ltac:(lia)) as Hpow.
  assert (0 <= Zpos mw * 2 ^ (- e') / Zpos mh) as Hq by (apply Z.div_pos; lia).
  split; [exact Hq | ]. split; [exact He | ].
  assert (Zpos mw * 2 ^ (- e') / Zpos mh <= Zpos mw * 2 ^ (- e')) as Hle.
  { apply Z.div_le_upper_bound; [lia | ]. nia. }
  pose proof (Zdigits2_le _ _ (conj Hq Hle)) as D.
  rewrite Zdigits2_shift in D by lia. lia.
Qed.

Lemma fdiv_finite (sw sh s' : bool) (mw mh : positive) :
  Zdigits2 (Zpos mw) <= 1023 ->
  fdiv (S754_finite sw mw 0) (S754_finite sh mh 0) <> S754_infinity s'.
Proof.
  intros Hd. unfold fdiv, SFdiv.
  destruct (SFdiv_core_binary prec emax (Zpos mw) 0 (Zpos mh) 0)
    as [[mz ez] lz] eqn:E.
  destruct (SFdiv_core_bounds mw mh mz ez lz E) as (H1 & H2 & H3).
  apply binary_round_aux_finite; lia.
Qed.

Lemma int_truediv_returns (a b : Z) :
  b <> 0 -> Z.abs a < 2 ^ 1023 -> exists q, int_truediv a b = Ok q.
Proof.
  intros Hb Ha. unfold int_truediv.
  destruct (Z.eqb_spec b 0); [contradiction | ].
  assert (forall m, Zpos m < 2 ^ 1023 -> Zdigits2 (Zpos m) <= 1023) as Hdig.
  { intros m Hm. pose proof (Zdigits2_bounds (Zpos m) ltac:(lia)) as [D1 _].
    assert (Zdigits2 (Zpos m) - 1 < 1023); [ | lia].
    apply (Z.pow_lt_mono_r_iff 2); lia. }
  destruct a as [ | ma | ma]; destruct b as [ | mb | mb]; try contradiction;
    cbn [of_Z];
    try (eexists; reflexivity);
    match goal with
    | |- context [fdiv (S754_finite ?sw ?mw 0) (S754_finite ?sh ?mh 0)] =>
        pose proof (fun s' => fdiv_finite sw sh s' mw mh (Hdig mw ltac:(lia))) as Hf;
        destruct (fdiv (S754_finite sw mw 0) (S754_finite sh mh 0)) as [ | s0 | | ];
        [eexists; reflexivity | exfalso; apply (Hf s0); reflexivity
        | eexists; reflexivity | eexists; reflexivity]
    end.
Qed.

End Overflow.

Section Valid.

Import FloatFacts.
Local Open Scope Z_scope.

(** A finite float of binary64 is valid when its exponent is the
    canonical one and is not above the largest. *)
Lemma valid_finite (s : bool) (m : positive) (e : Z) :
  valid_binary prec emax (S754_finite s m e) = true
  <-> Z.max (Zdigits2 (Zpos m) + e - 53) (-1074) = e /\ e <= 971.
Proof.
  cbn [valid_binary]. unfold bounded, canonical_mantissa.
  change (Zpos (digits2_pos m)) with (Zdigits2 (Zpos m)). rewrite fexp_64.
  rewrite andb_true_iff, Z.eqb_eq, Z.leb_le. unfold emax, prec. lia.
Qed.

Lemma quotient_pos (m k : Z) :
  0 < m -> 0 <= k <= Zdigits2 m - 1 -> 0 < m / 2 ^ k.
Proof.
  intros Hm Hk. pose proof (Zdigits2_bounds m Hm) as [Dlo _].
  apply Z.div_str_pos. split; [apply pow2_pos; lia | ].
  apply Z.le_trans with (2 := Dlo). apply Z.pow_le_mono_r; lia.
Qed.

(** Rounding a mantissa that has its digits yields a valid float,
    whatever was lost below it. *)
Lemma binary_round_aux_valid (s : bool) (m e : Z) (l : location) :
  0 <= m -> e <= Z.max (Zdigits2 m + e - 53) (-1074) ->
  valid_binary prec emax (binary_round_aux prec emax s m e l) = true.
Proof.
  intros Hm He. unfold binary_round_aux.
  destruct (shr_fexp_half m e l Hm) as (k1 & K1 & M1 & E1 & X1).
  destruct (shr_fexp prec emax m e l) as [mrs' e']. cbn [fst snd] in M1, E1.
  pose proof (round_nearest_even_step (shr_m mrs') (loc_of_shr_record mrs'))
    as [R1 R2].
  set (m1 := round_nearest_even (shr_m mrs') (loc_of_shr_record mrs')) in *.
  assert (0 <= shr_m mrs') as Hm'
    by (rewrite M1; apply Z.div_pos; [assumption | apply pow2_pos; lia]).
  destruct (shr_fexp_half m1 e' loc_Exact ltac:(lia)) as (k2 & K2 & M2 & E2 & X2).
  destruct (shr_fexp prec emax m1 e' loc_Exact) as [mrs'' e''].
  cbn [fst snd] in M2, E2.
  destruct (shr_m mrs'') as [ | q | q] eqn:Eq; try reflexivity.
  destruct (Z.leb_spec e'' (emax - prec)) as [Hle | Hgt]; [ | reflexivity].
  apply valid_finite. unfold emax, prec in Hle. split; [ | lia].
  assert (0 < m1 / 2 ^ k2) as Hq by lia.
  pose proof (Zdigits2_div_pow2 m1 k2 K2 Hq) as D2. rewrite <- M2 in D2.
  destruct (Z.eq_dec k2 0) as [Z2 | NZ2]; [ | lia].
  destruct (Z.eq_dec e' (-1074)) as [Emin | Enot]; [lia | ].
  assert (0 < m) as Hmpos.
  { destruct (Z.eq_dec m 0) as [-> | ]; [ | lia].
    change (Zdigits2 0) with 0 in *. lia. }
  pose proof (Zdigits2_pos m Hmpos) as Dpos.
  assert (0 < m / 2 ^ k1) as Hq1 by (apply quotient_pos; lia).
  pose proof (Zdigits2_div_pow2 m k1 K1 Hq1) as D1. rewrite <- M1 in D1.
  pose proof (Zdigits2_le (shr_m mrs') m1 ltac:(lia)) as D3.
  lia.
Qed.

(** The quotient of two integers, as [SFdiv] prepares it, has its
    digits. *)
Lemma SFdiv_core_aligned (mw mh : positive) (mz ez : Z) (lz : location) :
  SFdiv_core_binary prec emax (Zpos mw) 0 (Zpos mh) 0 = (mz, ez, lz) ->
  0 <= mz /\ ez <= Z.max (Zdigits2 mz + ez - 53) (-1074).
Proof.
  intros E. destruct (SFdiv_core_bounds mw mh mz ez lz E) as (Hmz & Hez & _).
  split; [exact Hmz | ].
  revert E. unfold SFdiv_core_binary. cbv zeta.
  rewrite div_eucl_div_mod, fexp_64.
  set (dw := Zdigits2 (Zpos mw)). set (dh := Zdigits2 (Zpos mh)).
  set (e' := Z.min _ (0 - 0)).
  assert (e' = Z.min (Z.max (dw - dh - 53) (-1074)) 0) as He'
    by (unfold e'; f_equal; lia).
  clearbody e'.
  assert (match 0 - 0 - e' with
          | 0 => Zpos mw
          | Zpos _ => Z.shiftl (Zpos mw) (0 - 0 - e')
          | Zneg _ => 0
          end = Zpos mw * 2 ^ (- e')) as ->.
  { destruct (0 - 0 - e') eqn:E; try lia.
    - replace (- e') with 0 by lia. lia.
    - rewrite Z.shiftl_mul_pow2 by lia. f_equal. f_equal. lia. }
  intros E.
  pose proof (f_equal (fun t => fst (fst t)) E) as E1.
  pose proof (f_equal (fun t => snd (fst t)) E) as E2.
  cbn [fst snd] in E1, E2. subst mz ez. clear E.
  destruct (Z.eq_dec e' (-1074)) as [Emin | Enot]; [lia | ].
  assert (e' <= dw - dh - 53) as Hs by lia.
  pose proof (Zdigits2_bounds (Zpos mw) ltac:(lia)) as [Wlo _].
  pose proof (Zdigits2_bounds (Zpos mh) ltac:(lia)) as [_ Hhi].
  pose proof (Zdigits2_pos (Zpos mh) ltac:(lia)) as Hdh.
  pose proof (Zdigits2_pos (Zpos mw) ltac:(lia)) as Hdw.
  fold dw in Wlo, Hdw. fold dh in Hhi, Hdh.
  set (n := dw - dh - e' - 1).
  assert (52 <= n) as Hn by (unfold n; lia).
  assert (2 ^ n <= Zpos mw * 2 ^ (- e') / Zpos mh) as Hq.
  { apply Z.div_le_lower_bound; [lia | ].
    apply Z.le_trans with (2 ^ dh * 2 ^ n).
    - apply Z.mul_le_mono_nonneg_r; [apply Z.lt_le_incl, pow2_pos; lia | lia].
    - rewrite <- pow2_split by lia.
      replace (dh + n) with (dw - 1 + - e') by (unfold n; lia).
      rewrite pow2_split by lia.
      apply Z.mul_le_mono_nonneg_r; [apply Z.lt_le_incl, pow2_pos; lia | lia]. }
  pose proof (pow2_pos n ltac:(lia)) as Hpn.
  pose proof (Zdigits2_le (2 ^ n) _ (conj (Z.lt_le_incl _ _ Hpn) Hq)) as D.
  assert (Zdigits2 (2 ^ n) = n + 1) as Dn.
  { apply Zdigits2_unique; [ | lia].
    replace (n + 1 - 1) with n by lia. split; [lia | ].
    rewrite (pow2_split n 1) by lia. change (2 ^ 1) with 2. lia. }
  unfold n in *. lia.
Qed.

Lemma fdiv_valid (s : bool) (mw mh : positive) :
  valid_binary prec emax (fdiv (S754_finite s mw 0) (S754_finite false mh 0)) = true.
Proof.
  unfold fdiv, SFdiv.
  destruct (SFdiv_core_binary prec emax (Zpos mw) 0 (Zpos mh) 0)
    as [[mz ez] lz] eqn:E.
  destruct (SFdiv_core_aligned mw mh mz ez lz E) as [H1 H2].
  apply binary_round_aux_valid; assumption.
Qed.

(** The aligned mantissa and exponent [binary_round] rounds. *)
Lemma shl_align_fexp_spec (m : positive) (e : Z) :
  exists p f,
    shl_align m e (SpecFloat.fexp prec emax (Zpos (digits2_pos m) + e)) = (p, f)
    /\ f <= e /\ Zpos p = Zpos m * 2 ^ (e - f)
    /\ f <= Z.max (Zdigits2 (Zpos p) + f - 53) (-1074).
Proof.
  rewrite shl_align_spec.
  change (Zpos (digits2_pos m)) with (Zdigits2 (Zpos m)). rewrite fexp_64.
  set (c := Z.max (Zdigits2 (Zpos m) + e - 53) (-1074)).
  destruct (Z.ltb_spec c e) as [Hlt | Hge].
  - pose proof (pow2_pos (e - c) ltac:(lia)) as Hp.
    exists (Z.to_pos (Zpos m * 2 ^ (e - c))), c.
    split; [reflexivity | ]. split; [lia | ].
    rewrite Z2Pos.id by nia. split; [reflexivity | ].
    rewrite Zdigits2_shift by lia. unfold c. lia.
  - exists m, e. split; [reflexivity | ]. split; [lia | ].
    rewrite Z.sub_diag, Z.mul_1_r. split; [reflexivity | ]. unfold c in Hge. lia.
Qed.

Lemma binary_round_valid (s : bool) (m : positive) (e : Z) :
  valid_binary prec emax (binary_round prec emax s m e) = true.
Proof.
  unfold binary_round.
  destruct (shl_align_fexp_spec m e) as (p & f & -> & _ & _ & Hf).
  apply binary_round_aux_valid; [lia | exact Hf].
Qed.

Lemma binary_normalize_valid (m e : Z) :
  valid_binary prec emax (binary_normalize prec emax m e false) = true.
Proof.
  destruct m; cbn [binary_normalize]; [reflexivity | | ]; apply binary_round_valid.
Qed.

Lemma fadd_valid (x y : float) :
  valid_binary prec emax x = true -> valid_binary prec emax y = true ->
  valid_binary prec emax (fadd x y) = true.
Proof.
  intros Hx Hy. unfold fadd, SFadd.
  destruct x as [sx | sx | | sx mx ex]; destruct y as [sy | sy | | sy my ey];
    try reflexivity; try assumption;
    try (destruct sx; destruct sy; reflexivity).
  apply binary_normalize_valid.
Qed.

Lemma of_decimal_valid (s : bool) (d e : Z) :
  valid_binary prec emax (of_decimal s d e) = true.
Proof.
  unfold of_decimal. destruct d as [ | p | p]; try reflexivity.
  destruct (0 <=? e).
  - apply binary_normalize_valid.
  - apply fdiv_valid.
Qed.

Lemma of_string_valid (s : string) (x : float) :
  of_string s = Some x -> valid_binary prec emax x = true.
Proof.
  unfold of_string.
  destruct (drop_underscores _ _) as [t | ]; [ | discriminate].
  destruct (read_sign _) as [sign body].
  destruct (_ || _)%bool; [intros [= <-]; reflexivity | ].
  destruct (_ =? _)%string; [intros [= <-]; reflexivity | ].
  unfold parse_number.
  destruct (read_digits 0 0 body) as [[ip ni] r1].
  destruct (match r1 with
            | String "." r => read_digits ip 0 r
            | _ => (ip, 0, r1)
            end) as [[d nf] r2].
  destruct (ni + nf =? 0); [discriminate | ].
  destruct (read_exponent r2) as [e r3].
  destruct r3; [ | discriminate].
  intros [= <-]. apply of_decimal_valid.
Qed.

(** A valid float is what rounding its own mantissa and exponent
    yields. *)
Lemma binary_round_valid_id (s : bool) (m : positive) (e : Z) :
  valid_binary prec emax (S754_finite s m e) = true ->
  binary_round prec emax s m e = S754_finite s m e.
Proof.
  intros Hv. apply valid_finite in Hv. destruct Hv as [Hc He].
  unfold binary_round. rewrite shl_align_spec.
  change (Zpos (digits2_pos m)) with (Zdigits2 (Zpos m)). rewrite fexp_64, Hc.
  rewrite Z.ltb_irrefl.
  rewrite (binary_round_aux_exact prec emax prec_pos) by (rewrite ?fexp_64; lia).
  rewrite fexp_64, Hc, Z.sub_diag.
  unfold rne_shift. cbn [Z.leb Z.compare].
  pose proof (Zdigits2_bounds (Zpos m) ltac:(lia)) as [_ Dhi].
  assert (Zpos m < 2 ^ 53) as Hlt.
  { apply Z.lt_le_trans with (1 := Dhi). apply Z.pow_le_mono_r; lia. }
  unfold round_out. cbn [Z.eqb].
  destruct (Z.ltb_spec (Zpos m) (2 ^ prec)) as [ | Hge];
    [ | unfold prec in Hge; lia].
  destruct (Z.leb_spec e (emax - prec)) as [ | Hgt];
    [ | unfold emax, prec in Hgt; lia].
  reflexivity.
Qed.

(** Rounding keeps the order of two positive values. *)
Lemma binary_round_mono (m1 : positive) (e1 : Z) (m2 : positive) (e2 : Z) :
  Zpos m1 * 2 ^ (e1 - Z.min e1 e2) <= Zpos m2 * 2 ^ (e2 - Z.min e1 e2) ->
  SFleb (binary_round prec emax false m1 e1) (binary_round prec emax false m2 e2)
  = true.
Proof.
  intros Hle. unfold binary_round.
  destruct (shl_align_fexp_spec m1 e1) as (p1 & f1 & -> & F1 & P1 & A1).
  destruct (shl_align_fexp_spec m2 e2) as (p2 & f2 & -> & F2 & P2 & A2).
  apply (round_exact_mono prec emax prec_pos); try lia;
    try (rewrite fexp_64; lia).
  rewrite P1, P2, <- !Z.mul_assoc, <- !pow2_split by lia.
  replace (e1 - f1 + (f1 - Z.min f1 f2)) with (e1 - Z.min f1 f2) by lia.
  replace (e2 - f2 + (f2 - Z.min f1 f2)) with (e2 - Z.min f1 f2) by lia.
  set (L := Z.min e1 e2) in *. set (L' := Z.min f1 f2).
  assert (L' <= L) as HL by (unfold L, L'; lia).
  replace (e1 - L') with (e1 - L + (L - L')) by lia.
  replace (e2 - L') with (e2 - L + (L - L')) by lia.
  rewrite !pow2_split, !Z.mul_assoc by (unfold L; lia).
  apply Z.mul_le_mono_nonneg_r; [apply Z.lt_le_incl, pow2_pos; lia | exact Hle].
Qed.

Lemma SFleb_refl_finite (m : positive) (e : Z) :
  SFleb (S754_finite false m e) (S754_finite false m e) = true.
Proof.
  unfold SFleb, SFcompare. rewrite Z.compare_refl, Pos.compare_refl. reflexivity.
Qed.

(** Adding a value [>= 0] to a valid value [>= 0] does not yield less. *)
Lemma fadd_grows (t c : float) :
  valid_binary prec emax t = true ->
  fle pos_zero t = true -> fle pos_zero c = true ->
  fle t (fadd t c) = true.
Proof.
  intros Hv Ht Hc. unfold fle, fadd, SFadd in *.
  destruct t as [st | [ | ] | | [ | ] mt et]; try discriminate;
    destruct c as [sc | [ | ] | | [ | ] mc ec]; try discriminate;
    try reflexivity; try (destruct st; destruct sc; reflexivity);
    try apply SFleb_refl_finite.
  cbn [cond_Zopp].
  rewrite <- (binary_round_valid_id false mt et Hv) at 1.
  rewrite !shl_align_spec. cbn [Z.add binary_normalize].
  set (ez := Z.min et ec).
  assert (Zpos (fst (if ez <? et then (Z.to_pos (Zpos mt * 2 ^ (et - ez)), ez)
                     else (mt, et))) = Zpos mt * 2 ^ (et - ez)) as St.
  { destruct (Z.ltb_spec ez et) as [Hl | Hg]; cbn [fst].
    - rewrite Z2Pos.id; [reflexivity | ].
      pose proof (pow2_pos (et - ez) ltac:(lia)). nia.
    - replace (et - ez) with 0 by (unfold ez in *; lia). lia. }
  apply binary_round_mono.
  replace (Z.min et ez) with ez by (unfold ez; lia).
  rewrite Z.sub_diag, Z.mul_1_r, Pos2Z.inj_add, St. lia.
Qed.

End Valid.

(** * The session total across resets, NaN charges and further charges *)

Section Sessions.
Import CreditTrackerNode.
Import FloatFacts.

Lemma run_app (calls rest : list call) :
  run (calls ++ rest) = fold_left step rest (run calls).
Proof. unfold run. apply fold_left_app. Qed.

Lemma fadd_zero_l (x : float) :
  fadd pos_zero x = match x with S754_zero _ => pos_zero | _ => x end.
Proof. destruct x as [[ | ] | | | ]; reflexivity. Qed.

Lemma fadd_nan_r (x : float) : fadd x S754_nan = S754_nan.
Proof. destruct x; reflexivity. Qed.

Lemma fadd_nan_l (x : float) : fadd S754_nan x = S754_nan.
Proof. destruct x; reflexivity. Qed.

Lemma steps_nan (later : list call) :
  forallb is_track later = true -> fold_left step later S754_nan = S754_nan.
Proof.
  induction later as [ | c later IH]; cbn [forallb fold_left]; [reflexivity | ].
  intros H. apply andb_true_iff in H. destruct H as [Hc Hl].
  destruct c as [net now s m u p i | ]; [ | discriminate].
  cbn [step]. rewrite track_credits_total, fadd_nan_l. apply IH, Hl.
Qed.

End Sessions.

(** X1.  [reset_session_credits] forgets the history: the calls before a
    reset do not change the total the calls after it leave.  After a reset
    and one [track_credits], the session total is the charge itself (and
    [0.0] when the charge is a zero of either sign, or text that is not a
    number). *)
Theorem reset_forgets_history
    (calls rest : list CreditTrackerNode.call) (net : network)
    (now credits_used model_name vault_url project_id : string) (unique_id : pyval) :
  CreditTrackerNode.run (calls ++ CreditTrackerNode.Reset :: rest)
  = CreditTrackerNode.run rest
  /\ CreditTrackerNode.run
       (calls ++ [CreditTrackerNode.Reset;
                  CreditTrackerNode.Track net now credits_used model_name
                    vault_url project_id unique_id])
     = match parsed_charge credits_used with
       | S754_zero _ => pos_zero
       | _ => parsed_charge credits_used
       end.
Proof.
  split.
  - rewrite run_app. reflexivity.
  - rewrite run_app. cbn [fold_left CreditTrackerNode.step].
    rewrite track_credits_total. apply fadd_zero_l.
Qed.

(** X2.  A charge whose text reads as a NaN ([nan], in any letter case and
    with white space or a sign around it) is accepted, and leaves the
    session total a NaN: every later [track_credits] keeps it a NaN and
    returns the text [nan] as the total, whatever it charges; only
    [reset_session_credits] ends this. *)
Theorem nan_charge_poisons_session
    (calls later : list CreditTrackerNode.call) (net : network)
    (now credits_used model_name vault_url project_id : string) (unique_id : pyval) :
  of_string credits_used = Some S754_nan ->
  forallb is_track later = true ->
  CreditTrackerNode.run
    (calls ++ CreditTrackerNode.Track net now credits_used model_name vault_url
                project_id unique_id :: later)
  = S754_nan
  /\ forall net' now' text model' url' project' id',
       exists status,
         snd (CreditTrackerNode.track_credits net' now'
                (CreditTrackerNode.run
                   (calls ++ CreditTrackerNode.Track net now credits_used
                               model_name vault_url project_id unique_id :: later))
                text model' url' project' id')
         = Ok ("nan", status).
Proof.
  intros Hs Hl.
  assert (CreditTrackerNode.run
    (calls ++ CreditTrackerNode.Track net now credits_used model_name vault_url
                project_id unique_id :: later) = S754_nan) as E.
  { rewrite run_app. cbn [fold_left CreditTrackerNode.step].
    rewrite track_credits_total. unfold parsed_charge. rewrite Hs.
    rewrite fadd_nan_r. apply steps_nan, Hl. }
  split; [exact E | ].
  intros net' now' text model' url' project' id'. rewrite E.
  unfold CreditTrackerNode.track_credits.
  rewrite parse_credits_charge, report_status. rewrite fadd_nan_l.
  eexists. reflexivity.
Qed.

Lemma nan_charge_poisons_session_witness :
  of_string " NaN" = Some S754_nan
  /\ CreditTrackerNode.run
       ([CreditTrackerNode.Track (fun _ => NoAnswer) "" "0.0400" "imagen-4"
           "http://localhost:8080" "" VNone]
        ++ CreditTrackerNode.Track (fun _ => NoAnswer) "" " NaN" "imagen-4"
             "http://localhost:8080" "" VNone
           :: [CreditTrackerNode.Track (fun _ => NoAnswer) "" "0.0500" "flux-2-pro"
                 "http://localhost:8080" "" VNone])
     = S754_nan.
Proof.
  split; [reflexivity | ].
  apply (nan_charge_poisons_session
           [CreditTrackerNode.Track (fun _ => NoAnswer) "" "0.0400" "imagen-4"
              "http://localhost:8080" "" VNone]
           [CreditTrackerNode.Track (fun _ => NoAnswer) "" "0.0500" "flux-2-pro"
              "http://localhost:8080" "" VNone]); reflexivity.
Defined.

Section Growth.

Import CreditTrackerNode.
Import FloatFacts.

Lemma parsed_charge_valid (s : string) :
  valid_binary prec emax (parsed_charge s) = true.
Proof.
  unfold parsed_charge. destruct (of_string s) as [x | ] eqn:E.
  - apply (of_string_valid s x E).
  - reflexivity.
Qed.

Lemma step_valid (t : float) (c : call) :
  valid_binary prec emax t = true -> valid_binary prec emax (step t c) = true.
Proof.
  intros Ht. destruct c as [net now s m u p i | ]; cbn [step].
  - rewrite track_credits_total. apply fadd_valid; [exact Ht | ].
    apply parsed_charge_valid.
  - reflexivity.
Qed.

Lemma steps_valid (calls : list call) (t : float) :
  valid_binary prec emax t = true ->
  valid_binary prec emax (fold_left step calls t) = true.
Proof.
  revert t. induction calls as [ | c calls IH]; intros t Ht; cbn [fold_left].
  - exact Ht.
  - apply IH, step_valid, Ht.
Qed.

Lemma fle_refl_nonneg (x : float) : fle pos_zero x = true -> fle x x = true.
Proof.
  destruct x as [s | [ | ] | | [ | ] m e]; try discriminate; intros _;
    try reflexivity.
  apply SFleb_refl_finite.
Qed.

Lemma SFleb_pos_iff (m1 : positive) (e1 : Z) (m2 : positive) (e2 : Z) :
  SFleb (S754_finite false m1 e1) (S754_finite false m2 e2) = true
  <-> (e1 < e2 \/ (e1 = e2 /\ Zpos m1 <= Zpos m2))%Z.
Proof.
  unfold SFleb, SFcompare.
  change (PosDef.Pos.compare_cont Eq m1 m2) with (Pos.compare m1 m2).
  destruct (Z.compare_spec e1 e2) as [E | E | E].
  - destruct (Pos.compare_spec m1 m2) as [M | M | M]; split; intros H;
      try discriminate; try reflexivity; lia.
  - split; [lia | reflexivity].
  - split; [discriminate | lia].
Qed.

Lemma fle_trans_nonneg (x y z : float) :
  fle pos_zero x = true -> fle x y = true -> fle y z = true -> fle x z = true.
Proof.
  unfold fle.
  destruct x as [sx | [ | ] | | [ | ] mx ex]; try discriminate;
    destruct y as [sy | [ | ] | | [ | ] my ey]; try discriminate;
    destruct z as [sz | [ | ] | | [ | ] mz ez]; try discriminate;
    try reflexivity; intros _.
  rewrite !SFleb_pos_iff. lia.
Qed.

Lemma step_grows (t : float) (c : call) :
  valid_binary prec emax t = true -> fle pos_zero t = true ->
  is_track c = true -> nonneg_charge c ->
  fle t (step t c) = true.
Proof.
  intros Hv Ht Hc Hn. destruct c as [net now s m u p i | ]; [ | discriminate].
  cbn [step]. rewrite track_credits_total. apply fadd_grows; try assumption.
  unfold parsed_charge. cbn [nonneg_charge] in Hn.
  destruct (of_string s) as [x | ]; [apply Hn | ]; reflexivity.
Qed.

Lemma steps_grow (later : list call) (t : float) :
  valid_binary prec emax t = true -> fle pos_zero t = true ->
  forallb is_track later = true -> Forall nonneg_charge later ->
  fle t (fold_left step later t) = true.
Proof.
  revert t. induction later as [ | c later IH]; intros t Hv Ht Hl Hn;
    cbn [fold_left].
  - apply fle_refl_nonneg, Ht.
  - cbn [forallb] in Hl. apply andb_true_iff in Hl. destruct Hl as [Hc Hl].
    apply Forall_cons_iff in Hn. destruct Hn as [Hnc Hn].
    apply (fle_trans_nonneg t (step t c)); [exact Ht | | ].
    + apply step_grows; assumption.
    + apply IH; try assumption.
      * apply step_valid, Hv.
      * apply step_nonneg; assumption.
Qed.

End Growth.

(** X3.  Along a session of charges that are not numbers or read as
    values [>= 0], the session total never decreases: after any further
    such [track_credits] calls it is at least what it was before them. *)
Theorem session_total_grows (calls later : list CreditTrackerNode.call) :
  Forall CreditTrackerNode.nonneg_charge calls ->
  Forall CreditTrackerNode.nonneg_charge later ->
  forallb is_track later = true ->
  fle (CreditTrackerNode.run calls) (CreditTrackerNode.run (calls ++ later)) = true.
Proof.
  intros Hc Hl Ht. unfold CreditTrackerNode.run. rewrite fold_left_app.
  apply steps_grow; try assumption.
  - apply steps_valid. reflexivity.
  - apply steps_nonneg; [assumption | reflexivity].
Qed.

Lemma session_total_grows_witness :
  fle (CreditTrackerNode.run
         [CreditTrackerNode.Track (fun _ => NoAnswer) "" "0.0400" "imagen-4"
            "http://localhost:8080" "" VNone])
      (CreditTrackerNode.run
         ([CreditTrackerNode.Track (fun _ => NoAnswer) "" "0.0400" "imagen-4"
             "http://localhost:8080" "" VNone]
          ++ [CreditTrackerNode.Track (fun _ => NoAnswer) "" "0.0002"
                "flux-schnell" "http://localhost:8080" "" VNone;
              CreditTrackerNode.Track (fun _ => NoAnswer) "" "n/a"
                "flux-schnell" "http://localhost:8080" "" VNone]))
  = true.
Proof.
  apply session_total_grows; [ | | reflexivity];
    repeat constructor; cbn; intros x Hx; vm_compute in Hx;
    first [discriminate Hx | injection Hx as <-; reflexivity].
Defined.

(** * Answers of the Vault to a token request *)

Section Answers.

Import VaultContextNode.

Variable py_repr : pyval -> string.

Lemma load_context_answered (net : network)
    (token_type token_name vault_url : string) (include_visuals : bool)
    (r : response) :
  token_name <> "" ->
  net (token_request token_type token_name vault_url) = Answer r ->
  status_code r = 200%Z ->
  load_context py_repr net token_type token_name vault_url include_visuals
  = try_except
      (token_data <- json r ;;
       prompt_context <- _build_prompt_context py_repr token_type token_data ;;
       style_prompt <- py_get token_data "style_prompt" (VStr "") ;;
       listed <- py_get token_data "visuals" VNone ;;
       reference_path <-
         (if include_visuals && py_truthy listed then
            visuals <- py_item token_data "visuals" ;;
            if py_truthy visuals then
              first <- py_first visuals ;;
              py_get first "path" (VStr "")
            else Ok (VStr "")
          else Ok (VStr "")) ;;
       Ok (prompt_context, style_prompt, reference_path))
      is_request_exception (Ok empty_context).
Proof.
  intros Hname Hnet Hst. unfold load_context.
  destruct (String.eqb_spec token_name ""); [contradiction | ].
  unfold requests_get, send. fold (token_request token_type token_name vault_url).
  rewrite Hnet. cbn [bind]. rewrite Hst. reflexivity.
Qed.

Lemma build_prompt_context_not_dict (token_type : string) (v : pyval) :
  is_dict v = false ->
  _build_prompt_context py_repr token_type v = Raise AttributeError.
Proof. destruct v; cbn; try reflexivity; discriminate. Qed.

Lemma append_if_cons (v x a : pyval) (l : list pyval) :
  append_if v x (a :: l) = a :: append_if v x l.
Proof. unfold append_if. destruct (py_truthy v); reflexivity. Qed.

Lemma all_str_not_text (v : pyval) (l : list pyval) :
  is_text v = false -> all_str (v :: l) = Raise TypeError.
Proof. destruct v; cbn; try reflexivity; discriminate. Qed.

Lemma build_prompt_context_name (token_type : string) (d : list (string * pyval)) :
  token_type = "location" \/ token_type = "prop" ->
  is_text (get_or d "name" (VStr "")) = false ->
  _build_prompt_context py_repr token_type (VDict d) = Raise TypeError.
Proof.
  intros [-> | ->] Hn; unfold _build_prompt_context; cbn [py_get bind String.eqb Ascii.eqb Bool.eqb];
    unfold py_join; rewrite !append_if_cons, all_str_not_text by assumption;
    reflexivity.
Qed.

Lemma visual_path (include_visuals : bool) (d : list (string * pyval)) :
  listed_visuals d ->
  (if include_visuals && py_truthy (get_or d "visuals" VNone) then
     visuals <- py_item (VDict d) "visuals" ;;
     if py_truthy visuals then
       first <- py_first visuals ;;
       py_get first "path" (VStr "")
     else Ok (VStr "")
   else Ok (VStr ""))
  = Ok (if include_visuals then first_visual_path d else VStr "").
Proof.
  unfold listed_visuals, first_visual_path, py_item, get_or.
  destruct (assoc "visuals" d) as [v | ]; cbn [bind py_truthy].
  - destruct include_visuals; cbn [andb]; [ | reflexivity].
    destruct v as [ | | | | | [ | [ | | | | | | v] l] | ]; cbn [py_truthy];
      intros H; try rewrite H; try discriminate; try reflexivity.
  - rewrite andb_false_r. destruct include_visuals; reflexivity.
Qed.

Lemma load_context_found_dict (net : network)
    (token_type token_name vault_url : string) (include_visuals : bool)
    (r : response) (d : list (string * pyval)) :
  token_name <> "" ->
  net (token_request token_type token_name vault_url) = Answer r ->
  status_code r = 200%Z -> json_body r = Some (VDict d) ->
  text_attributes token_type d -> listed_visuals d ->
  load_context py_repr net token_type token_name vault_url include_visuals
  = Ok (VStr (render py_repr token_type d),
        get_or d "style_prompt" (VStr ""),
        if include_visuals then first_visual_path d else VStr "").
Proof.
  intros Hname Hnet Hst Hbody Htext Hvis.
  rewrite (load_context_answered net _ _ _ _ r) by assumption.
  unfold json. rewrite Hbody. cbn [bind].
  rewrite build_prompt_context_render by assumption. cbn [bind py_get].
  rewrite visual_path by assumption. reflexivity.
Qed.

Lemma load_context_body_not_dict (net : network)
    (token_type token_name vault_url : string) (include_visuals : bool)
    (r : response) (v : pyval) :
  token_name <> "" ->
  net (token_request token_type token_name vault_url) = Answer r ->
  status_code r = 200%Z -> json_body r = Some v -> is_dict v = false ->
  load_context py_repr net token_type token_name vault_url include_visuals
  = Raise AttributeError.
Proof.
  intros Hname Hnet Hst Hbody Hv.
  rewrite (load_context_answered net _ _ _ _ r) by assumption.
  unfold json. rewrite Hbody. cbn [bind].
  rewrite build_prompt_context_not_dict by assumption. reflexivity.
Qed.

Lemma load_context_body_not_json (net : network)
    (token_type token_name vault_url : string) (include_visuals : bool)
    (r : response) :
  token_name <> "" ->
  net (token_request token_type token_name vault_url) = Answer r ->
  status_code r = 200%Z -> json_body r = None ->
  load_context py_repr net token_type token_name vault_url include_visuals
  = Ok empty_context.
Proof.
  intros Hname Hnet Hst Hbody.
  rewrite (load_context_answered net _ _ _ _ r) by assumption.
  unfold json. rewrite Hbody. reflexivity.
Qed.

Lemma load_context_name_not_text (net : network)
    (token_type token_name vault_url : string) (include_visuals : bool)
    (r : response) (d : list (string * pyval)) :
  token_name <> "" ->
  net (token_request token_type token_name vault_url) = Answer r ->
  status_code r = 200%Z -> json_body r = Some (VDict d) ->
  token_type = "location" \/ token_type = "prop" ->
  is_text (get_or d "name" (VStr "")) = false ->
  load_context py_repr net token_type token_name vault_url include_visuals
  = Raise TypeError.
Proof.
  intros Hname Hnet Hst Hbody Hty Hn.
  rewrite (load_context_answered net _ _ _ _ r) by assumption.
  unfold json. rewrite Hbody. cbn [bind].
  rewrite build_prompt_context_name by assumption. reflexivity.
Qed.

End Answers.

(** X4.  When the Vault answers the token request with status 200 and a
    JSON object whose plainly appended attributes hold text and whose
    visuals, if any, are a list of objects, [load_context] returns the
    rendered context, the [style_prompt] of the token as it is (the empty
    text when absent) and, with [include_visuals], the [path] of the first
    visual (the empty text when the token has no visual or the first has
    no path); without [include_visuals] the third output is empty. *)
Theorem load_context_found
    (py_repr : pyval -> string) (net : network)
    (token_type token_name vault_url : string) (include_visuals : bool)
    (r : response) (d : list (string * pyval)) :
  token_name <> "" ->
  net (VaultContextNode.token_request token_type token_name vault_url) = Answer r ->
  status_code r = 200%Z -> json_body r = Some (VDict d) ->
  VaultContextNode.text_attributes token_type d -> listed_visuals d ->
  VaultContextNode.load_context py_repr net token_type token_name vault_url
    include_visuals
  = Ok (VStr (VaultContextNode.render py_repr token_type d),
        get_or d "style_prompt" (VStr ""),
        if include_visuals then first_visual_path d else VStr "").
Proof. apply load_context_found_dict. Qed.

Lemma load_context_found_witness :
  VaultContextNode.load_context (fun _ => "") (answering_json (VDict ana_token))
    "character" "Ana" "http://localhost:8080" true
  = Ok (VStr "Ana, 30 years old", VStr "film noir", VStr "/vault/ana.png").
Proof.
  rewrite (load_context_found (fun _ => "") (answering_json (VDict ana_token))
             "character" "Ana" "http://localhost:8080" true
             (json_answer (VDict ana_token)) ana_token
             ltac:(discriminate) eq_refl eq_refl eq_refl
             ltac:(repeat constructor) I).
  reflexivity.
Defined.

(** X5.  A 200 answer that is not a well-formed token.  When the body is
    not JSON, [load_context] returns the empty result, as for a Vault that
    cannot be reached.  When the body is JSON but not an object (a list, a
    text, a number, [null]), it raises [AttributeError]; when it is an
    object of a location or a prop whose [name] is not text, it raises
    [TypeError]: neither is caught by the [except] clause. *)
Theorem load_context_malformed_answer
    (py_repr : pyval -> string) (net : network)
    (token_type token_name vault_url : string) (include_visuals : bool)
    (r : response) :
  token_name <> "" ->
  net (VaultContextNode.token_request token_type token_name vault_url) = Answer r ->
  status_code r = 200%Z ->
  (json_body r = None ->
   VaultContextNode.load_context py_repr net token_type token_name vault_url
     include_visuals
   = Ok (VStr "", VStr "", VStr ""))
  /\ (forall v, json_body r = Some v -> is_dict v = false ->
      VaultContextNode.load_context py_repr net token_type token_name vault_url
        include_visuals
      = Raise AttributeError)
  /\ (forall d, json_body r = Some (VDict d) ->
      token_type = "location" \/ token_type = "prop" ->
      is_text (get_or d "name" (VStr "")) = false ->
      VaultContextNode.load_context py_repr net token_type token_name vault_url
        include_visuals
      = Raise TypeError).
Proof.
  intros Hname Hnet Hst. split; [ | split].
  - intros Hb. apply (load_context_body_not_json py_repr net _ _ _ _ r); assumption.
  - intros v Hb Hv.
    apply (load_context_body_not_dict py_repr net _ _ _ _ r v); assumption.
  - intros d Hb Hty Hn.
    apply (load_context_name_not_text py_repr net _ _ _ _ r d); assumption.
Qed.

Lemma load_context_malformed_answer_witness :
  VaultContextNode.load_context (fun _ => "") (answering_json (VList []))
    "character" "Ana" "http://localhost:8080" true
  = Raise AttributeError
  /\ VaultContextNode.load_context (fun _ => "")
       (answering_json (VDict [("name", VInt 7)]))
       "prop" "Key" "http://localhost:8080" true
     = Raise TypeError.
Proof.
  split.
  - apply (proj1 (proj2 (load_context_malformed_answer (fun _ => "")
                           (answering_json (VList []))
                           "character" "Ana" "http://localhost:8080" true
                           (json_answer (VList []))
                           ltac:(discriminate) eq_refl eq_refl)) (VList []));
      reflexivity.
  - apply (proj2 (proj2 (load_context_malformed_answer (fun _ => "")
                           (answering_json (VDict [("name", VInt 7)]))
                           "prop" "Key" "http://localhost:8080" true
                           (json_answer (VDict [("name", VInt 7)]))
                           ltac:(discriminate) eq_refl eq_refl))
             [("name", VInt 7)]); [reflexivity | right; reflexivity | reflexivity].
Defined.

(** * Local copies, paths and tags *)

Section Paths.

Lemma free_of_app (c : ascii) (a b : string) :
  free_of c (a ++ b) = free_of c a && free_of c b.
Proof.
  induction a as [ | x a IH]; cbn [append free_of]; [reflexivity | ].
  rewrite IH. apply andb_assoc.
Qed.

Lemma free_of_substring (c : ascii) (s : string) (n m : nat) :
  free_of c s = true -> free_of c (substring n m s) = true.
Proof.
  revert n m. induction s as [ | x s IH]; intros n m H.
  - destruct n, m; reflexivity.
  - cbn [free_of] in H. apply andb_true_iff in H. destruct H as [Hx Hs].
    destruct n as [ | n].
    + destruct m as [ | m]; cbn [substring free_of]; [reflexivity | ].
      rewrite Hx. apply IH, Hs.
    + cbn [substring]. apply IH, Hs.
Qed.

Lemma str_lstrip_free (c : ascii) (s : string) :
  free_of c s = true -> free_of c (str_lstrip s) = true.
Proof.
  induction s as [ | x s IH]; cbn [str_lstrip free_of]; [reflexivity | ].
  intros H. destruct (is_py_space x); [ | exact H].
  apply andb_true_iff in H. apply IH, H.
Qed.

Lemma str_rstrip_free (c : ascii) (s : string) :
  free_of c s = true -> free_of c (str_rstrip s) = true.
Proof.
  induction s as [ | x s IH]; cbn [str_rstrip free_of]; [reflexivity | ].
  intros H. apply andb_true_iff in H. destruct H as [Hx Hs].
  specialize (IH Hs). destruct (str_rstrip s) as [ | y r].
  - destruct (is_py_space x); cbn [free_of]; [reflexivity | ].
    rewrite Hx. reflexivity.
  - cbn [free_of] in *. rewrite Hx. exact IH.
Qed.

Lemma str_strip_free (c : ascii) (s : string) :
  free_of c s = true -> free_of c (str_strip s) = true.
Proof. intros H. apply str_rstrip_free, str_lstrip_free, H. Qed.

Lemma split_on_free (sep : ascii) (s cur : string) :
  free_of sep cur = true -> Forall (fun t => free_of sep t = true) (split_on sep cur s).
Proof.
  revert cur. induction s as [ | x s IH]; intros cur H; cbn [split_on].
  - constructor; [exact H | constructor].
  - destruct (Ascii.eqb x sep) eqn:E.
    + constructor; [exact H | apply IH; reflexivity].
    + apply IH. rewrite free_of_app, H. cbn [free_of]. rewrite E. reflexivity.
Qed.

Lemma str_rstrip_idem (s : string) : str_rstrip (str_rstrip s) = str_rstrip s.
Proof.
  induction s as [ | x s IH]; cbn [str_rstrip]; [reflexivity | ].
  destruct (str_rstrip s) as [ | y r] eqn:E.
  - destruct (is_py_space x) eqn:Ex; cbn [str_rstrip]; [reflexivity | ].
    rewrite Ex. reflexivity.
  - cbn [str_rstrip] in *. rewrite IH. reflexivity.
Qed.

Lemma str_rstrip_head (x : ascii) (s : string) :
  is_py_space x = false -> exists r, str_rstrip (String x s) = String x r.
Proof.
  intros Hx. cbn [str_rstrip]. destruct (str_rstrip s).
  - rewrite Hx. eauto.
  - eauto.
Qed.

Lemma str_lstrip_head (s : string) :
  str_lstrip s = ""
  \/ exists x r, str_lstrip s = String x r /\ is_py_space x = false.
Proof.
  induction s as [ | x s IH]; cbn [str_lstrip]; [left; reflexivity | ].
  destruct (is_py_space x) eqn:E; [exact IH | ]. right. eauto.
Qed.

Lemma str_strip_idem (s : string) : str_strip (str_strip s) = str_strip s.
Proof.
  unfold str_strip. destruct (str_lstrip_head s) as [-> | (x & r & -> & Hx)].
  - reflexivity.
  - destruct (str_rstrip_head x r Hx) as (r' & E). rewrite E.
    cbn [str_lstrip]. rewrite Hx. rewrite <- E. apply str_rstrip_idem.
Qed.

Lemma ends_with_slash_app (a b : string) :
  b <> "" -> ends_with_slash (a ++ b) = ends_with_slash b.
Proof.
  intros Hb. induction a as [ | x a IH]; cbn [append]; [reflexivity | ].
  cbn [ends_with_slash]. rewrite IH.
  destruct (a ++ b) eqn:E; [ | reflexivity].
  destruct a; [cbn in E; contradiction | discriminate].
Qed.

Lemma path_join2_relative (a b : string) :
  b <> "" -> prefix "/" b = false -> ends_with_slash b = false ->
  path_join2 a b <> "" /\ ends_with_slash (path_join2 a b) = false.
Proof.
  intros Hb Hp He. unfold path_join2. rewrite Hp.
  destruct ((a =? "") || ends_with_slash a).
  - split; [destruct a; [exact Hb | discriminate] | ].
    rewrite ends_with_slash_app; assumption.
  - split; [destruct a; discriminate | ].
    rewrite ends_with_slash_app by (destruct b; [contradiction | discriminate]).
    destruct b; [contradiction | ]. cbn [append]. exact He.
Qed.

Lemma all_slashes_app (a b : string) :
  all_slashes (a ++ b) = all_slashes a && all_slashes b.
Proof.
  induction a as [ | x a IH]; cbn [append all_slashes]; [reflexivity | ].
  rewrite IH. apply andb_assoc.
Qed.

Lemma outputs_dir_shape (home : string) :
  outputs_dir home <> "" /\ ends_with_slash (outputs_dir home) = false
  /\ all_slashes (outputs_dir home) = false.
Proof.
  unfold outputs_dir, path_join. cbn [fold_left].
  set (a := path_join2 home "CinemaOS").
  destruct (path_join2_relative a "outputs") as [H1 H2];
    [discriminate | reflexivity | reflexivity | ].
  split; [exact H1 | ]. split; [exact H2 | ].
  unfold path_join2. change (prefix "/" "outputs") with false. cbv iota.
  destruct ((a =? "") || ends_with_slash a); rewrite !all_slashes_app;
    cbn; rewrite ?andb_false_r; reflexivity.
Qed.

Lemma upto_last_slash_free (f : string) :
  free_of "/" f = true -> upto_last_slash f = "".
Proof.
  induction f as [ | x f IH]; cbn [free_of upto_last_slash]; [reflexivity | ].
  intros H. apply andb_true_iff in H. destruct H as [Hx Hf].
  rewrite (IH Hf). apply negb_true_iff in Hx. rewrite Hx. reflexivity.
Qed.

Lemma upto_last_slash_app (a f : string) :
  free_of "/" f = true -> upto_last_slash (a ++ "/" ++ f) = a ++ "/".
Proof.
  intros Hf. induction a as [ | x a IH]; cbn [append upto_last_slash].
  - rewrite (upto_last_slash_free f Hf). reflexivity.
  - cbn [append] in IH. rewrite IH. destruct a; reflexivity.
Qed.

Lemma rstrip_slashes_keep (a : string) :
  ends_with_slash a = false -> rstrip_slashes a = a.
Proof.
  induction a as [ | x a IH]; cbn [ends_with_slash rstrip_slashes]; [reflexivity | ].
  destruct a as [ | y a].
  - intros ->. reflexivity.
  - intros H. rewrite (IH H). reflexivity.
Qed.

Lemma rstrip_slashes_app_slash (a : string) :
  rstrip_slashes (a ++ "/") = rstrip_slashes a.
Proof.
  induction a as [ | x a IH]; cbn [append rstrip_slashes]; [reflexivity | ].
  cbn [append] in IH. rewrite IH. reflexivity.
Qed.

Lemma dirname_join (a f : string) :
  a <> "" -> ends_with_slash a = false -> all_slashes a = false ->
  free_of "/" f = true ->
  dirname (a ++ "/" ++ f) = a.
Proof.
  intros Ha He Hs Hf. unfold dirname. rewrite (upto_last_slash_app a f Hf).
  rewrite all_slashes_app, Hs. cbn [andb negb].
  replace (a ++ "/" =? "") with false by (destruct a; [contradiction | reflexivity]).
  cbn [negb andb]. rewrite rstrip_slashes_app_slash. apply rstrip_slashes_keep, He.
Qed.

Lemma prefix_slash_app (a b : string) :
  prefix "/" b = false -> prefix "/" (a ++ b) = prefix "/" a.
Proof.
  intros Hb. destruct a as [ | x a]; cbn [append]; [rewrite Hb; reflexivity | ].
  change (prefix "/" (String x (a ++ b)))
    with (if ascii_dec "/" x then prefix "" (a ++ b) else false).
  change (prefix "/" (String x a)) with (if ascii_dec "/" x then prefix "" a else false).
  destruct (ascii_dec "/" x); [ | reflexivity].
  destruct a, b; reflexivity.
Qed.

Lemma local_path_relative (home f : string) :
  prefix "/" f = false ->
  VaultSaveNode.local_path_of home f = outputs_dir home ++ "/" ++ f.
Proof.
  intros Hf. unfold VaultSaveNode.local_path_of, path_join. cbn [fold_left].
  fold (path_join home ["CinemaOS"; "outputs"]).
  change (fold_left path_join2 ["CinemaOS"; "outputs"] home) with (outputs_dir home)
    || change (path_join2 (path_join2 home "CinemaOS") "outputs")
         with (outputs_dir home).
  destruct (outputs_dir_shape home) as (H1 & H2 & _).
  unfold path_join2 at 1. rewrite Hf, H2.
  replace (outputs_dir home =? "") with false
    by (destruct (outputs_dir home); [contradiction | reflexivity]).
  reflexivity.
Qed.

Lemma local_path_absolute (home f : string) :
  prefix "/" f = true -> VaultSaveNode.local_path_of home f = f.
Proof.
  intros Hf. unfold VaultSaveNode.local_path_of, path_join. cbn [fold_left].
  unfold path_join2 at 1. rewrite Hf. reflexivity.
Qed.

Lemma filename_absolute (token_type token_name asset_id : string) :
  prefix "/" (VaultSaveNode.filename_of token_type token_name asset_id)
  = negb (token_name =? "") && prefix "/" token_type.
Proof.
  unfold VaultSaveNode.filename_of.
  destruct (token_name =? ""); cbn [negb andb]; [reflexivity | ].
  apply prefix_slash_app. reflexivity.
Qed.

Lemma filename_free (token_type token_name asset_id : string) :
  free_of "/" token_type = true -> free_of "/" token_name = true ->
  free_of "/" asset_id = true ->
  free_of "/" (VaultSaveNode.filename_of token_type token_name asset_id) = true.
Proof.
  intros H1 H2 H3. unfold VaultSaveNode.filename_of.
  destruct (token_name =? ""); cbn [negb]; rewrite !free_of_app, ?H1, ?H2, ?H3;
    reflexivity.
Qed.

End Paths.

Section LocalCopies.

Import VaultSaveNode.

Context {Tensor Pil : Type} (cd : codec Tensor Pil).

Variables (net : network) (uuid4 home : string) (fs : filesystem) (image : Tensor).
Variables (token_type token_name vault_url description tags : string).

Let asset_id : string := substring 0 8 uuid4.
Let filename : string := filename_of token_type token_name asset_id.

Lemma save_frame :
  let out :=
    save_to_vault cd net uuid4 home fs image token_type token_name vault_url
      description tags in
  (forall p, fs_resolve fs p <> fs_resolve fs (local_path_of home filename) ->
             read_file (fst out) p = read_file fs p)
  /\ (forall p, is_dir fs p = true -> is_dir (fst out) p = true)
  /\ fs_resolve (fst out) = fs_resolve fs.
Proof.
  unfold save_to_vault. fold asset_id. fold filename.
  destruct (to_pil cd image) as [pil_image | e]; [ | cbn; auto].
  destruct (upload _ _ _ _ _ _ _ _ _) as [v | e]; [cbn; auto | ].
  destruct (is_request_exception e); [ | cbn; auto].
  pose proof (makedirs_more (dirname (local_path_of home filename)) fs) as Hmore.
  destruct (makedirs _ fs) as [fs1 made]. cbn [fst] in Hmore.
  pose proof (more_dirs_read fs fs1) as Hread.
  destruct Hmore as (F1 & R1 & M1 & O1 & D1).
  assert (more_dirs fs fs1) as Hm by (unfold more_dirs; auto).
  destruct made as [u | e1]; [ | cbn [fst]; auto].
  destruct (write_file _ _ fs1) as [fs2 | e2] eqn:E2; cbn [fst]; [ | auto].
  destruct (written_keeps _ _ _ _ E2) as (D2 & R2 & _).
  split; [ | split].
  - intros p Hp. rewrite (read_file_written _ _ p _ _ E2); [auto | ].
    rewrite R1. exact Hp.
  - intros p Hp. unfold is_dir. rewrite D2, R2. apply D1, Hp.
  - congruence.
Qed.

Variable pil_image : Pil.
Hypothesis Hpil : to_pil cd image = Ok pil_image.

Let rq : request :=
  upload_request filename (b64encode cd (png_bytes cd pil_image)) token_type
    token_name vault_url description tags.

Lemma save_body_not_dict (r : response) (v : pyval) :
  net rq = Answer r -> status_code r = 200%Z -> json_body r = Some v ->
  is_dict v = false ->
  save_to_vault cd net uuid4 home fs image token_type token_name vault_url
    description tags
  = (fs, Raise AttributeError).
Proof.
  intros Hnet Hst Hbody Hv. unfold save_to_vault. rewrite Hpil.
  unfold upload, requests_post. rewrite upload_payload_ready.
  unfold send. fold asset_id. fold filename.
  unfold rq, upload_request in Hnet. rewrite Hnet. cbn [bind].
  rewrite Hst. cbn [Z.eqb Pos.eqb]. unfold json. rewrite Hbody. cbn [bind].
  destruct v; try discriminate; reflexivity.
Qed.

Lemma upload_raised_spec :
  net rq = NoAnswer
  \/ (exists r, net rq = Answer r /\ status_code r = 200%Z /\ json_body r = None) ->
  exists e,
    upload net filename (b64encode cd (png_bytes cd pil_image)) asset_id
      token_type token_name vault_url description tags = Raise e
    /\ is_request_exception e = true.
Proof.
  unfold upload, requests_post. rewrite upload_payload_ready.
  unfold send. unfold rq, upload_request.
  fold asset_id. fold filename.
  intros [Hnet | (r & Hnet & Hst & Hb)]; rewrite Hnet; cbn [bind].
  - eexists. split; reflexivity.
  - rewrite Hst. cbn [Z.eqb Pos.eqb]. unfold json. rewrite Hb. cbn [bind].
    eexists. split; reflexivity.
Qed.

(** The directory cannot be made, or the file cannot be opened: the call
    raises what the disk raises, and the disk holds the directories made
    before that. *)
Lemma save_raised_refused (e : exn) :
  net rq = NoAnswer
  \/ (exists r, net rq = Answer r /\ status_code r = 200%Z /\ json_body r = None) ->
  let made := makedirs (dirname (local_path_of home filename)) fs in
  snd made = Raise e
  \/ (snd made = Ok tt /\ fs_open fs (local_path_of home filename) = Some e) ->
  save_to_vault cd net uuid4 home fs image token_type token_name vault_url
    description tags
  = (fst made, Raise e).
Proof.
  intros Hr made Hd. destruct (upload_raised_spec Hr) as (e0 & Hu & He).
  rewrite (save_fallback cd net uuid4 home fs image token_type token_name
             vault_url description tags pil_image Hpil e0 Hu He).
  subst made. unfold filename, asset_id in *.
  pose proof (makedirs_more
                (dirname (local_path_of home
                            (filename_of token_type token_name
                               (substring 0 8 uuid4)))) fs)
    as (_ & _ & _ & O1 & _).
  destruct (makedirs _ fs) as [fs1 r1]. cbn [fst snd] in *.
  destruct Hd as [-> | [-> Ho]]; [reflexivity | ].
  unfold write_file. rewrite O1, Ho. reflexivity.
Qed.

End LocalCopies.

(** X6.  Whatever the Vault answers and whether or not the call raises,
    [save_to_vault] leaves every file as it was but the one its local path
    names (under any spelling of that path), removes no directory, and
    every path names afterwards what it named before. *)
Theorem save_to_vault_keeps_other_files
    {Tensor Pil : Type} (cd : codec Tensor Pil)
    (net : network) (uuid4 home : string) (fs : filesystem) (image : Tensor)
    (token_type token_name vault_url description tags : string) :
  let out :=
    VaultSaveNode.save_to_vault cd net uuid4 home fs image token_type token_name
      vault_url description tags in
  let local_path :=
    VaultSaveNode.local_path_of home
      (VaultSaveNode.filename_of token_type token_name (substring 0 8 uuid4)) in
  (forall p, fs_resolve fs p <> fs_resolve fs local_path ->
             read_file (fst out) p = read_file fs p)
  /\ (forall p, is_dir fs p = true -> is_dir (fst out) p = true)
  /\ fs_resolve (fst out) = fs_resolve fs.
Proof. apply save_frame. Qed.

Lemma save_to_vault_keeps_other_files_witness :
  fs_resolve ana_disk "/home/ana/notes.txt"
  <> fs_resolve ana_disk "/home/ana/CinemaOS/outputs/output_3f2b8c1e.png"
  /\ read_file
       (fst (VaultSaveNode.save_to_vault text_codec (fun _ => NoAnswer)
               "3f2b8c1e-7d4a-4c1b-9e2f-5a6b7c8d9e0f" "/home/ana" ana_disk
               "PNG" "shot" "" "http://localhost:8080" "" ""))
       "/home/ana/notes.txt"
     = Some "scene 1".
Proof.
  split; [discriminate | ].
  apply (proj1 (save_to_vault_keeps_other_files text_codec (fun _ => NoAnswer)
                  "3f2b8c1e-7d4a-4c1b-9e2f-5a6b7c8d9e0f" "/home/ana" ana_disk
                  "PNG" "shot" "" "http://localhost:8080" "" "")
           "/home/ana/notes.txt").
  discriminate.
Defined.

(** X7.  An upload the Vault answers.  With a status other than 200,
    [save_to_vault] returns the [local:] id although it writes no local
    copy.  With status 200 and a JSON object, the saved id is the [id] of
    the object, whatever its type, and the bare asset id (the first eight
    characters of the UUID, without the [local:] prefix) when the object
    has none; with status 200 and JSON that is not an object, the call
    raises [AttributeError].  In all three cases the disk is left as it
    was. *)
Theorem save_to_vault_answered
    {Tensor Pil : Type} (cd : codec Tensor Pil)
    (net : network) (uuid4 home : string) (fs : filesystem) (image : Tensor)
    (token_type token_name vault_url description tags : string)
    (pil_image : Pil) (r : response) :
  to_pil cd image = Ok pil_image ->
  net (VaultSaveNode.upload_request
         (VaultSaveNode.filename_of token_type token_name (substring 0 8 uuid4))
         (b64encode cd (png_bytes cd pil_image)) token_type token_name vault_url
         description tags)
  = Answer r ->
  (status_code r <> 200%Z ->
   VaultSaveNode.save_to_vault cd net uuid4 home fs image token_type token_name
     vault_url description tags
   = (fs, Ok (VStr ("local:" ++ substring 0 8 uuid4), image)))
  /\ (status_code r = 200%Z ->
      (forall d, json_body r = Some (VDict d) ->
         VaultSaveNode.save_to_vault cd net uuid4 home fs image token_type
           token_name vault_url description tags
         = (fs, Ok (get_or d "id" (VStr (substring 0 8 uuid4)), image)))
      /\ (forall v, json_body r = Some v -> is_dict v = false ->
          VaultSaveNode.save_to_vault cd net uuid4 home fs image token_type
            token_name vault_url description tags
          = (fs, Raise AttributeError))).
Proof.
  intros Hpil Hnet. split; [ | intros Hst; split].
  - intros Hst.
    apply (save_rejected cd net uuid4 home fs image token_type token_name
             vault_url description tags pil_image Hpil r Hnet Hst).
  - intros d Hb.
    apply (save_accepted cd net uuid4 home fs image token_type token_name
             vault_url description tags pil_image Hpil r d Hnet Hst Hb).
  - intros v Hb Hv.
    apply (save_body_not_dict cd net uuid4 home fs image token_type token_name
             vault_url description tags pil_image Hpil r v Hnet Hst Hb Hv).
Qed.

Lemma save_to_vault_answered_witness :
  VaultSaveNode.save_to_vault text_codec (answering_json (VDict [("ok", VBool true)]))
    "3f2b8c1e-7d4a-4c1b-9e2f-5a6b7c8d9e0f" "/home/ana" empty_disk "PNG"
    "shot" "" "http://localhost:8080" "" ""
  = (empty_disk, Ok (VStr "3f2b8c1e", "PNG"))
  /\ VaultSaveNode.save_to_vault text_codec (answering_json (VStr "stored"))
       "3f2b8c1e-7d4a-4c1b-9e2f-5a6b7c8d9e0f" "/home/ana" empty_disk "PNG"
       "shot" "" "http://localhost:8080" "" ""
     = (empty_disk, Raise AttributeError)
  /\ VaultSaveNode.save_to_vault text_codec (answering 404)
       "3f2b8c1e-7d4a-4c1b-9e2f-5a6b7c8d9e0f" "/home/ana" empty_disk "PNG"
       "shot" "" "http://localhost:8080" "" ""
     = (empty_disk, Ok (VStr "local:3f2b8c1e", "PNG")).
Proof.
  split; [ | split].
  - apply (proj1 (proj2 (save_to_vault_answered text_codec
                    (answering_json (VDict [("ok", VBool true)]))
                    "3f2b8c1e-7d4a-4c1b-9e2f-5a6b7c8d9e0f" "/home/ana" empty_disk
                    "PNG" "shot" "" "http://localhost:8080" "" "" "PNG"
                    (json_answer (VDict [("ok", VBool true)]))
                    eq_refl eq_refl) eq_refl) [("ok", VBool true)]).
    reflexivity.
  - apply (proj2 (proj2 (save_to_vault_answered text_codec
                    (answering_json (VStr "stored"))
                    "3f2b8c1e-7d4a-4c1b-9e2f-5a6b7c8d9e0f" "/home/ana" empty_disk
                    "PNG" "shot" "" "http://localhost:8080" "" "" "PNG"
                    (json_answer (VStr "stored"))
                    eq_refl eq_refl) eq_refl) (VStr "stored"));
      reflexivity.
  - apply (proj1 (save_to_vault_answered text_codec (answering 404)
                    "3f2b8c1e-7d4a-4c1b-9e2f-5a6b7c8d9e0f" "/home/ana" empty_disk
                    "PNG" "shot" "" "http://localhost:8080" "" "" "PNG"
                    {| status_code := 404; content := ""; json_body := None |}
                    eq_refl eq_refl)).
    cbn. discriminate.
Defined.

(** X8.  The local copy.  When the upload request raises, or is answered
    with status 200 and a body that is not JSON, [save_to_vault] falls
    back to the disk.  When the directory of the local path is made and
    the file is opened, it returns the [local:] id and the image, the
    file is at the local path, every file the local path does not name is
    as it was, and the directory exists.  When the directory cannot be
    made, or is made and the file cannot be opened, the call raises what
    the disk raises; the disk then holds the directories made before
    that, and its files are as they were. *)
Theorem save_to_vault_local_copy
    {Tensor Pil : Type} (cd : codec Tensor Pil)
    (net : network) (uuid4 home : string) (fs : filesystem) (image : Tensor)
    (token_type token_name vault_url description tags : string)
    (pil_image : Pil) :
  let filename :=
    VaultSaveNode.filename_of token_type token_name (substring 0 8 uuid4) in
  let rq :=
    VaultSaveNode.upload_request filename (b64encode cd (png_bytes cd pil_image))
      token_type token_name vault_url description tags in
  let local_path := VaultSaveNode.local_path_of home filename in
  let made := makedirs (dirname local_path) fs in
  to_pil cd image = Ok pil_image ->
  net rq = NoAnswer
  \/ (exists r, net rq = Answer r /\ status_code r = 200%Z /\ json_body r = None) ->
  (snd made = Ok tt -> fs_open fs local_path = None ->
   exists fs',
     VaultSaveNode.save_to_vault cd net uuid4 home fs image token_type token_name
       vault_url description tags
     = (fs', Ok (VStr ("local:" ++ substring 0 8 uuid4), image))
     /\ read_file fs' local_path = Some (png_bytes cd pil_image)
     /\ (forall p, fs_resolve fs p <> fs_resolve fs local_path ->
                   read_file fs' p = read_file fs p)
     /\ ((last_component (dirname local_path) =? ".") = false ->
         is_dir fs' (dirname local_path) = true))
  /\ (forall e,
        snd made = Raise e
        \/ (snd made = Ok tt /\ fs_open fs local_path = Some e) ->
        VaultSaveNode.save_to_vault cd net uuid4 home fs image token_type
          token_name vault_url description tags
        = (fst made, Raise e)
        /\ (forall p, read_file (fst made) p = read_file fs p)
        /\ (forall p, is_dir fs p = true -> is_dir (fst made) p = true)
        /\ (snd made = Ok tt ->
            (last_component (dirname local_path) =? ".") = false ->
            is_dir (fst made) (dirname local_path) = true)).
Proof.
  intros filename rq local_path made Hpil Hr. split.
  - intros Hm Ho.
    destruct (upload_raised_spec cd net uuid4 token_type token_name vault_url
                description tags pil_image Hr) as (e & Hu & He).
    apply (save_fallback_written cd net uuid4 home fs image token_type token_name
             vault_url description tags pil_image Hpil e Hu He Hm Ho).
  - intros e Hd. split; [ | split; [ | split]].
    + apply (save_raised_refused cd net uuid4 home fs image token_type token_name
               vault_url description tags pil_image Hpil e Hr Hd).
    + intros p. apply more_dirs_read, makedirs_more.
    + apply (makedirs_more (dirname local_path) fs).
    + apply makedirs_made.
Qed.

Lemma save_to_vault_local_copy_witness :
  VaultSaveNode.save_to_vault text_codec (fun _ => NoAnswer)
    "3f2b8c1e-7d4a-4c1b-9e2f-5a6b7c8d9e0f" "/home/ana" full_disk "PNG"
    "shot" "" "http://localhost:8080" "" ""
  = (full_disk, Raise OSError)
  /\ (let out :=
        VaultSaveNode.save_to_vault text_codec (fun _ => NoAnswer)
          "3f2b8c1e-7d4a-4c1b-9e2f-5a6b7c8d9e0f" "/home/ana" ana_disk "PNG"
          "shot" long_name "http://localhost:8080" "" "" in
      snd out = Raise OSError
      /\ is_dir (fst out) "/home/ana/CinemaOS/outputs" = true)
  /\ exists fs',
       VaultSaveNode.save_to_vault text_codec (answering 200)
         "3f2b8c1e-7d4a-4c1b-9e2f-5a6b7c8d9e0f" "/home/ana" empty_disk "PNG"
         "shot" "" "http://localhost:8080" "" ""
       = (fs', Ok (VStr "local:3f2b8c1e", "PNG"))
       /\ read_file fs' "/home/ana/CinemaOS/outputs/output_3f2b8c1e.png"
          = Some "PNG"
       /\ is_dir fs' "/home/ana/CinemaOS/outputs" = true.
Proof.
  split; [ | split].
  - apply (proj1 (proj2 (save_to_vault_local_copy text_codec (fun _ => NoAnswer)
                    "3f2b8c1e-7d4a-4c1b-9e2f-5a6b7c8d9e0f" "/home/ana" full_disk
                    "PNG" "shot" "" "http://localhost:8080" "" "" "PNG"
                    eq_refl (or_introl eq_refl)) OSError (or_introl eq_refl))).
  - destruct (proj2 (save_to_vault_local_copy text_codec (fun _ => NoAnswer)
                    "3f2b8c1e-7d4a-4c1b-9e2f-5a6b7c8d9e0f" "/home/ana" ana_disk
                    "PNG" "shot" long_name "http://localhost:8080" "" "" "PNG"
                    eq_refl (or_introl eq_refl)) OSError
                    (or_intror (conj eq_refl eq_refl)))
      as (E & _ & _ & D).
    cbv zeta. rewrite E. split; [reflexivity | ].
    apply D; reflexivity.
  - destruct (proj1 (save_to_vault_local_copy text_codec (answering 200)
                    "3f2b8c1e-7d4a-4c1b-9e2f-5a6b7c8d9e0f" "/home/ana" empty_disk
                    "PNG" "shot" "" "http://localhost:8080" "" "" "PNG"
                    eq_refl
                    (or_intror
                       (ex_intro _ {| status_code := 200; content := "";
                                      json_body := None |}
                          (conj eq_refl (conj eq_refl eq_refl)))))
                    eq_refl eq_refl)
      as (fs' & E & Hf & _ & Hd).
    exists fs'. split; [exact E | ]. split; [exact Hf | ].
    apply Hd. reflexivity.
Defined.

(** X9.  The local path of an asset is its file name under
    [<home>/CinemaOS/outputs], unless the token has a name and the token
    type starts with a slash: then the file name is an absolute path and
    the local path is that file name, outside the home directory.  When
    the token type, the token name and the UUID hold no slash, the
    directory of the local path is [<home>/CinemaOS/outputs]. *)
Theorem local_copy_path (home token_type token_name uuid4 : string) :
  let filename :=
    VaultSaveNode.filename_of token_type token_name (substring 0 8 uuid4) in
  VaultSaveNode.local_path_of home filename
  = (if negb (token_name =? "") && prefix "/" token_type then filename
     else outputs_dir home ++ "/" ++ filename)
  /\ (free_of "/" token_type = true -> free_of "/" token_name = true ->
      free_of "/" uuid4 = true ->
      dirname (VaultSaveNode.local_path_of home filename) = outputs_dir home).
Proof.
  intros filename.
  pose proof (filename_absolute token_type token_name (substring 0 8 uuid4)) as Ha.
  fold filename in Ha. split.
  - rewrite <- Ha. destruct (prefix "/" filename) eqn:E.
    + apply local_path_absolute, E.
    + apply local_path_relative, E.
  - intros H1 H2 H3.
    assert (free_of "/" filename = true) as Hf
      by (apply filename_free; [assumption | assumption | apply free_of_substring, H3]).
    assert (prefix "/" filename = false) as Hp.
    { destruct filename as [ | c f]; [reflexivity | ].
      cbn [free_of] in Hf. apply andb_true_iff in Hf. destruct Hf as [Hc _].
      apply negb_true_iff in Hc.
      change (prefix "/" (String c f)) with (if ascii_dec "/" c then prefix "" f else false).
      destruct (ascii_dec "/" c) as [<- | ]; [discriminate | reflexivity]. }
    rewrite (local_path_relative home filename Hp).
    destruct (outputs_dir_shape home) as (O1 & O2 & O3).
    apply dirname_join; assumption.
Qed.

Lemma local_copy_path_witness :
  dirname (VaultSaveNode.local_path_of "/home/ana"
             (VaultSaveNode.filename_of "character" "Ana"
                (substring 0 8 "3f2b8c1e-7d4a-4c1b-9e2f-5a6b7c8d9e0f")))
  = "/home/ana/CinemaOS/outputs".
Proof.
  apply (proj2 (local_copy_path "/home/ana" "character" "Ana"
                  "3f2b8c1e-7d4a-4c1b-9e2f-5a6b7c8d9e0f")); reflexivity.
Defined.

(** X10.  Every tag [save_to_vault] uploads is a text that is not empty,
    has no white space at either end and holds no comma. *)
Theorem tag_list_clean (tags : string) :
  Forall (fun v => exists s, v = VStr s /\ s <> "" /\ str_strip s = s
                             /\ free_of "," s = true)
         (VaultSaveNode.tag_list tags).
Proof.
  unfold VaultSaveNode.tag_list. apply Forall_forall. intros v Hv.
  apply in_map_iff in Hv. destruct Hv as (t & <- & Ht).
  apply filter_In in Ht. destruct Ht as [Ht Hne].
  exists (str_strip t). split; [reflexivity | ]. split; [ | split].
  - intros E. rewrite E in Hne. discriminate.
  - apply str_strip_idem.
  - apply str_strip_free.
    pose proof (split_on_free "," tags "" eq_refl) as Hall.
    rewrite Forall_forall in Hall. apply Hall, Ht.
Qed.

(** * The request and the outcomes of the Fal adapter *)

Section FalRequest.

Import FalProviderNode.

Context {Tensor Pil : Type} (cd : codec Tensor Pil).

Variables (net : network) (s : self) (prompt model : string) (width height : Z).
Variables (negative_prompt : string) (seed num_steps : Z) (guidance_scale : float).
Variable input_image : option Tensor.

Lemma fal_generate_no_key :
  api_key s = "" ->
  generate cd net s prompt model width height negative_prompt seed num_steps
    guidance_scale input_image
  = Raise (ValueError "FAL_API_KEY environment variable not set").
Proof. intros H. unfold generate. rewrite H. reflexivity. Qed.

(** The payload holds one float, the guidance scale. *)
Lemma fal_payload_ready (url : option string) :
  json_ready (payload_of prompt width height negative_prompt seed num_steps
                guidance_scale url)
  = is_finite guidance_scale.
Proof.
  unfold payload_of.
  destruct (negb (negative_prompt =? "")), (0 <=? seed)%Z, url;
    cbn [json_ready forallb snd app andb]; rewrite ?Bool.andb_true_r;
    reflexivity.
Qed.

Variable image_url : option string.
Hypothesis Hkey : api_key s <> "".
Hypothesis Hurl : data_url cd input_image = Ok image_url.

Let rq : request :=
  fal_request s prompt model width height negative_prompt seed num_steps
    guidance_scale image_url.

(** An infinite or NaN guidance scale is refused before anything is
    sent. *)
Lemma fal_generate_not_finite :
  is_finite guidance_scale = false ->
  generate cd net s prompt model width height negative_prompt seed num_steps
    guidance_scale input_image
  = Raise RequestException.
Proof.
  intros Hf. unfold generate.
  destruct (String.eqb_spec (api_key s) ""); [contradiction | ].
  unfold request_image. unfold data_url in Hurl.
  destruct input_image as [t | ].
  - destruct (to_pil cd t) as [img | e]; cbn [bind] in *; [ | discriminate].
    injection Hurl as <-. cbn [bind]. cbv zeta. unfold requests_post.
    rewrite fal_payload_ready, Hf. reflexivity.
  - injection Hurl as <-. cbn [bind]. cbv zeta. unfold requests_post.
    rewrite fal_payload_ready, Hf. reflexivity.
Qed.

Hypothesis Hfinite : is_finite guidance_scale = true.

Lemma fal_generate_sent :
  generate cd net s prompt model width height negative_prompt seed num_steps
    guidance_scale input_image
  = (response <- send net rq ;;
     _ <- raise_for_status response ;;
     res <- json response ;;
     found <- image_of_result cd net res ;;
     match found with
     | Some img_tensor =>
         credits <- _estimate_credits model width height ;;
         Ok (img_tensor, format_4f credits)
     | None => Raise (ValueError "No image returned from Fal.ai")
     end).
Proof.
  unfold generate. destruct (String.eqb_spec (api_key s) ""); [contradiction | ].
  unfold request_image. unfold data_url in Hurl.
  destruct input_image as [t | ].
  - destruct (to_pil cd t) as [img | e]; cbn [bind] in *; [ | discriminate].
    injection Hurl as <-. cbn [bind]. cbv zeta. unfold requests_post.
    rewrite fal_payload_ready, Hfinite. reflexivity.
  - injection Hurl as <-. cbn [bind]. cbv zeta. unfold requests_post.
    rewrite fal_payload_ready, Hfinite. reflexivity.
Qed.

Lemma fal_generate_no_answer :
  net rq = NoAnswer ->
  generate cd net s prompt model width height negative_prompt seed num_steps
    guidance_scale input_image
  = Raise RequestException.
Proof. intros H. rewrite fal_generate_sent. unfold send. rewrite H. reflexivity. Qed.

Lemma fal_generate_http_error (r : response) :
  net rq = Answer r -> (400 <= status_code r < 600)%Z ->
  generate cd net s prompt model width height negative_prompt seed num_steps
    guidance_scale input_image
  = Raise HTTPError.
Proof.
  intros H Hst. rewrite fal_generate_sent. unfold send. rewrite H. cbn [bind].
  unfold raise_for_status.
  replace ((400 <=? status_code r) && (status_code r <? 600))%Z with true
    by (symmetry; apply andb_true_iff; split; [apply Z.leb_le | apply Z.ltb_lt]; lia).
  reflexivity.
Qed.

Lemma fal_generate_answered (r : response) (d : list (string * pyval)) :
  net rq = Answer r -> ~ (400 <= status_code r < 600)%Z ->
  json_body r = Some (VDict d) ->
  generate cd net s prompt model width height negative_prompt seed num_steps
    guidance_scale input_image
  = (found <- image_of_result cd net (VDict d) ;;
     match found with
     | Some img_tensor =>
         credits <- _estimate_credits model width height ;;
         Ok (img_tensor, format_4f credits)
     | None => Raise (ValueError "No image returned from Fal.ai")
     end).
Proof.
  intros H Hst Hb. rewrite fal_generate_sent. unfold send. rewrite H. cbn [bind].
  unfold raise_for_status.
  replace ((400 <=? status_code r) && (status_code r <? 600))%Z with false.
  - cbn [bind]. unfold json. rewrite Hb. reflexivity.
  - symmetry. apply andb_false_iff.
    destruct (Z.leb_spec 400 (status_code r)); [ | left; reflexivity].
    right. apply Z.ltb_ge. lia.
Qed.

Lemma image_of_result_none (d : list (string * pyval)) :
  no_image d -> image_of_result cd net (VDict d) = Ok None.
Proof.
  unfold no_image, image_of_result, py_in, py_item.
  destruct (assoc "images" d) as [v | ]; cbn [bind]; [ | reflexivity].
  destruct v as [ | | | | | [ | [ | | | | | | i] l] | ]; try contradiction.
  - reflexivity.
  - intros H. cbn. rewrite H. reflexivity.
Qed.

Lemma image_of_result_some (d i : list (string * pyval)) (rest : list pyval)
    (u : string) :
  assoc "images" d = Some (VList (VDict i :: rest)) ->
  get_or i "url" (VStr "") = VStr u -> u <> "" ->
  image_of_result cd net (VDict d)
  = (img_response <- requests_get net u None ;;
     img <- open_image cd (content img_response) ;;
     img_tensor <- of_pil cd img ;;
     Ok (Some img_tensor)).
Proof.
  intros Hd Hi Hu. unfold image_of_result, py_in, py_item. rewrite Hd.
  cbn [bind py_len List.length py_first py_get].
  replace (0 <? Z.of_nat (S (List.length rest)))%Z with true
    by (symmetry; apply Z.ltb_lt; lia).
  rewrite Hi. cbn [py_truthy].
  destruct (String.eqb_spec u ""); [contradiction | ]. reflexivity.
Qed.

End FalRequest.

Section FalEstimate.

Import FloatFacts.

Lemma fal_estimate_corners (model : string) :
  exists lo hi,
    FalProviderNode._estimate_credits model 256 256 = Ok lo
    /\ FalProviderNode._estimate_credits model 4096 4096 = Ok hi
    /\ flt pos_zero lo = true
    /\ exists m e, lo = S754_finite false m e.
Proof.
  pose proof (fal_base_cost_cases model) as H. cbn [In] in H.
  unfold FalProviderNode._estimate_credits.
  repeat destruct H as [H | H]; try contradiction; rewrite <- H;
    eexists; eexists; (split; [vm_compute; reflexivity | ]);
    (split; [vm_compute; reflexivity | ]); (split; [reflexivity | ]);
    eexists; eexists; reflexivity.
Qed.

Lemma fal_estimate_signed (model : string) (width height : Z) (v : float) :
  (0 < width * height)%Z ->
  FalProviderNode._estimate_credits model width height = Ok v ->
  signed_in_range prec emax false v.
Proof.
  unfold FalProviderNode._estimate_credits.
  destruct (fal_base_cost_finite model) as (mb & eb & ->).
  destruct (width * height)%Z as [ | q | q] eqn:E; try lia. intros _.
  destruct (int_truediv (Zpos q) (1024 * 1024)) as [x | ] eqn:E1; [ | discriminate].
  cbn [bind]. intros [= <-].
  destruct (int_truediv_pos q x E1) as (m & e & -> & _).
  apply fmul_signed.
Qed.

Lemma flt_above (m : positive) (e : Z) (v : float) :
  signed_in_range prec emax false v ->
  fle (S754_finite false m e) v = true -> flt pos_zero v = true.
Proof.
  destruct v as [[ | ] | [ | ] | | [ | ] m' e']; cbn; try tauto; try discriminate;
    intros H; try (destruct H; discriminate); try discriminate; try reflexivity.
Qed.

End FalEstimate.

(** X11.  What Fal's [generate] raises.  Without an API key it raises
    [ValueError] whatever the network would answer.  With one: a guidance
    scale that is infinite or NaN is refused by [requests] before anything
    is sent ([RequestException], not caught); for a finite one, a request
    that raises is not caught ([RequestException]); an answer with a 4xx
    or 5xx status raises [HTTPError]; an answer with another status and a
    JSON object that holds no image (no [images], an empty list, or a
    first entry without a [url]) raises [ValueError] with the message
    [No image returned from Fal.ai]. *)
Theorem fal_generate_refusals
    {Tensor Pil : Type} (cd : codec Tensor Pil)
    (net : network) (s : FalProviderNode.self) (prompt model : string)
    (width height : Z) (negative_prompt : string) (seed num_steps : Z)
    (guidance_scale : float) (input_image : option Tensor) :
  (FalProviderNode.api_key s = "" ->
   FalProviderNode.generate cd net s prompt model width height negative_prompt
     seed num_steps guidance_scale input_image
   = Raise (ValueError "FAL_API_KEY environment variable not set"))
  /\ forall image_url,
       FalProviderNode.api_key s <> "" ->
       data_url cd input_image = Ok image_url ->
       let rq :=
         fal_request s prompt model width height negative_prompt seed num_steps
           guidance_scale image_url in
       (is_finite guidance_scale = false ->
        FalProviderNode.generate cd net s prompt model width height
          negative_prompt seed num_steps guidance_scale input_image
        = Raise RequestException)
       /\ (is_finite guidance_scale = true ->
           (net rq = NoAnswer ->
            FalProviderNode.generate cd net s prompt model width height
              negative_prompt seed num_steps guidance_scale input_image
            = Raise RequestException)
           /\ (forall r, net rq = Answer r -> (400 <= status_code r < 600)%Z ->
               FalProviderNode.generate cd net s prompt model width height
                 negative_prompt seed num_steps guidance_scale input_image
               = Raise HTTPError)
           /\ (forall r d, net rq = Answer r ->
               ~ (400 <= status_code r < 600)%Z ->
               json_body r = Some (VDict d) -> no_image d ->
               FalProviderNode.generate cd net s prompt model width height
                 negative_prompt seed num_steps guidance_scale input_image
               = Raise (ValueError "No image returned from Fal.ai"))).
Proof.
  split; [apply fal_generate_no_key | ].
  intros image_url Hkey Hurl rq. split; [ | intros Hfin; split; [ | split]].
  - apply (fal_generate_not_finite cd net s prompt model width height
             negative_prompt seed num_steps guidance_scale input_image image_url
             Hkey Hurl).
  - apply (fal_generate_no_answer cd net s prompt model width height
             negative_prompt seed num_steps guidance_scale input_image image_url
             Hkey Hurl Hfin).
  - apply (fal_generate_http_error cd net s prompt model width height
             negative_prompt seed num_steps guidance_scale input_image image_url
             Hkey Hurl Hfin).
  - intros r d Hnet Hst Hb Hd.
    rewrite (fal_generate_answered cd net s prompt model width height
               negative_prompt seed num_steps guidance_scale input_image image_url
               Hkey Hurl Hfin r d Hnet Hst Hb).
    rewrite image_of_result_none by assumption. reflexivity.
Qed.

Lemma fal_generate_refusals_witness :
  FalProviderNode.generate text_codec (answering 200) (FalProviderNode.__init__ [])
    "a harbour at dusk" "flux-2-pro" 1024 1024 "" (-1) 28
    (of_decimal false 75 (-1)) None
  = Raise (ValueError "FAL_API_KEY environment variable not set")
  /\ FalProviderNode.generate text_codec (answering 503)
       (FalProviderNode.__init__ [("FAL_API_KEY", "k-1")])
       "a harbour at dusk" "flux-2-pro" 1024 1024 "" (-1) 28
       (of_decimal false 75 (-1)) None
     = Raise HTTPError
  /\ FalProviderNode.generate text_codec fal_service
       (FalProviderNode.__init__ [("FAL_API_KEY", "k-1")])
       "a harbour at dusk" "flux-2-pro" 1024 1024 "" (-1) 28 S754_nan None
     = Raise RequestException.
Proof.
  split; [ | split].
  - apply (proj1 (fal_generate_refusals text_codec (answering 200)
                    (FalProviderNode.__init__ []) "a harbour at dusk" "flux-2-pro"
                    1024 1024 "" (-1) 28 (of_decimal false 75 (-1)) None)).
    reflexivity.
  - apply (proj1 (proj2 (proj2 (proj2 (fal_generate_refusals text_codec
                    (answering 503)
                    (FalProviderNode.__init__ [("FAL_API_KEY", "k-1")])
                    "a harbour at dusk" "flux-2-pro"
                    1024 1024 "" (-1) 28 (of_decimal false 75 (-1)) None)
                    None ltac:(cbn; discriminate) eq_refl) eq_refl))
             {| status_code := 503; content := ""; json_body := None |});
      [reflexivity | cbn; lia].
  - apply (proj1 (proj2 (fal_generate_refusals text_codec fal_service
                    (FalProviderNode.__init__ [("FAL_API_KEY", "k-1")])
                    "a harbour at dusk" "flux-2-pro"
                    1024 1024 "" (-1) 28 S754_nan None)
                    None ltac:(cbn; discriminate) eq_refl)).
    reflexivity.
Defined.

(** X12.  What Fal's [generate] returns.  When the guidance scale is
    finite, the POST is answered with a status outside 4xx and 5xx (200
    or not) and a JSON object whose first image has a URL, the image is
    fetched from that URL and decoded whatever the status of that second
    answer, and [generate] returns it with the estimate of the model at
    the requested size, printed with four decimals. *)
Theorem fal_generate_returns
    {Tensor Pil : Type} (cd : codec Tensor Pil)
    (net : network) (s : FalProviderNode.self) (prompt model : string)
    (width height : Z) (negative_prompt : string) (seed num_steps : Z)
    (guidance_scale : float) (input_image : option Tensor)
    (image_url : option string) (r r' : response)
    (d i : list (string * pyval)) (rest : list pyval) (u : string)
    (img : Pil) (img_tensor : Tensor) :
  FalProviderNode.api_key s <> "" ->
  data_url cd input_image = Ok image_url ->
  is_finite guidance_scale = true ->
  net (fal_request s prompt model width height negative_prompt seed num_steps
         guidance_scale image_url) = Answer r ->
  ~ (400 <= status_code r < 600)%Z ->
  json_body r = Some (VDict d) ->
  assoc "images" d = Some (VList (VDict i :: rest)) ->
  get_or i "url" (VStr "") = VStr u -> u <> "" ->
  net (get_request u None) = Answer r' ->
  open_image cd (content r') = Ok img ->
  of_pil cd img = Ok img_tensor ->
  (- 2 ^ 53 < width * height < 2 ^ 53)%Z ->
  exists credits,
    FalProviderNode._estimate_credits model width height = Ok credits
    /\ FalProviderNode.generate cd net s prompt model width height negative_prompt
         seed num_steps guidance_scale input_image
       = Ok (img_tensor, format_4f credits).
Proof.
  intros Hkey Hurl Hfin Hnet Hst Hb Hd Hi Hu Hget Himg Hten Hp.
  destruct (fal_estimate_returns model width height Hp) as (credits & Hc).
  exists credits. split; [exact Hc | ].
  rewrite (fal_generate_answered cd net s prompt model width height
             negative_prompt seed num_steps guidance_scale input_image image_url
             Hkey Hurl Hfin r d Hnet Hst Hb).
  rewrite (image_of_result_some cd net d i rest u Hd Hi Hu).
  unfold requests_get, send. rewrite Hget. cbn [bind].
  rewrite Himg. cbn [bind]. rewrite Hten. cbn [bind]. rewrite Hc. reflexivity.
Qed.

Lemma fal_generate_returns_witness :
  exists credits,
    FalProviderNode._estimate_credits "flux-2-pro" 1024 1024 = Ok credits
    /\ FalProviderNode.generate text_codec fal_stale_service
         (FalProviderNode.__init__ [("FAL_API_KEY", "k-1")])
         "a harbour at dusk" "flux-2-pro" 1024 1024 "" (-1) 28
         (of_decimal false 75 (-1)) None
       = Ok ("PNG", format_4f credits).
Proof.
  apply (fal_generate_returns text_codec fal_stale_service
           (FalProviderNode.__init__ [("FAL_API_KEY", "k-1")])
           "a harbour at dusk" "flux-2-pro" 1024 1024 "" (-1) 28
           (of_decimal false 75 (-1)) None None fal_created fal_gone
           [("images", VList [VDict fal_image])] fal_image []
           "https://fal.media/a.png" "PNG" "PNG");
    try reflexivity; cbn; try lia; discriminate.
Defined.

(** X13.  For every model and all widths and heights the node declares
    (256 to 4096), the Fal estimate is returned, is greater than zero, and
    lies between the estimates at 256 x 256 and at 4096 x 4096. *)
Theorem fal_estimate_declared_range (model : string) (width height : Z) :
  (256 <= width <= 4096)%Z -> (256 <= height <= 4096)%Z ->
  exists lo v hi,
    FalProviderNode._estimate_credits model 256 256 = Ok lo
    /\ FalProviderNode._estimate_credits model width height = Ok v
    /\ FalProviderNode._estimate_credits model 4096 4096 = Ok hi
    /\ fle lo v = true /\ fle v hi = true /\ flt pos_zero v = true.
Proof.
  intros Hw Hh.
  assert (256 * 256 <= width * height <= 4096 * 4096)%Z as Hp by nia.
  destruct (fal_estimate_corners model) as (lo & hi & Elo & Ehi & _ & m & e & Hlo).
  destruct (fal_estimate_returns model width height ltac:(lia)) as (v & Ev).
  exists lo, v, hi. repeat split; try assumption.
  - apply (fal_estimate_mono_all model 256 256 width height); assumption || lia.
  - apply (fal_estimate_mono_all model width height 4096 4096); assumption || lia.
  - apply (flt_above m e).
    + apply (fal_estimate_signed model width height); [lia | assumption].
    + rewrite <- Hlo.
      apply (fal_estimate_mono_all model 256 256 width height); assumption || lia.
Qed.

Lemma fal_estimate_declared_range_witness :
  exists lo v hi,
    FalProviderNode._estimate_credits "kling-v2.5-turbo" 256 256 = Ok lo
    /\ FalProviderNode._estimate_credits "kling-v2.5-turbo" 1920 1080 = Ok v
    /\ FalProviderNode._estimate_credits "kling-v2.5-turbo" 4096 4096 = Ok hi
    /\ fle lo v = true /\ fle v hi = true /\ flt pos_zero v = true.
Proof.
  apply (fal_estimate_declared_range "kling-v2.5-turbo" 1920 1080); lia.
Defined.

(** X14.  The POST of Fal's [generate].  With an API key, an input image
    that converts (or none) and a finite guidance scale, there is one
    request such that, whatever the network, [generate] is what sending
    that request and reading the answer give.  It is a POST, its URL is
    the base URL and one of the five endpoints of the table, it carries
    no time-out, its [Authorization] header is [Key] and the API key, and
    its payload has the [seed] exactly when the seed is not negative, the
    [negative_prompt] exactly when it is not empty, the [image_url]
    exactly when there is an input image, and the size as given. *)
Theorem fal_request_contents
    {Tensor Pil : Type} (cd : codec Tensor Pil)
    (s : FalProviderNode.self) (prompt model : string)
    (width height : Z) (negative_prompt : string) (seed num_steps : Z)
    (guidance_scale : float) (input_image : option Tensor)
    (image_url : option string) :
  FalProviderNode.api_key s <> "" ->
  data_url cd input_image = Ok image_url ->
  is_finite guidance_scale = true ->
  exists rq : request,
    (forall net : network,
       FalProviderNode.generate cd net s prompt model width height
         negative_prompt seed num_steps guidance_scale input_image
       = (response <- send net rq ;;
          _ <- raise_for_status response ;;
          res <- json response ;;
          found <- FalProviderNode.image_of_result cd net res ;;
          match found with
          | Some img_tensor =>
              credits <- FalProviderNode._estimate_credits model width height ;;
              Ok (img_tensor, format_4f credits)
          | None => Raise (ValueError "No image returned from Fal.ai")
          end))
    /\ req_method rq = "POST"
    /\ (exists endpoint,
          In endpoint (map snd FalProviderNode.model_endpoints)
          /\ req_url rq = FalProviderNode.base_url s ++ "/" ++ endpoint)
    /\ req_timeout rq = None
    /\ assoc "Authorization" (req_headers rq)
       = Some ("Key " ++ FalProviderNode.api_key s)
    /\ exists payload,
         req_json rq = Some (VDict payload)
         /\ assoc "seed" payload
            = (if (0 <=? seed)%Z then Some (VInt seed) else None)
         /\ assoc "negative_prompt" payload
            = (if negative_prompt =? "" then None
               else Some (VStr negative_prompt))
         /\ assoc "image_url" payload = option_map VStr image_url
         /\ assoc "image_size" payload
            = Some (VDict [("width", VInt width); ("height", VInt height)]).
Proof.
  intros Hkey Hurl Hfin.
  exists (fal_request s prompt model width height negative_prompt seed num_steps
            guidance_scale image_url).
  split; [ | split; [reflexivity
                    | split; [ | split; [reflexivity | split; [reflexivity | ]]]]].
  - intros net.
    apply (fal_generate_sent cd net s prompt model width height negative_prompt
             seed num_steps guidance_scale input_image image_url Hkey Hurl Hfin).
  - exists (FalProviderNode.endpoint_of model). split; [ | reflexivity].
    unfold FalProviderNode.endpoint_of, get_or, FalProviderNode.model_endpoints,
      assoc.
    repeat match goal with
           | |- context [if ?b then _ else _] => destruct b
           end; cbn; tauto.
  - eexists. split; [reflexivity | ].
    destruct (negative_prompt =? ""), (0 <=? seed)%Z, image_url; cbn;
      repeat split; reflexivity.
Qed.

Lemma fal_request_contents_witness :
  exists rq : request,
    (forall net : network,
       FalProviderNode.generate text_codec net
         (FalProviderNode.__init__ [("FAL_API_KEY", "k-1")])
         "a harbour at dusk" "flux-2-pro" 1024 768 "" 7 28
         (of_decimal false 75 (-1)) None
       = (response <- send net rq ;;
          _ <- raise_for_status response ;;
          res <- json response ;;
          found <- FalProviderNode.image_of_result text_codec net res ;;
          match found with
          | Some img_tensor =>
              credits <- FalProviderNode._estimate_credits "flux-2-pro" 1024 768 ;;
              Ok (img_tensor, format_4f credits)
          | None => Raise (ValueError "No image returned from Fal.ai")
          end))
    /\ req_method rq = "POST"
    /\ req_timeout rq = None
    /\ assoc "Authorization" (req_headers rq) = Some "Key k-1".
Proof.
  destruct (fal_request_contents text_codec
              (FalProviderNode.__init__ [("FAL_API_KEY", "k-1")])
              "a harbour at dusk" "flux-2-pro" 1024 768 "" 7 28
              (of_decimal false 75 (-1)) None None
              ltac:(cbn; discriminate) eq_refl eq_refl)
    as (rq & Hsent & Hmethod & _ & Htimeout & Hauth & _).
  exists rq. repeat split; assumption.
Defined.

(** X15.  Fal's [_estimate_credits] never divides by zero: for every model
    it returns whenever the pixel count is below [2^1023] in absolute
    value, and the only exception it raises at all is the [OverflowError]
    of the true division. *)
Theorem fal_estimate_raises_only_overflow (model : string) (width height : Z) :
  ((Z.abs (width * height) < 2 ^ 1023)%Z ->
   exists v, FalProviderNode._estimate_credits model width height = Ok v)
  /\ forall e,
       FalProviderNode._estimate_credits model width height = Raise e ->
       e = OverflowError.
Proof.
  unfold FalProviderNode._estimate_credits. split.
  - intros Hp.
    destruct (int_truediv_returns (width * height) (1024 * 1024)
                ltac:(discriminate) Hp) as (q & ->).
    eexists. reflexivity.
  - intros e. unfold int_truediv.
    change (1024 * 1024 =? 0)%Z with false. cbv iota.
    destruct (fdiv _ _); cbn [bind]; intros H; try discriminate H.
    injection H as <-. reflexivity.
Qed.

Lemma fal_estimate_raises_only_overflow_witness :
  exists v, FalProviderNode._estimate_credits "seedream-4.5" 4096 4096 = Ok v.
Proof.
  apply (proj1 (fal_estimate_raises_only_overflow "seedream-4.5" 4096 4096)).
  reflexivity.
Defined.

(** * The calls and the outcomes of the Vertex adapter *)

Section VertexCalls.

Import VertexProviderNode.

Context {Tensor Pil : Type} (cd : codec Tensor Pil).

Lemma aspect_ratio_zero_height (width : Z) :
  _get_aspect_ratio width 0 = Raise ZeroDivisionError.
Proof. reflexivity. Qed.

Lemma aspect_ratio_listed (width height : Z) (a : string) :
  _get_aspect_ratio width height = Ok a -> In a aspect_ratios.
Proof.
  unfold _get_aspect_ratio, aspect_ratios.
  destruct (int_truediv width height) as [ratio | ]; [ | discriminate].
  cbn [bind].
  repeat match goal with
         | |- context [if ?b then _ else _] => destruct b
         end; intros [= <-]; cbn; tauto.
Qed.

Lemma veo_not_imagen (model : string) :
  prefix "veo" model = true -> prefix "imagen" model = false.
Proof.
  destruct model as [ | c r]; [discriminate | ].
  change (prefix "veo" (String c r))
    with (if ascii_dec "v" c then prefix "eo" r else false).
  change (prefix "imagen" (String c r))
    with (if ascii_dec "i" c then prefix "magen" r else false).
  destruct (ascii_dec "v" c) as [<- | ]; [ | discriminate]. intros _.
  destruct (ascii_dec "i" "v"); [discriminate | reflexivity].
Qed.

Lemma vertex_cost_imagen (model : string) (width height : Z) :
  prefix "imagen" model = true ->
  format_4f (_estimate_credits model width height)
  = if model =? "imagen-4" then "0.0400" else "0.0200".
Proof.
  intros Hp. unfold _estimate_credits, get_or, costs, assoc.
  rewrite (String.eqb_sym "imagen-4" model).
  destruct (model =? "imagen-4"); [vm_compute; reflexivity | ].
  destruct ("imagen-4-fast" =? model); [vm_compute; reflexivity | ].
  destruct (String.eqb_spec "veo-3.1" model) as [<- | ]; [discriminate | ].
  vm_compute; reflexivity.
Qed.

Lemma vertex_cost_imagen_value (model : string) (width height : Z) :
  prefix "imagen" model = true ->
  parsed_charge (if model =? "imagen-4" then "0.0400" else "0.0200")
  = _estimate_credits model width height.
Proof.
  intros Hp. unfold _estimate_credits, get_or, costs, assoc.
  rewrite (String.eqb_sym "imagen-4" model).
  destruct (model =? "imagen-4"); [vm_compute; reflexivity | ].
  destruct ("imagen-4-fast" =? model); [vm_compute; reflexivity | ].
  destruct (String.eqb_spec "veo-3.1" model) as [<- | ]; [discriminate | ].
  vm_compute; reflexivity.
Qed.

Variables (sdk : imagen_sdk (Pil := Pil)) (s : self) (prompt model : string).
Variables (width height : Z) (negative_prompt : string) (seed num_images : Z).
Variable input_image : option Tensor.

Lemma vertex_generate_no_sdk :
  generate cd false sdk s prompt model width height negative_prompt seed
    num_images input_image
  = Raise (ImportError "google-cloud-aiplatform package not installed").
Proof. reflexivity. Qed.

Lemma vertex_generate_no_project :
  project_id s = "" ->
  generate cd true sdk s prompt model width height negative_prompt seed
    num_images input_image
  = Raise (ValueError "GOOGLE_CLOUD_PROJECT environment variable not set").
Proof. intros H. unfold generate. rewrite H. reflexivity. Qed.

Hypothesis Hproject : project_id s <> "".

Lemma vertex_generate_init :
  generate cd true sdk s prompt model width height negative_prompt seed
    num_images input_image
  = (_ <- sdk_init sdk (project_id s) (location s) ;;
     if prefix "imagen" model then
       _generate_imagen cd sdk prompt model width height negative_prompt seed
         num_images input_image
     else if prefix "veo" model then
       Raise (NotImplementedError
                "Veo video generation requires video output handling")
     else Raise (ValueError ("Unknown model: " ++ model))).
Proof.
  unfold generate. cbn [negb].
  destruct (String.eqb_spec (project_id s) ""); [contradiction | ]. reflexivity.
Qed.

Lemma vertex_generate_credits (img_tensor : Tensor) (credits : string) :
  generate cd true sdk s prompt model width height negative_prompt seed
    num_images input_image
  = Ok (img_tensor, credits) ->
  prefix "imagen" model = true
  /\ credits = if model =? "imagen-4" then "0.0400" else "0.0200".
Proof.
  rewrite vertex_generate_init.
  destruct (sdk_init sdk _ _) as [[] | ]; [ | discriminate]. cbn [bind].
  destruct (prefix "imagen" model) eqn:Hp.
  - unfold _generate_imagen.
    destruct (from_pretrained sdk model) as [[] | ]; [ | discriminate]. cbn [bind].
    destruct (_get_aspect_ratio width height) as [a | ]; [ | discriminate].
    cbn [bind].
    destruct (match input_image with Some _ => _ | None => _ end) as [b | ];
      [ | discriminate].
    cbn [bind]. destruct (run_model sdk _) as [[ | img imgs] | ]; try discriminate.
    cbn [bind]. destruct (of_pil cd img) as [t | ]; [ | discriminate].
    cbn [bind]. intros [= _ <-]. split; [reflexivity | ].
    apply vertex_cost_imagen, Hp.
  - destruct (prefix "veo" model); discriminate.
Qed.

Hypothesis Hinit : sdk_init sdk (project_id s) (location s) = Ok tt.

Lemma vertex_generate_veo :
  prefix "veo" model = true ->
  generate cd true sdk s prompt model width height negative_prompt seed
    num_images input_image
  = Raise (NotImplementedError
             "Veo video generation requires video output handling").
Proof.
  intros Hv. rewrite vertex_generate_init, Hinit. cbn [bind].
  rewrite (veo_not_imagen model Hv), Hv. reflexivity.
Qed.

Hypothesis Himagen : prefix "imagen" model = true.
Hypothesis Hloaded : from_pretrained sdk model = Ok tt.

Lemma vertex_generate_flat_image :
  height = 0%Z ->
  generate cd true sdk s prompt model width height negative_prompt seed
    num_images input_image
  = Raise ZeroDivisionError.
Proof.
  intros Hh. rewrite vertex_generate_init, Hinit. cbn [bind]. rewrite Himagen.
  unfold _generate_imagen. rewrite Hloaded. cbn [bind]. rewrite Hh. reflexivity.
Qed.

Lemma vertex_generate_called (aspect : string) (base_image : option Pil) :
  _get_aspect_ratio width height = Ok aspect ->
  base_image_of cd input_image = Ok base_image ->
  generate cd true sdk s prompt model width height negative_prompt seed
    num_images input_image
  = (images <- run_model sdk
                 (vertex_call prompt model negative_prompt seed num_images aspect
                    base_image) ;;
     match images with
     | img :: _ =>
         img_tensor <- of_pil cd img ;;
         Ok (img_tensor, format_4f (_estimate_credits model width height))
     | [] => Raise (ValueError "No image returned from Vertex AI")
     end).
Proof.
  intros Ha Hb. rewrite vertex_generate_init, Hinit. cbn [bind]. rewrite Himagen.
  unfold _generate_imagen. rewrite Hloaded, Ha. cbn [bind].
  unfold base_image_of in Hb.
  destruct input_image as [t | ].
  - destruct (to_pil cd t) as [img | ]; [ | discriminate]. cbn [bind] in *.
    injection Hb as <-. reflexivity.
  - injection Hb as <-. reflexivity.
Qed.

End VertexCalls.

Section Square.

Import FloatFacts.
Local Open Scope Z_scope.

Lemma SFdiv_core_self (m : positive) :
  SFdiv_core_binary prec emax (Zpos m) 0 (Zpos m) 0 = (2 ^ 53, -53, loc_Exact).
Proof.
  unfold SFdiv_core_binary.
  replace (Zdigits2 (Zpos m) + 0 - (Zdigits2 (Zpos m) + 0)) with 0 by lia.
  change (Z.min (SpecFloat.fexp prec emax 0) (0 - 0)) with (-53).
  change (0 - 0 - -53) with 53. cbv iota.
  rewrite Z.shiftl_mul_pow2 by lia.
  rewrite div_eucl_div_mod, Z.mul_comm, Z.div_mul, Z.mod_mul by lia.
  unfold new_location, new_location_even, new_location_odd.
  destruct (Z.even (Zpos m)); reflexivity.
Qed.

Lemma fdiv_self (s : bool) (m : positive) :
  fdiv (S754_finite s m 0) (S754_finite s m 0)
  = S754_finite false 4503599627370496 (-52).
Proof.
  unfold fdiv, SFdiv. rewrite SFdiv_core_self.
  replace (xorb s s) with false by (destruct s; reflexivity).
  vm_compute. reflexivity.
Qed.

Lemma aspect_ratio_square (width : Z) :
  width <> 0 -> VertexProviderNode._get_aspect_ratio width width = Ok "1:1"%string.
Proof.
  intros Hw. unfold VertexProviderNode._get_aspect_ratio, int_truediv.
  destruct (Z.eqb_spec width 0); [contradiction | ].
  destruct width as [ | m | m]; [contradiction | | ]; cbn [of_Z];
    rewrite fdiv_self; vm_compute; reflexivity.
Qed.

End Square.

(** X16.  What Vertex's [generate] raises.  Without the SDK it raises
    [ImportError], before it looks at the project; with the SDK and no
    project it raises [ValueError], before it touches the SDK.  With both
    and the SDK initialised: every model whose name starts with [veo]
    (the [veo-3.1] the node offers among them) raises
    [NotImplementedError]; an Imagen model that loads raises
    [ZeroDivisionError] for a height of zero, and [ValueError] with the
    message [No image returned from Vertex AI] when the SDK returns no
    image. *)
Theorem vertex_generate_refusals
    {Tensor Pil : Type} (cd : codec Tensor Pil)
    (sdk : VertexProviderNode.imagen_sdk (Pil := Pil)) (s : VertexProviderNode.self)
    (prompt model : string) (width height : Z) (negative_prompt : string)
    (seed num_images : Z) (input_image : option Tensor) :
  VertexProviderNode.generate cd false sdk s prompt model width height
    negative_prompt seed num_images input_image
  = Raise (ImportError "google-cloud-aiplatform package not installed")
  /\ (VertexProviderNode.project_id s = "" ->
      VertexProviderNode.generate cd true sdk s prompt model width height
        negative_prompt seed num_images input_image
      = Raise (ValueError "GOOGLE_CLOUD_PROJECT environment variable not set"))
  /\ (VertexProviderNode.project_id s <> "" ->
      VertexProviderNode.sdk_init sdk (VertexProviderNode.project_id s)
        (VertexProviderNode.location s) = Ok tt ->
      (prefix "veo" model = true ->
       VertexProviderNode.generate cd true sdk s prompt model width height
         negative_prompt seed num_images input_image
       = Raise (NotImplementedError
                  "Veo video generation requires video output handling"))
      /\ (prefix "imagen" model = true ->
          VertexProviderNode.from_pretrained sdk model = Ok tt ->
          (height = 0%Z ->
           VertexProviderNode.generate cd true sdk s prompt model width height
             negative_prompt seed num_images input_image
           = Raise ZeroDivisionError)
          /\ (forall aspect base_image,
                VertexProviderNode._get_aspect_ratio width height = Ok aspect ->
                base_image_of cd input_image = Ok base_image ->
                VertexProviderNode.run_model sdk
                  (vertex_call prompt model negative_prompt seed num_images
                     aspect base_image) = Ok [] ->
                VertexProviderNode.generate cd true sdk s prompt model width
                  height negative_prompt seed num_images input_image
                = Raise (ValueError "No image returned from Vertex AI")))).
Proof.
  split; [reflexivity | ]. split; [apply vertex_generate_no_project | ].
  intros Hp Hinit. split.
  - apply vertex_generate_veo; assumption.
  - intros Hi Hl. split.
    + apply vertex_generate_flat_image; assumption.
    + intros aspect base_image Ha Hb Hr.
      rewrite (vertex_generate_called cd sdk s prompt model width height
                 negative_prompt seed num_images input_image Hp Hinit Hi Hl
                 aspect base_image Ha Hb).
      rewrite Hr. reflexivity.
Qed.

Lemma vertex_generate_refusals_witness :
  VertexProviderNode.generate text_codec true vertex_service
    (VertexProviderNode.__init__ [("GOOGLE_CLOUD_PROJECT", "cinema")])
    "a harbour at dusk" "veo-3.1" 1024 1024 "" (-1) 1 None
  = Raise (NotImplementedError
             "Veo video generation requires video output handling")
  /\ VertexProviderNode.generate text_codec true vertex_service
       (VertexProviderNode.__init__ [])
       "a harbour at dusk" "imagen-4" 1024 1024 "" (-1) 1 None
     = Raise (ValueError "GOOGLE_CLOUD_PROJECT environment variable not set").
Proof.
  split.
  - apply (proj1 (proj2 (proj2 (vertex_generate_refusals text_codec vertex_service
                    (VertexProviderNode.__init__ [("GOOGLE_CLOUD_PROJECT", "cinema")])
                    "a harbour at dusk" "veo-3.1" 1024 1024 "" (-1) 1 None))
                    ltac:(cbn; discriminate) eq_refl)).
    reflexivity.
  - apply (proj1 (proj2 (vertex_generate_refusals text_codec vertex_service
                    (VertexProviderNode.__init__ [])
                    "a harbour at dusk" "imagen-4" 1024 1024 "" (-1) 1 None))).
    reflexivity.
Defined.

(** X17.  Whenever Vertex's [generate] returns, the model name starts
    with [imagen] and the credits are the text [0.0400] for [imagen-4]
    and [0.0200] for every other name: the cost 0.50 of [veo-3.1] is
    never returned, and neither the size nor the number of images changes
    the credits.  It does return, with the first image of the SDK's
    answer, when the SDK is initialised, the model loads, the aspect ratio
    is computed and the call yields at least one image that converts. *)
Theorem vertex_generate_flat_credits
    {Tensor Pil : Type} (cd : codec Tensor Pil)
    (sdk : VertexProviderNode.imagen_sdk (Pil := Pil)) (s : VertexProviderNode.self)
    (prompt model : string) (width height : Z) (negative_prompt : string)
    (seed num_images : Z) (input_image : option Tensor) :
  (forall has_google_cloud img_tensor credits,
     VertexProviderNode.generate cd has_google_cloud sdk s prompt model width
       height negative_prompt seed num_images input_image
     = Ok (img_tensor, credits) ->
     prefix "imagen" model = true
     /\ credits = if model =? "imagen-4" then "0.0400" else "0.0200")
  /\ forall aspect base_image img rest img_tensor,
       VertexProviderNode.project_id s <> "" ->
       VertexProviderNode.sdk_init sdk (VertexProviderNode.project_id s)
         (VertexProviderNode.location s) = Ok tt ->
       prefix "imagen" model = true ->
       VertexProviderNode.from_pretrained sdk model = Ok tt ->
       VertexProviderNode._get_aspect_ratio width height = Ok aspect ->
       base_image_of cd input_image = Ok base_image ->
       VertexProviderNode.run_model sdk
         (vertex_call prompt model negative_prompt seed num_images aspect
            base_image) = Ok (img :: rest) ->
       of_pil cd img = Ok img_tensor ->
       VertexProviderNode.generate cd true sdk s prompt model width height
         negative_prompt seed num_images input_image
       = Ok (img_tensor, if model =? "imagen-4" then "0.0400" else "0.0200").
Proof.
  split.
  - intros [ | ] img_tensor credits H.
    + destruct (String.eqb_spec (VertexProviderNode.project_id s) "") as [E | E].
      * rewrite vertex_generate_no_project in H by assumption. discriminate.
      * apply (vertex_generate_credits cd sdk s prompt model width height
                 negative_prompt seed num_images input_image E img_tensor credits H).
    + discriminate.
  - intros aspect base_image img rest img_tensor Hp Hinit Hi Hl Ha Hb Hr Ht.
    rewrite (vertex_generate_called cd sdk s prompt model width height
               negative_prompt seed num_images input_image Hp Hinit Hi Hl
               aspect base_image Ha Hb).
    rewrite Hr. cbn [bind]. rewrite Ht. cbn [bind].
    rewrite vertex_cost_imagen by assumption. reflexivity.
Qed.

Lemma vertex_generate_flat_credits_witness :
  VertexProviderNode.generate text_codec true vertex_batch
    (VertexProviderNode.__init__ [("GOOGLE_CLOUD_PROJECT", "cinema")])
    "a harbour at dusk" "imagen-4" 4096 2304 "" (-1) 4 None
  = Ok ("PNG 1", "0.0400").
Proof.
  apply (proj2 (vertex_generate_flat_credits text_codec vertex_batch
                  (VertexProviderNode.__init__ [("GOOGLE_CLOUD_PROJECT", "cinema")])
                  "a harbour at dusk" "imagen-4" 4096 2304 "" (-1) 4 None)
           "16:9" None "PNG 1" ["PNG 2"; "PNG 3"; "PNG 4"] "PNG 1");
    try reflexivity.
  cbn. discriminate.
Defined.

(** X18.  [_get_aspect_ratio] raises [ZeroDivisionError] for a height of
    zero; for every other height and every width below [2^1023] in
    absolute value it returns one of the five labels [16:9], [9:16],
    [4:3], [3:4], [1:1], and whenever it returns, it returns one of them;
    an image as wide as high is [1:1]. *)
Theorem aspect_ratio_labels (width height : Z) :
  VertexProviderNode._get_aspect_ratio width 0 = Raise ZeroDivisionError
  /\ (height <> 0%Z -> (Z.abs width < 2 ^ 1023)%Z ->
      exists a, VertexProviderNode._get_aspect_ratio width height = Ok a
                /\ In a aspect_ratios)
  /\ (forall a, VertexProviderNode._get_aspect_ratio width height = Ok a ->
                In a aspect_ratios)
  /\ (width <> 0%Z -> VertexProviderNode._get_aspect_ratio width width = Ok "1:1").
Proof.
  split; [reflexivity | ]. split; [ | split].
  - intros Hh Hw. destruct (int_truediv_returns width height Hh Hw) as (q & Hq).
    assert (exists a, VertexProviderNode._get_aspect_ratio width height = Ok a)
      as (a & Ha).
    { unfold VertexProviderNode._get_aspect_ratio. rewrite Hq. cbn [bind].
      repeat match goal with
             | |- context [if ?b then _ else _] => destruct b
             end; eexists; reflexivity. }
    exists a. split; [exact Ha | apply (aspect_ratio_listed width height a Ha)].
  - intros a. apply aspect_ratio_listed.
  - apply aspect_ratio_square.
Qed.

Lemma aspect_ratio_labels_witness :
  (exists a, VertexProviderNode._get_aspect_ratio 1920 1080 = Ok a
             /\ In a aspect_ratios)
  /\ VertexProviderNode._get_aspect_ratio 3000 3000 = Ok "1:1".
Proof.
  split.
  - apply (proj1 (proj2 (aspect_ratio_labels 1920 1080)));
      [discriminate | reflexivity].
  - apply (proj2 (proj2 (proj2 (aspect_ratio_labels 3000 1080)))). discriminate.
Defined.

(** * Aspect ratios against the exact fraction *)

Section Thresholds.

Import FloatFacts.
Local Open Scope Z_scope.

(** The position of a remainder, written with two more binary digits. *)
Lemma new_location_half_code (h r : Z) :
  0 < h -> 0 <= r < h ->
  new_location h r = new_location (2 ^ 2) (half_code h r).
Proof.
  intros Hh Hr. unfold new_location, half_code.
  change (IntDef.Z.even (2 ^ 2)) with true. cbv iota.
  change (IntDef.Z.even h) with (Z.even h).
  destruct (Z.even h) eqn:Ev; unfold new_location_even, new_location_odd;
    (destruct (Z.eqb_spec r 0) as [R0 | R0]; [reflexivity | ]).
  - destruct (Z.compare_spec (2 * r) h) as [E | E | E]; reflexivity.
  - assert (Z.odd h = true) as Od by (rewrite <- Z.negb_even, Ev; reflexivity).
    apply Z.odd_spec in Od. destruct Od as [k Hk].
    destruct (Z.compare_spec (2 * r) h) as [E | E | E];
      destruct (Z.compare_spec (2 * r + 1) h) as [F | F | F];
      try reflexivity; lia.
Qed.

Lemma half_code_range (h r : Z) : 0 <= half_code h r < 4.
Proof.
  unfold half_code. destruct (r =? 0); [lia | ].
  destruct (2 * r ?= h); lia.
Qed.

Lemma half_code_le (h r n : Z) :
  0 < h -> 0 <= r < h -> 4 * r <= n * h -> half_code h r <= n.
Proof.
  intros Hh Hr Hn. unfold half_code.
  destruct (Z.eqb_spec r 0) as [R0 | R0]; [nia | ].
  destruct (Z.compare_spec (2 * r) h) as [E | E | E]; nia.
Qed.

Lemma half_code_ge (h r n : Z) :
  0 < h -> 0 <= r < h -> n * h <= 4 * r -> n <= half_code h r.
Proof.
  intros Hh Hr Hn. unfold half_code.
  destruct (Z.eqb_spec r 0) as [R0 | R0]; [nia | ].
  destruct (Z.compare_spec (2 * r) h) as [E | E | E]; nia.
Qed.

Lemma small_digits (m : positive) : Zpos m < 2 ^ 48 -> 0 < Zdigits2 (Zpos m) <= 48.
Proof.
  intros Hm. split; [apply Zdigits2_pos; lia | ].
  pose proof (Zdigits2_bounds (Zpos m) ltac:(lia)) as [D1 _].
  assert (Zdigits2 (Zpos m) - 1 < 48); [ | lia].
  apply (Z.pow_lt_mono_r_iff 2); lia.
Qed.

Lemma digits_between (z k : Z) : 2 ^ k <= z -> 0 <= k -> k + 1 <= Zdigits2 z.
Proof.
  intros Hz Hk. pose proof (pow2_pos k Hk) as Pk.
  pose proof (Zdigits2_bounds z ltac:(lia)) as [_ Hi].
  pose proof (Zdigits2_pos z ltac:(lia)) as Dz.
  destruct (Z.le_gt_cases (k + 1) (Zdigits2 z)) as [ | Hlt]; [assumption | ].
  exfalso.
  assert (2 ^ Zdigits2 z <= 2 ^ k) by (apply Z.pow_le_mono_r; lia).
  lia.
Qed.

Variables mw mh : positive.

Let dw := Zdigits2 (Zpos mw).
Let dh := Zdigits2 (Zpos mh).
Let e' := dw - dh - 53.
Let W := Zpos mw * 2 ^ (- e').
Let q := W / Zpos mh.
Let r := W mod Zpos mh.

Hypothesis Hw : Zpos mw < 2 ^ 48.
Hypothesis Hh : Zpos mh < 2 ^ 48.

Lemma quotient_exponent : -101 <= e' <= -6.
Proof.
  pose proof (small_digits mw Hw). pose proof (small_digits mh Hh).
  unfold e', dw, dh. lia.
Qed.

Lemma SFdiv_core_small :
  SFdiv_core_binary prec emax (Zpos mw) 0 (Zpos mh) 0
  = (q, e', new_location (Zpos mh) r).
Proof.
  pose proof quotient_exponent as He.
  unfold SFdiv_core_binary. cbv zeta. rewrite div_eucl_div_mod, fexp_64.
  fold dw. fold dh.
  set (e0 := Z.min _ (0 - 0)).
  assert (e0 = e') as -> by (unfold e0; lia).
  assert (match 0 - 0 - e' with
          | 0 => Zpos mw
          | Zpos _ => Z.shiftl (Zpos mw) (0 - 0 - e')
          | Zneg _ => 0
          end = W) as ->.
  { unfold W. destruct (0 - 0 - e') eqn:E; try lia.
    rewrite Z.shiftl_mul_pow2 by lia. f_equal. f_equal. lia. }
  reflexivity.
Qed.

Lemma quotient_eq : W = q * Zpos mh + r /\ 0 <= r < Zpos mh.
Proof.
  unfold q, r. split.
  - rewrite (Z.mul_comm (W / Zpos mh)). apply Z.div_mod. lia.
  - apply Z.mod_pos_bound. lia.
Qed.

Lemma quotient_range : 2 ^ 52 * Zpos mh <= W < 2 ^ 54 * Zpos mh.
Proof.
  pose proof quotient_exponent as He.
  pose proof (small_digits mw Hw) as Dw. pose proof (small_digits mh Hh) as Dh.
  pose proof (Zdigits2_bounds (Zpos mw) ltac:(lia)) as [Wlo Whi].
  pose proof (Zdigits2_bounds (Zpos mh) ltac:(lia)) as [Hlo Hhi].
  fold dw in Wlo, Whi, Dw. fold dh in Hlo, Hhi, Dh.
  pose proof (pow2_pos (- e') ltac:(lia)) as Pe.
  unfold W. split.
  - apply Z.le_trans with (2 ^ 52 * 2 ^ dh).
    + apply Z.mul_le_mono_nonneg_l; lia.
    + rewrite <- pow2_split by lia.
      replace (52 + dh) with (dw - 1 + - e') by (unfold e'; lia).
      rewrite pow2_split by lia.
      apply Z.mul_le_mono_nonneg_r; lia.
  - apply Z.lt_le_trans with (2 ^ dw * 2 ^ (- e')).
    + apply Z.mul_lt_mono_pos_r; lia.
    + rewrite <- pow2_split by lia.
      replace (dw + - e') with (54 + (dh - 1)) by (unfold e'; lia).
      rewrite pow2_split by lia.
      apply Z.mul_le_mono_nonneg_l; lia.
Qed.

Lemma quotient_size : 2 ^ 52 <= q < 2 ^ 54.
Proof.
  pose proof quotient_range as [Lo Hi].
  unfold q. split.
  - apply Z.div_le_lower_bound; lia.
  - apply Z.div_lt_upper_bound; lia.
Qed.

(** The quotient with its position is the exact value of four times the
    quotient plus the code of the position, two binary digits further
    down. *)
Lemma fdiv_as_exact :
  fdiv (S754_finite false mw 0) (S754_finite false mh 0)
  = binary_round_aux prec emax false (4 * q + half_code (Zpos mh) r) (e' - 2)
      loc_Exact.
Proof.
  pose proof quotient_eq as [_ Hr]. pose proof quotient_size as [Qlo Qhi].
  pose proof (half_code_range (Zpos mh) r) as Hc.
  unfold fdiv, SFdiv. rewrite SFdiv_core_small. cbn [xorb].
  rewrite (new_location_half_code (Zpos mh) r) by lia.
  set (j := half_code (Zpos mh) r) in *.
  assert ((4 * q + j) / 2 ^ 2 = q) as Ediv.
  { change (2 ^ 2) with 4. symmetry. apply (Z.div_unique _ 4 q j); lia. }
  assert ((4 * q + j) mod 2 ^ 2 = j) as Emod.
  { change (2 ^ 2) with 4. symmetry. apply (Z.mod_unique _ 4 q j); lia. }
  pose proof (digits_between q 52 Qlo ltac:(lia)) as Dq.
  rewrite <- (binary_round_aux_quotient prec emax eq_refl false (4 * q + j) 2 e');
    rewrite ?Ediv, ?Emod, ?fexp_64; try reflexivity; lia.
Qed.

(** A threshold with 53 to 55 digits. *)
Variables (pT fT : Z) (D : float).
Hypothesis HpT : 2 ^ 52 <= pT < 2 ^ 55.
Hypothesis HfT : fT <= 0.
Hypothesis HD : binary_round_aux prec emax false pT fT loc_Exact = D.

Lemma threshold_aligned : 0 <= SpecFloat.fexp prec emax (Zdigits2 pT + fT) - fT.
Proof.
  rewrite fexp_64. pose proof (digits_between pT 52 (proj1 HpT) ltac:(lia)). lia.
Qed.

Lemma exact_aligned :
  0 <= SpecFloat.fexp prec emax
         (Zdigits2 (4 * q + half_code (Zpos mh) r) + (e' - 2)) - (e' - 2).
Proof.
  pose proof quotient_size as [Qlo Qhi].
  pose proof (half_code_range (Zpos mh) r) as Hc.
  rewrite fexp_64.
  assert (2 ^ 54 <= 4 * q + half_code (Zpos mh) r) as Hy.
  { change (2 ^ 54) with (4 * 2 ^ 52). lia. }
  pose proof (digits_between _ 54 Hy ltac:(lia)). lia.
Qed.

(** A quotient that is at most the threshold rounds to at most the float
    of the threshold. *)
Lemma fdiv_below :
  Zpos mw * 2 ^ (- fT) <= pT * Zpos mh ->
  SFleb (fdiv (S754_finite false mw 0) (S754_finite false mh 0)) D = true.
Proof.
  intros Hx. rewrite fdiv_as_exact, <- HD.
  pose proof quotient_eq as [EW Hr]. pose proof quotient_size as [Qlo Qhi].
  pose proof quotient_range as [Wlo Whi].
  pose proof quotient_exponent as He.
  pose proof (half_code_range (Zpos mh) r) as Hc.
  apply round_exact_mono.
  - reflexivity.
  - lia.
  - lia.
  - apply exact_aligned.
  - apply threshold_aligned.
  - destruct (Z.le_gt_cases (e' - 2) fT) as [Hle | Hgt].
    + rewrite Z.min_l by lia. rewrite Z.sub_diag, Z.mul_1_r.
      set (b := fT - (e' - 2)).
      pose proof (pow2_pos b ltac:(unfold b; lia)) as Pb.
      assert (half_code (Zpos mh) r <= pT * 2 ^ b - 4 * q); [ | lia].
      apply half_code_le; [lia | lia | ].
      assert (4 * W <= pT * 2 ^ b * Zpos mh); [ | lia].
      assert (2 ^ (- e') * 2 ^ 2 = 2 ^ (- fT) * 2 ^ b) as Eq.
      { rewrite <- !pow2_split by (unfold b; lia). f_equal. unfold b. lia. }
      change (2 ^ 2) with 4 in Eq. unfold W.
      pose proof (pow2_pos (- fT) ltac:(lia)) as Pf.
      pose proof (Z.mul_le_mono_nonneg_r _ _ (2 ^ b) ltac:(lia) Hx). nia.
    + exfalso.
      assert (2 ^ (- fT) = 2 ^ (- e') * 2 ^ (e' - fT)) as Esplit.
      { rewrite <- pow2_split by lia. f_equal. lia. }
      assert (2 ^ 3 <= 2 ^ (e' - fT)) as P3 by (apply Z.pow_le_mono_r; lia).
      change (2 ^ 3) with 8 in P3.
      fold W in Wlo. unfold W in Wlo, Whi.
      rewrite Esplit in Hx.
      change (2 ^ 55) with (8 * 2 ^ 52) in HpT.
      nia.
Qed.

(** A quotient that is at least the threshold rounds to at least the
    float of the threshold. *)
Lemma fdiv_above :
  pT * Zpos mh <= Zpos mw * 2 ^ (- fT) ->
  SFleb D (fdiv (S754_finite false mw 0) (S754_finite false mh 0)) = true.
Proof.
  intros Hx. rewrite fdiv_as_exact, <- HD.
  pose proof quotient_eq as [EW Hr]. pose proof quotient_size as [Qlo Qhi].
  pose proof quotient_exponent as He.
  pose proof (half_code_range (Zpos mh) r) as Hc.
  apply round_exact_mono.
  - reflexivity.
  - lia.
  - lia.
  - apply threshold_aligned.
  - apply exact_aligned.
  - destruct (Z.le_gt_cases (e' - 2) fT) as [Hle | Hgt].
    + rewrite Z.min_r by lia. rewrite Z.sub_diag, Z.mul_1_r.
      set (b := fT - (e' - 2)).
      pose proof (pow2_pos b ltac:(unfold b; lia)) as Pb.
      assert (pT * 2 ^ b - 4 * q <= half_code (Zpos mh) r); [ | lia].
      apply half_code_ge; [lia | lia | ].
      assert (pT * 2 ^ b * Zpos mh <= 4 * W); [ | lia].
      assert (2 ^ (- e') * 2 ^ 2 = 2 ^ (- fT) * 2 ^ b) as Eq.
      { rewrite <- !pow2_split by (unfold b; lia). f_equal. unfold b. lia. }
      change (2 ^ 2) with 4 in Eq. unfold W.
      pose proof (pow2_pos (- fT) ltac:(lia)) as Pf.
      pose proof (Z.mul_le_mono_nonneg_r _ _ (2 ^ b) ltac:(lia) Hx). nia.
    + rewrite Z.min_l by lia. rewrite Z.sub_diag, Z.mul_1_r.
      assert (2 ^ 1 <= 2 ^ (e' - 2 - fT)) as P1 by (apply Z.pow_le_mono_r; lia).
      change (2 ^ 1) with 2 in P1.
      change (2 ^ 55) with (2 * (4 * 2 ^ 52)) in HpT.
      nia.
Qed.

End Thresholds.

Section Labels.

Local Open Scope Z_scope.

Lemma SFltb_pos_iff (m1 : positive) (e1 : Z) (m2 : positive) (e2 : Z) :
  SFltb (S754_finite false m1 e1) (S754_finite false m2 e2) = true
  <-> (e1 < e2 \/ (e1 = e2 /\ Zpos m1 < Zpos m2))%Z.
Proof.
  unfold SFltb, SFcompare.
  change (PosDef.Pos.compare_cont Eq m1 m2) with (Pos.compare m1 m2).
  destruct (Z.compare_spec e1 e2) as [E | E | E].
  - destruct (Pos.compare_spec m1 m2) as [M | M | M]; split; intros H;
      try discriminate; try reflexivity; lia.
  - split; [lia | reflexivity].
  - split; [discriminate | lia].
Qed.

Lemma SFltb_false_iff (m1 : positive) (e1 : Z) (m2 : positive) (e2 : Z) :
  SFltb (S754_finite false m1 e1) (S754_finite false m2 e2) = false
  <-> SFleb (S754_finite false m2 e2) (S754_finite false m1 e1) = true.
Proof.
  rewrite <- Bool.not_true_iff_false, SFltb_pos_iff, SFleb_pos_iff. lia.
Qed.

(** A float at most [c] is not greater than [c]. *)
Lemma not_greater (x : float) (mc : positive) (ec : Z) :
  SFleb x (S754_finite false mc ec) = true ->
  fgt x (S754_finite false mc ec) = false.
Proof.
  unfold fgt.
  destruct x as [s | [ | ] | | [ | ] m e]; try discriminate; try reflexivity.
  intros H. apply SFltb_false_iff, H.
Qed.

(** A float at least [c] is not less than [c]. *)
Lemma not_less (x : float) (mc : positive) (ec : Z) :
  SFleb (S754_finite false mc ec) x = true ->
  flt x (S754_finite false mc ec) = false.
Proof.
  unfold flt.
  destruct x as [s | [ | ] | | [ | ] m e]; try discriminate; try reflexivity.
  intros H. apply SFltb_false_iff, H.
Qed.

(** A float at least some float above [c] is greater than [c]. *)
Lemma greater (x : float) (mc : positive) (ec : Z) (md : positive) (ed : Z) :
  SFltb (S754_finite false mc ec) (S754_finite false md ed) = true ->
  SFleb (S754_finite false md ed) x = true ->
  fgt x (S754_finite false mc ec) = true.
Proof.
  unfold fgt.
  destruct x as [s | [ | ] | | [ | ] m e]; try discriminate; try reflexivity.
  rewrite !SFltb_pos_iff, SFleb_pos_iff. lia.
Qed.

(** A float at most some float below [c] is less than [c]. *)
Lemma less (x : float) (mc : positive) (ec : Z) (md : positive) (ed : Z) :
  SFltb (S754_finite false md ed) (S754_finite false mc ec) = true ->
  SFleb x (S754_finite false md ed) = true ->
  flt x (S754_finite false mc ec) = true.
Proof.
  unfold flt.
  destruct x as [s | [ | ] | | [ | ] m e]; try discriminate; try reflexivity.
  rewrite !SFltb_pos_iff, SFleb_pos_iff. lia.
Qed.

End Labels.

(** X19.  For every width and height from 1 up to [2^48], which covers
    the sizes the node declares, [_get_aspect_ratio] returns, and its
    label is the one the exact fraction [width / height] has against
    1.6, 0.6, 1.2 and 0.8: the rounding of the division and of the four
    decimal constants never moves a size across a threshold, and a
    fraction equal to a threshold falls on the side the strict
    comparison gives it. *)
Theorem aspect_ratio_exact (width height : Z) :
  (0 < width < 2 ^ 48)%Z -> (0 < height < 2 ^ 48)%Z ->
  VertexProviderNode._get_aspect_ratio width height
  = Ok (exact_aspect_ratio width height).
Proof.
  intros [Hw0 Hw] [Hh0 Hh].
  destruct width as [ | mw | mw]; try discriminate Hw0.
  destruct height as [ | mh | mh]; try discriminate Hh0.
  pose proof (small_digits mw Hw) as Dw.
  assert (int_truediv (Zpos mw) (Zpos mh)
          = Ok (fdiv (S754_finite false mw 0) (S754_finite false mh 0))) as Hq.
  { unfold int_truediv. change (Zpos mh =? 0)%Z with false. cbv iota. cbn [of_Z].
    destruct (fdiv (S754_finite false mw 0) (S754_finite false mh 0))
      as [ | s0 | | ] eqn:E; try reflexivity.
    exfalso. apply (fdiv_finite false false s0 mw mh ltac:(lia)). exact E. }
  unfold VertexProviderNode._get_aspect_ratio. rewrite Hq. clear Hq.
  pose proof (fdiv_below mw mh Hw Hh) as Below.
  pose proof (fdiv_above mw mh Hw Hh) as Above.
  set (ratio := fdiv (S754_finite false mw 0) (S754_finite false mh 0)) in *.
  clearbody ratio.
  cbn [bind].
  change (of_decimal false 16 (-1))
    with (S754_finite false 7205759403792794 (-52)).
  change (of_decimal false 6 (-1))
    with (S754_finite false 5404319552844595 (-53)).
  change (of_decimal false 12 (-1))
    with (S754_finite false 5404319552844595 (-52)).
  change (of_decimal false 8 (-1))
    with (S754_finite false 7205759403792794 (-53)).
  unfold exact_aspect_ratio.
  destruct (Z.ltb_spec (16 * Zpos mh) (10 * Zpos mw)) as [T1 | T1].
  { rewrite (greater ratio _ _ 7205759403792795 (-52)); [reflexivity | reflexivity | ].
    apply (Above (4 * 7205759403792795)%Z (-54)%Z); [lia | lia | reflexivity | ].
    change (2 ^ (- -54))%Z with 18014398509481984%Z. lia. }
  rewrite (not_greater ratio).
  2:{ apply (Below (4 * 7205759403792794)%Z (-54)%Z); [lia | lia | reflexivity | ].
      change (2 ^ (- -54))%Z with 18014398509481984%Z. lia. }
  destruct (Z.ltb_spec (10 * Zpos mw) (6 * Zpos mh)) as [T2 | T2].
  { rewrite (less ratio _ _ 5404319552844594 (-53)); [reflexivity | reflexivity | ].
    apply (Below (4 * 5404319552844594)%Z (-55)%Z); [lia | lia | reflexivity | ].
    change (2 ^ (- -55))%Z with 36028797018963968%Z. lia. }
  rewrite (not_less ratio).
  2:{ apply (Above (4 * 5404319552844595)%Z (-55)%Z); [lia | lia | reflexivity | ].
      change (2 ^ (- -55))%Z with 36028797018963968%Z. lia. }
  destruct (Z.ltb_spec (12 * Zpos mh) (10 * Zpos mw)) as [T3 | T3].
  { rewrite (greater ratio _ _ 5404319552844596 (-52)); [reflexivity | reflexivity | ].
    apply (Above (4 * 5404319552844596)%Z (-54)%Z); [lia | lia | reflexivity | ].
    change (2 ^ (- -54))%Z with 18014398509481984%Z. lia. }
  rewrite (not_greater ratio).
  2:{ apply (Below (4 * 5404319552844595 + 1)%Z (-54)%Z); [lia | lia | reflexivity | ].
      change (2 ^ (- -54))%Z with 18014398509481984%Z. lia. }
  destruct (Z.ltb_spec (10 * Zpos mw) (8 * Zpos mh)) as [T4 | T4].
  { rewrite (less ratio _ _ 7205759403792793 (-53)); [reflexivity | reflexivity | ].
    apply (Below (4 * 7205759403792793)%Z (-55)%Z); [lia | lia | reflexivity | ].
    change (2 ^ (- -55))%Z with 36028797018963968%Z. lia. }
  rewrite (not_less ratio).
  2:{ apply (Above (2 * 7205759403792794 - 1)%Z (-54)%Z); [lia | lia | reflexivity | ].
      change (2 ^ (- -54))%Z with 18014398509481984%Z. lia. }
  reflexivity.
Qed.

Lemma aspect_ratio_exact_witness :
  VertexProviderNode._get_aspect_ratio 1920 1200 = Ok "4:3"
  /\ VertexProviderNode._get_aspect_ratio 600 1000 = Ok "3:4".
Proof.
  split.
  - apply (aspect_ratio_exact 1920 1200); split; reflexivity.
  - apply (aspect_ratio_exact 600 1000); split; reflexivity.
Defined.

(** * Credits as text *)

Section Digits.

Local Open Scope Z_scope.

Lemma every_app (p : ascii -> bool) (a b : string) :
  every p (a ++ b) = every p a && every p b.
Proof.
  induction a as [ | x a IH]; cbn [append every]; [reflexivity | ].
  rewrite IH. apply andb_assoc.
Qed.

Lemma every_impl (p q : ascii -> bool) (s : string) :
  (forall c, p c = true -> q c = true) -> every p s = true -> every q s = true.
Proof.
  intros Hpq. induction s as [ | x s IH]; cbn [every]; [reflexivity | ].
  intros H. apply andb_true_iff in H. destruct H as [Hx Hs].
  rewrite (Hpq x Hx), (IH Hs). reflexivity.
Qed.

Lemma digits_val_app (a b : string) (acc : Z) :
  digits_val acc (a ++ b) = digits_val (digits_val acc a) b.
Proof.
  revert acc. induction a as [ | x a IH]; intros acc; cbn [append digits_val];
    [reflexivity | apply IH].
Qed.

Lemma digits_val_acc (s : string) (acc : Z) :
  digits_val acc s = acc * 10 ^ Z.of_nat (String.length s) + digits_val 0 s.
Proof.
  revert acc. induction s as [ | x s IH]; intros acc; cbn [digits_val String.length].
  - cbn. lia.
  - rewrite IH, (IH (10 * 0 + digit_val x)).
    rewrite Nat2Z.inj_succ, Z.pow_succ_r by lia. lia.
Qed.

Lemma read_digits_run (s rest : string) (acc n : Z) :
  every is_digit s = true ->
  read_digits acc n (s ++ rest)
  = read_digits (digits_val acc s) (n + Z.of_nat (String.length s)) rest.
Proof.
  revert acc n. induction s as [ | x s IH]; intros acc n;
    cbn [every append digits_val String.length read_digits].
  - intros _. rewrite Z.add_0_r. reflexivity.
  - intros H. apply andb_true_iff in H. destruct H as [Hx Hs].
    rewrite Hx, (IH _ _ Hs). f_equal. lia.
Qed.

Lemma read_digits_all (s : string) (acc n : Z) :
  every is_digit s = true ->
  read_digits acc n s = (digits_val acc s, n + Z.of_nat (String.length s), ""%string).
Proof.
  revert acc n. induction s as [ | x s IH]; intros acc n;
    cbn [every digits_val String.length read_digits].
  - intros _. rewrite Z.add_0_r. reflexivity.
  - intros H. apply andb_true_iff in H. destruct H as [Hx Hs].
    rewrite Hx, (IH _ _ Hs). f_equal. f_equal. lia.
Qed.

Lemma string_of_uint_digits (d : Decimal.uint) :
  every is_digit (NilEmpty.string_of_uint d) = true.
Proof. induction d; cbn [NilEmpty.string_of_uint every]; auto. Qed.

Lemma string_of_uint_val (d : Decimal.uint) (acc : Z) :
  digits_val acc (NilEmpty.string_of_uint d) = uint_val acc d.
Proof.
  revert acc.
  induction d; intros acc; cbn [NilEmpty.string_of_uint digits_val uint_val];
    [reflexivity | rewrite IHd; f_equal;
                   match goal with
                   | |- context [digit_val ?c] =>
                       let v := eval vm_compute in (digit_val c) in
                       change (digit_val c) with v
                   end; lia ..].
Qed.

Lemma uint_val_pos (d : Decimal.uint) (p : positive) :
  uint_val (Zpos p) d = Zpos (Pos.of_uint_acc d p).
Proof.
  revert p.
  induction d; intros p; cbn [uint_val Pos.of_uint_acc]; [reflexivity | ..];
    rewrite <- IHd; f_equal; lia.
Qed.

Lemma uint_val_N (d : Decimal.uint) : uint_val 0 d = Z.of_N (Pos.of_uint d).
Proof.
  induction d; cbn [uint_val Pos.of_uint]; [reflexivity | exact IHd | ..];
    cbn [Z.mul Z.add Z.of_N]; apply uint_val_pos.
Qed.

Lemma string_of_nonneg_spec (z : Z) :
  0 <= z ->
  every is_digit (string_of_nonneg z) = true
  /\ digits_val 0 (string_of_nonneg z) = z
  /\ exists c r, string_of_nonneg z = String c r /\ is_digit c = true.
Proof.
  intros Hz. unfold string_of_nonneg, NilZero.string_of_uint.
  pose proof (DecimalN.Unsigned.of_to (Z.to_N z)) as Hn.
  unfold N.of_uint in Hn.
  assert (uint_val 0 (N.to_uint (Z.to_N z)) = z) as Hv
    by (rewrite uint_val_N, Hn; lia).
  clear Hn. revert Hv. generalize (N.to_uint (Z.to_N z)). intros u Hv.
  destruct u as [ | d | d | d | d | d | d | d | d | d | d];
    [cbn in Hv; subst z; repeat split; eexists; eexists; split; reflexivity
    | rewrite string_of_uint_digits, string_of_uint_val;
      (repeat split; [exact Hv | ]); eexists; eexists; split; reflexivity ..].
Qed.

Lemma decimals_all :
  forallb decimals_ok (map Z.of_nat (seq 0 (Z.to_nat 10000))) = true.
Proof. vm_compute. reflexivity. Qed.

Lemma decimals_spec (r : Z) :
  0 <= r < 10000 ->
  every is_digit (decimals_4 r) = true
  /\ Z.of_nat (String.length (decimals_4 r)) = 4
  /\ digits_val 0 (decimals_4 r) = r.
Proof.
  intros Hr. pose proof decimals_all as H. rewrite forallb_forall in H.
  assert (decimals_ok r = true) as Hok.
  { apply H. clear H. apply in_map_iff. exists (Z.to_nat r). split; [lia | ].
    apply in_seq. lia. }
  unfold decimals_ok in Hok.
  apply andb_true_iff in Hok. destruct Hok as [Hok H3].
  apply andb_true_iff in Hok. destruct Hok as [H1 H2].
  split; [exact H1 | ]. split; [apply Z.eqb_eq, H2 | apply Z.eqb_eq, H3].
Qed.

Lemma digit_plain (c : ascii) :
  is_digit c = true ->
  is_space c = false /\ Ascii.eqb c "_" = false
  /\ Ascii.eqb c "-" = false /\ Ascii.eqb c "+" = false
  /\ Ascii.eqb c "." = false
  /\ Ascii.eqb (lower c) "i" = false /\ Ascii.eqb (lower c) "n" = false.
Proof.
  destruct c as [[ | ] [ | ] [ | ] [ | ] [ | ] [ | ] [ | ] [ | ]];
    vm_compute; intros H; try discriminate H; repeat split.
Qed.

(** The characters of a number printed with a fixed point. *)
Lemma plain_char (c : ascii) :
  is_digit c || Ascii.eqb c "." = true ->
  is_space c = false /\ Ascii.eqb c "_" = false.
Proof.
  destruct c as [[ | ] [ | ] [ | ] [ | ] [ | ] [ | ] [ | ] [ | ]];
    vm_compute; intros H; try discriminate H; repeat split.
Qed.

Lemma drop_underscores_plain (s : string) (prev : ascii) :
  every (fun c => is_digit c || Ascii.eqb c ".") s = true ->
  Ascii.eqb prev "_" = false ->
  drop_underscores prev s = Some s.
Proof.
  revert prev. induction s as [ | x s IH]; intros prev; cbn [every drop_underscores].
  - intros _ ->. reflexivity.
  - intros H Hp. apply andb_true_iff in H. destruct H as [Hx Hs].
    destruct (plain_char x Hx) as [_ Hu]. rewrite Hu, Hp. cbn [andb].
    rewrite (IH x Hs Hu). reflexivity.
Qed.

Lemma lstrip_plain (s : string) :
  every (fun c => is_digit c || Ascii.eqb c ".") s = true -> lstrip s = s.
Proof.
  destruct s as [ | x s]; cbn [every lstrip]; [reflexivity | ].
  intros H. apply andb_true_iff in H. destruct H as [Hx _].
  destruct (plain_char x Hx) as [-> _]. reflexivity.
Qed.

Lemma rstrip_plain (s : string) :
  every (fun c => is_digit c || Ascii.eqb c ".") s = true -> rstrip s = s.
Proof.
  induction s as [ | x s IH]; cbn [every rstrip]; [reflexivity | ].
  intros H. apply andb_true_iff in H. destruct H as [Hx Hs].
  destruct (plain_char x Hx) as [Hsp _]. rewrite (IH Hs), Hsp.
  destruct s; reflexivity.
Qed.

(** The text of a value [n / 10^4], without its sign. *)
Lemma fixed_text (n : Z) :
  0 <= n ->
  let body := string_of_nonneg (n / 10000) ++ "." ++ decimals_4 (n mod 10000) in
  every (fun c => is_digit c || Ascii.eqb c ".") body = true
  /\ (exists c r, body = String c r /\ is_digit c = true)
  /\ forall sign, parse_number sign body = Some (of_decimal sign n (-4)).
Proof.
  intros Hn body.
  assert (0 <= n / 10000) as Hq by (apply Z.div_pos; lia).
  pose proof (Z.mod_pos_bound n 10000 ltac:(lia)) as Hr.
  destruct (string_of_nonneg_spec (n / 10000) Hq) as (I1 & I2 & c & r & I3 & I4).
  destruct (decimals_spec (n mod 10000) Hr) as (F1 & F2 & F3).
  split; [ | split].
  - unfold body. rewrite !every_app.
    rewrite (every_impl is_digit _ _ (fun c H => orb_true_intro _ _ (or_introl H)) I1).
    rewrite (every_impl is_digit _ _ (fun c H => orb_true_intro _ _ (or_introl H)) F1).
    reflexivity.
  - exists c, (r ++ "." ++ decimals_4 (n mod 10000))%string. unfold body.
    rewrite I3. split; [reflexivity | exact I4].
  - intros sign. unfold parse_number, body.
    rewrite (read_digits_run _ _ 0 0 I1), I2.
    change ("." ++ decimals_4 (n mod 10000))%string
      with (String "." (decimals_4 (n mod 10000))).
    cbn [read_digits]. change (is_digit ".") with false. cbv iota.
    rewrite (read_digits_all _ _ 0 F1).
    rewrite F2, digits_val_acc, F2, F3.
    replace (0 + Z.of_nat (String.length (string_of_nonneg (n / 10000))) + (0 + 4) =? 0)
      with false by (symmetry; apply Z.eqb_neq; lia).
    cbn [read_exponent]. f_equal. f_equal.
    change (10 ^ 4) with 10000. pose proof (Z.div_mod n 10000 ltac:(lia)). lia.
Qed.

End Digits.

Section RoundTrip.

Import FloatFacts.

Lemma read_sign_digit (c : ascii) (r : string) :
  is_digit c = true -> read_sign (String c r) = (false, String c r).
Proof.
  destruct c as [[ | ] [ | ] [ | ] [ | ] [ | ] [ | ] [ | ] [ | ]];
    vm_compute; intros H; try discriminate H; reflexivity.
Qed.

Lemma not_a_word (c : ascii) (r : string) :
  is_digit c = true ->
  let l := lower_str (String c r) in
  (l =? "inf") || (l =? "infinity") = false /\ (l =? "nan") = false.
Proof.
  intros Hc. destruct (digit_plain c Hc) as (_ & _ & _ & _ & _ & Hi & Hn).
  cbn [lower_str String.eqb]. rewrite Hi, Hn. split; reflexivity.
Qed.

Lemma of_string_fixed (sign : bool) (n : Z) :
  (0 <= n)%Z ->
  of_string ((if sign then "-" else "")
             ++ string_of_nonneg (n / 10000) ++ "." ++ decimals_4 (n mod 10000))
  = Some (of_decimal sign n (-4)).
Proof.
  intros Hn. destruct (fixed_text n Hn) as (Hplain & (c & r & Hbody & Hc) & Hparse).
  set (body := string_of_nonneg (n / 10000) ++ "." ++ decimals_4 (n mod 10000)) in *.
  destruct (not_a_word c r Hc) as [W1 W2].
  unfold of_string. destruct sign.
  - change ("-" ++ body) with (String "-" body).
    cbn [drop_underscores]. change (Ascii.eqb "-" "_") with false.
    change (Ascii.eqb zero "_" && negb (is_digit "-")) with false. cbv iota.
    rewrite (drop_underscores_plain body "-" Hplain eq_refl). cbn [option_map].
    cbn [lstrip]. change (is_space "-") with false. cbv iota.
    cbn [rstrip]. rewrite (rstrip_plain body Hplain). rewrite Hbody.
    cbn [read_sign]. rewrite W1, W2. rewrite <- Hbody. apply Hparse.
  - change ("" ++ body) with body.
    rewrite (drop_underscores_plain body zero Hplain eq_refl).
    rewrite (lstrip_plain body Hplain), (rstrip_plain body Hplain). rewrite Hbody.
    rewrite (read_sign_digit c r Hc). rewrite W1, W2. rewrite <- Hbody. apply Hparse.
Qed.

Lemma scaled_4_nonneg (m : positive) (e : Z) : (0 <= scaled_4 m e)%Z.
Proof.
  unfold scaled_4. destruct (Z.leb_spec 0 e) as [He | He].
  - pose proof (pow2_pos e ltac:(lia)). nia.
  - pose proof (rne_shift_bounds (Zpos m * 10000) (- e) ltac:(lia) ltac:(lia))
      as [Hlo _].
    pose proof (pow2_pos (- e) ltac:(lia)).
    assert (0 <= Zpos m * 10000 / 2 ^ (- e))%Z by (apply Z.div_pos; lia). lia.
Qed.

Lemma of_string_format (x : float) : of_string (format_4f x) = Some (reparsed x).
Proof.
  destruct x as [[ | ] | [ | ] | | s m e];
    [vm_compute; reflexivity | vm_compute; reflexivity | vm_compute; reflexivity
    | vm_compute; reflexivity | vm_compute; reflexivity | ].
  unfold format_4f, reparsed. apply (of_string_fixed s), scaled_4_nonneg.
Qed.

Lemma of_decimal_nonneg (d e : Z) : fle pos_zero (of_decimal false d e) = true.
Proof.
  unfold of_decimal. destruct d as [ | p | p]; try reflexivity.
  destruct (0 <=? e)%Z.
  - apply signed_nonneg.
    pose proof (binary_normalize_shape (cond_Zopp false (Zpos p * 10 ^ e)) 0) as H.
    cbn [cond_Zopp] in *.
    destruct (Zpos p * 10 ^ e)%Z eqn:E; [rewrite H; reflexivity | exact H | ].
    pose proof (Z.pow_nonneg 10 e ltac:(lia)) as Hpow. lia.
  - apply signed_nonneg. unfold fdiv, SFdiv.
    destruct (SFdiv_core_binary prec emax (Zpos p) 0 _ 0) as [[mz ez] lz] eqn:E.
    cbn [xorb]. apply binary_round_aux_shape.
    unfold SFdiv_core_binary in E. rewrite div_eucl_div_mod in E.
    injection E as <- _ _.
    apply Z.div_pos; [ | lia].
    match goal with
    | |- (0 <= match ?x with Z0 => _ | Zpos _ => _ | Zneg _ => _ end)%Z =>
        destruct x as [ | q | q]
    end; try lia.
    rewrite Z.shiftl_mul_pow2 by lia. pose proof (pow2_pos (Zpos q)). nia.
Qed.

Lemma reparsed_nonneg (x : float) :
  fle pos_zero x = true -> fle pos_zero (reparsed x) = true.
Proof.
  destruct x as [s | s | | s m e]; cbn [reparsed]; try (intros H; exact H).
  destruct s; [discriminate | ]. intros _. apply of_decimal_nonneg.
Qed.

End RoundTrip.

Section Charges.

Import FloatFacts.

Context {Tensor Pil : Type} (cd : codec Tensor Pil).

Lemma fal_generate_credits (net : network) (s : FalProviderNode.self)
    (prompt model : string) (width height : Z) (negative_prompt : string)
    (seed num_steps : Z) (guidance_scale : float) (input_image : option Tensor)
    (img_tensor : Tensor) (credits : string) :
  FalProviderNode.generate cd net s prompt model width height negative_prompt
    seed num_steps guidance_scale input_image
  = Ok (img_tensor, credits) ->
  exists v,
    FalProviderNode._estimate_credits model width height = Ok v
    /\ credits = format_4f v.
Proof.
  unfold FalProviderNode.generate.
  destruct (FalProviderNode.api_key s =? ""); [discriminate | ].
  unfold FalProviderNode.request_image.
  destruct (match input_image with Some _ => _ | None => _ end) as [u | ];
    [ | discriminate].
  cbn [bind]. destruct (requests_post _ _ _ _ _) as [r | ]; [ | discriminate].
  cbn [bind]. destruct (raise_for_status r) as [[] | ]; [ | discriminate].
  cbn [bind]. destruct (json r) as [res | ]; [ | discriminate].
  cbn [bind]. destruct (FalProviderNode.image_of_result cd net res) as [[t | ] | ];
    try discriminate.
  cbn [bind].
  destruct (FalProviderNode._estimate_credits model width height) as [v | ];
    [ | discriminate].
  cbn [bind]. intros [= _ <-]. exists v. split; reflexivity.
Qed.

Lemma fal_estimate_nonneg (model : string) (width height : Z) (v : float) :
  (0 <= width * height)%Z ->
  FalProviderNode._estimate_credits model width height = Ok v ->
  fle pos_zero v = true.
Proof.
  intros Hp Hv.
  assert (FalProviderNode._estimate_credits model 0 0 = Ok pos_zero) as H0.
  { unfold FalProviderNode._estimate_credits.
    destruct (fal_base_cost_finite model) as (mb & eb & ->). reflexivity. }
  apply (fal_estimate_mono_all model 0 0 width height); assumption || lia.
Qed.

Lemma parse_credits_format (x : float) :
  CreditTrackerNode.parse_credits (format_4f x) = Ok (reparsed x).
Proof.
  unfold CreditTrackerNode.parse_credits, CreditTrackerNode.py_float.
  rewrite of_string_format. reflexivity.
Qed.

End Charges.

(** X20.  The text [f"{x:.4f}"] of every float [x] is accepted by
    [float]: it reads as [x] rounded to four decimals (as [x] itself for a
    zero, an infinity and a NaN), so that [track_credits] parses the
    credits text of a provider, and its own first output, without falling
    back to [0.0]; a value [>= 0] reads as a value [>= 0]. *)
Theorem credits_text_round_trip (x : float) :
  of_string (format_4f x) = Some (reparsed x)
  /\ CreditTrackerNode.parse_credits (format_4f x) = Ok (reparsed x)
  /\ (fle pos_zero x = true -> fle pos_zero (reparsed x) = true).
Proof.
  split; [apply of_string_format | ]. split; [apply parse_credits_format | ].
  apply reparsed_nonneg.
Qed.

Lemma credits_text_round_trip_witness :
  fle pos_zero (reparsed (of_decimal false 1875 (-7))) = true.
Proof.
  apply (proj2 (proj2 (credits_text_round_trip (of_decimal false 1875 (-7))))).
  reflexivity.
Defined.


(** X21.  The credits a provider returns, charged by [track_credits].
    Whenever Fal's [generate] returns, the credits text is that of the
    estimate; charging it adds the estimate rounded to four decimals to
    the session total, and that charge is [>= 0] for every size with
    [width * height >= 0].  Whenever Vertex's [generate] returns, charging
    its credits text adds exactly the flat cost of the model.  In both
    cases the call of [track_credits] is one of the charges that keep the
    session total [>= 0]. *)
Theorem provider_credits_charged
    {Tensor Pil : Type} (cd : codec Tensor Pil)
    (net : network) (now : string) (session : float)
    (model_name vault_url project_id : string) (unique_id : pyval)
    (prompt model : string) (width height : Z) (negative_prompt : string)
    (seed : Z) (input_image : option Tensor)
    (img_tensor : Tensor) (credits : string) :
  (forall fal s num_steps guidance_scale,
     FalProviderNode.generate cd fal s prompt model width height negative_prompt
       seed num_steps guidance_scale input_image
     = Ok (img_tensor, credits) ->
     exists v,
       FalProviderNode._estimate_credits model width height = Ok v
       /\ credits = format_4f v
       /\ fst (CreditTrackerNode.track_credits net now session credits model_name
                 vault_url project_id unique_id)
          = fadd session (reparsed v)
       /\ ((0 <= width * height)%Z ->
           fle pos_zero (reparsed v) = true
           /\ CreditTrackerNode.nonneg_charge
                (CreditTrackerNode.Track net now credits model_name vault_url
                   project_id unique_id)))
  /\ (forall has_google_cloud sdk s num_images,
        VertexProviderNode.generate cd has_google_cloud sdk s prompt model width
          height negative_prompt seed num_images input_image
        = Ok (img_tensor, credits) ->
        fst (CreditTrackerNode.track_credits net now session credits model_name
               vault_url project_id unique_id)
        = fadd session (VertexProviderNode._estimate_credits model width height)
        /\ CreditTrackerNode.nonneg_charge
             (CreditTrackerNode.Track net now credits model_name vault_url
                project_id unique_id)).
Proof.
  split.
  - intros fal s num_steps guidance_scale H.
    destruct (fal_generate_credits cd fal s prompt model width height
                negative_prompt seed num_steps guidance_scale input_image
                img_tensor credits H) as (v & Hv & ->).
    exists v. split; [exact Hv | ]. split; [reflexivity | ]. split.
    + rewrite track_credits_total. unfold parsed_charge.
      rewrite of_string_format. reflexivity.
    + intros Hp.
      assert (fle pos_zero (reparsed v) = true) as Hr
        by (apply reparsed_nonneg;
            apply (fal_estimate_nonneg model width height); assumption).
      split; [exact Hr | ].
      cbn [CreditTrackerNode.nonneg_charge]. intros x Hx.
      rewrite of_string_format in Hx. injection Hx as <-. exact Hr.
  - intros has sdk s num_images H.
    destruct has; [ | discriminate].
    destruct (String.eqb_spec (VertexProviderNode.project_id s) "") as [E | E].
    + rewrite vertex_generate_no_project in H by assumption. discriminate.
    + destruct (vertex_generate_credits cd sdk s prompt model width height
                  negative_prompt seed num_images input_image E img_tensor
                  credits H) as [Hp ->].
      split.
      * rewrite track_credits_total.
        rewrite (vertex_cost_imagen_value model width height Hp). reflexivity.
      * cbn [CreditTrackerNode.nonneg_charge]. intros x Hx.
        destruct (model =? "imagen-4"); vm_compute in Hx; injection Hx as <-;
          reflexivity.
Qed.

Lemma provider_credits_charged_witness :
  FalProviderNode.generate text_codec fal_service
    (FalProviderNode.__init__ [("FAL_API_KEY", "k-1")])
    "a harbour at dusk" "flux-schnell" 256 256 "" (-1) 28
    (of_decimal false 75 (-1)) None
  = Ok ("PNG", "0.0002")
  /\ exists v,
       FalProviderNode._estimate_credits "flux-schnell" 256 256 = Ok v
       /\ "0.0002" = format_4f v
       /\ fst (CreditTrackerNode.track_credits (fun _ => NoAnswer) "" pos_zero
                 "0.0002" "flux-schnell" "http://localhost:8080" "" VNone)
          = fadd pos_zero (reparsed v)
       /\ ((0 <= 256 * 256)%Z ->
           fle pos_zero (reparsed v) = true
           /\ CreditTrackerNode.nonneg_charge
                (CreditTrackerNode.Track (fun _ => NoAnswer) "" "0.0002"
                   "flux-schnell" "http://localhost:8080" "" VNone)).
Proof.
  assert (FalProviderNode.generate text_codec fal_service
            (FalProviderNode.__init__ [("FAL_API_KEY", "k-1")])
            "a harbour at dusk" "flux-schnell" 256 256 "" (-1) 28
            (of_decimal false 75 (-1)) None
          = Ok ("PNG", "0.0002")) as H by (vm_compute; reflexivity).
  split; [exact H | ].
  exact (proj1 (provider_credits_charged text_codec (fun _ => NoAnswer) ""
                  pos_zero "flux-schnell" "http://localhost:8080" "" VNone
                  "a harbour at dusk" "flux-schnell" 256 256 "" (-1) None
                  "PNG" "0.0002")
           fal_service (FalProviderNode.__init__ [("FAL_API_KEY", "k-1")]) 28
           (of_decimal false 75 (-1)) H).
Defined.

(** * Adapters built from the environment *)

(** X22.  An adapter is configured when the node is built.  In an
    environment without [FAL_API_KEY], every call of Fal's [generate]
    raises [ValueError], whatever the network; without
    [GOOGLE_CLOUD_PROJECT], every call of Vertex's [generate] with the SDK
    installed raises [ValueError], whatever the SDK; without
    [GOOGLE_CLOUD_LOCATION] the location is [us-central1].  The base URL
    of Fal is [https://fal.run] in every environment. *)
Theorem adapters_built_from_environment
    {Tensor Pil : Type} (cd : codec Tensor Pil)
    (environ : list (string * string)) :
  (assoc "FAL_API_KEY" environ = None ->
   forall net prompt model width height negative_prompt seed num_steps
          guidance_scale input_image,
     FalProviderNode.generate cd net (FalProviderNode.__init__ environ) prompt
       model width height negative_prompt seed num_steps guidance_scale
       input_image
     = Raise (ValueError "FAL_API_KEY environment variable not set"))
  /\ (assoc "GOOGLE_CLOUD_PROJECT" environ = None ->
      forall sdk prompt model width height negative_prompt seed num_images
             input_image,
        VertexProviderNode.generate cd true sdk
          (VertexProviderNode.__init__ environ) prompt model width height
          negative_prompt seed num_images input_image
        = Raise (ValueError "GOOGLE_CLOUD_PROJECT environment variable not set"))
  /\ (assoc "GOOGLE_CLOUD_LOCATION" environ = None ->
      VertexProviderNode.location (VertexProviderNode.__init__ environ)
      = "us-central1")
  /\ FalProviderNode.base_url (FalProviderNode.__init__ environ)
     = "https://fal.run".
Proof.
  split; [ | split; [ | split; [ | reflexivity]]].
  - intros H net prompt model width height negative_prompt seed num_steps
      guidance_scale input_image.
    apply fal_generate_no_key. cbn. unfold get_or. rewrite H. reflexivity.
  - intros H sdk prompt model width height negative_prompt seed num_images
      input_image.
    apply vertex_generate_no_project. cbn. unfold get_or. rewrite H. reflexivity.
  - intros H. cbn. unfold get_or. rewrite H. reflexivity.
Qed.

Lemma adapters_built_from_environment_witness :
  VertexProviderNode.location
    (VertexProviderNode.__init__ [("GOOGLE_CLOUD_PROJECT", "cinema")])
  = "us-central1"
  /\ FalProviderNode.generate text_codec fal_service
       (FalProviderNode.__init__ [("GOOGLE_CLOUD_PROJECT", "cinema")])
       "a harbour at dusk" "flux-2-pro" 1024 1024 "" (-1) 28
       (of_decimal false 75 (-1)) None
     = Raise (ValueError "FAL_API_KEY environment variable not set").
Proof.
  split.
  - apply (proj1 (proj2 (proj2 (adapters_built_from_environment text_codec
                                  [("GOOGLE_CLOUD_PROJECT", "cinema")])))).
    reflexivity.
  - apply (proj1 (adapters_built_from_environment text_codec
                    [("GOOGLE_CLOUD_PROJECT", "cinema")])).
    reflexivity.
Defined.
